(** * System.Security.Cryptography.Native: openssl.c

    A shallow embedding of the certificate name resolver, the identity
    matchers, the buffer-probing accessors and the library initialisation
    of [src/native/libs/System.Security.Cryptography.Native/openssl.c],
    with the properties the specification states about them.

    Conventions of the embedding:
    - a C [int]/[int32_t] is a [Z]; results of 32-bit arithmetic go through
      [wrap32]; an [unsigned char] is a [Z] in [0, 255];
    - a pointer that the code tests against [NULL] is an [option];
    - an array is a [list], read by index with stdpp's lookup [l !! i];
    - calls into the library that matter for a property (decoding and
      releasing an alternative-name list, the host check, the mutex
      operations) are recorded, in order, in a trace of events. *)

From Stdlib Require Import ZArith Lia String Ascii DecimalString.
From stdpp Require Import base tactics option list.
From Equations Require Import Equations.

Open Scope Z_scope.

(** ** Machine integers *)

Definition INT_MAX : Z := 2147483647.
Definition INT_MIN : Z := -2147483648.
Definition SIZE_MAX : Z := 18446744073709551615.

(** Two's complement reduction of a mathematical integer to [int32_t]. *)
Definition wrap32 (z : Z) : Z := (z + 2147483648) mod 4294967296 - 2147483648.

Definition is_int32 (z : Z) : Prop := INT_MIN <= z <= INT_MAX.

(** Unary minus on an [int]. *)
Definition neg32 (z : Z) : Z := wrap32 (- z).

Definition add32 (a b : Z) : Z := wrap32 (a + b).

(** The cast [(size_t)x] of a signed integer. *)
Definition to_size_t (z : Z) : Z := z mod (SIZE_MAX + 1).

(** Modelled from the spec: [Int32ToSizeT] of pal_utilities.h is not among
    the sources; it is the cast of a non-negative [int32_t] to [size_t]. *)
Definition Int32ToSizeT (z : Z) : Z := to_size_t z.

(** ** Byte strings *)

Definition uchar : Type := Z.

Definition bytes_of_string (s : string) : list uchar :=
  map (fun c => Z.of_N (N_of_ascii c)) (list_ascii_of_string s).

(** [struct asn1_string_st]: a length, a type tag and a data pointer. *)
Record ASN1_STRING : Type := mkASN1_STRING {
  asn1_length : Z;
  asn1_type : Z;
  asn1_data : option (list uchar)
}.

(** Modelled from the spec: [memcpy_s] of pal_safecrt.h is not among the
    sources.  The accessors "return a positive code on success after
    copying": when [count] bytes fit in the destination of [sizeInBytes]
    bytes, they replace its first [count] bytes; a zero count copies
    nothing.  The accessors never call it with a larger count. *)
Definition memcpy_s (dst : list uchar) (sizeInBytes : Z)
    (src : option (list uchar)) (count : Z) : list uchar :=
  match src with
  | Some bytes =>
      if (0 <? count) && (count <=? sizeInBytes)
      then take (Z.to_nat count) bytes ++ drop (Z.to_nat count) dst
      else dst
  | None => dst
  end.

(** ** Buffer-probing accessors *)

(** [CryptoNative_GetAsn1StringBytes]: the return code and the caller's
    buffer after the call ([None] is the [NULL] buffer). *)
Definition CryptoNative_GetAsn1StringBytes (asn1 : option ASN1_STRING)
    (pBuf : option (list uchar)) (cBuf : Z) : Z * option (list uchar) :=
  match asn1 with
  | None => (0, pBuf)
  | Some a =>
      if cBuf <? 0 then (0, pBuf)
      else
        let length := asn1_length a in
        if length <? 0 then (0, pBuf)
        else
          match pBuf with
          | None => (neg32 length, pBuf)
          | Some buf =>
              if cBuf <? length then (neg32 length, pBuf)
              else (1, Some (memcpy_s buf (Int32ToSizeT cBuf) (asn1_data a)
                               (Int32ToSizeT length)))
          end
  end.

(** ** Certificates as the library decodes them *)

(** An object identifier: its arcs, and the NID the library's object table
    gives it ([NID_undef] when it has none). *)
Record ASN1_OBJECT : Type := mkASN1_OBJECT {
  obj_nid : Z;
  obj_arcs : list N
}.

Record X509_NAME_ENTRY : Type := mkX509_NAME_ENTRY {
  entry_object : option ASN1_OBJECT;
  entry_value : option ASN1_STRING
}.

(** A distinguished name: its entries in encoded order, and its DER form
    ([None] when [X509_NAME_get0_der] fails). *)
Record X509_NAME : Type := mkX509_NAME {
  name_entries : list X509_NAME_ENTRY;
  name_der : option (list uchar)
}.

(** [ASN1_TYPE]: its tag, and its union read as a string, the way the
    resolver reads it ([value.asn1_string]); [None] is a null pointer there.
    A value that is not a string (a BOOLEAN, whose union holds an integer)
    is not represented: the resolver would hand its bits to the printer. *)
Record ASN1_TYPE : Type := mkASN1_TYPE {
  asn1_type_tag : Z;
  asn1_string : option ASN1_STRING
}.

Record OTHERNAME : Type := mkOTHERNAME {
  type_id : option ASN1_OBJECT;
  othername_value : option ASN1_TYPE
}.

(** [GENERAL_NAME]: a type tag and a union of pointers, one per tag. *)
Inductive GENERAL_NAME : Type :=
| GN_otherName (v : option OTHERNAME)
| GN_rfc822Name (s : option ASN1_STRING)
| GN_dNSName (s : option ASN1_STRING)
| GN_x400Address
| GN_directoryName
| GN_ediPartyName
| GN_uniformResourceIdentifier (s : option ASN1_STRING)
| GN_iPAddress (s : option ASN1_STRING)
| GN_registeredID.

Abbreviation GENERAL_NAMES := (list GENERAL_NAME).

Record X509 : Type := mkX509 {
  x509_subject : option X509_NAME;
  x509_issuer : option X509_NAME;
  x509_subject_alt_name : option GENERAL_NAMES;
  x509_issuer_alt_name : option GENERAL_NAMES
}.

(** Constants of the library's headers. *)
Definition NID_undef : Z := 0.
Definition NID_commonName : Z := 13.
Definition NID_organizationName : Z := 17.
Definition NID_organizationalUnitName : Z := 18.
Definition NID_pkcs9_emailAddress : Z := 48.
Definition NID_subject_alt_name : Z := 85.
Definition NID_issuer_alt_name : Z := 86.

Definition GEN_OTHERNAME : Z := 0.
Definition GEN_EMAIL : Z := 1.
Definition GEN_DNS : Z := 2.
Definition GEN_X400 : Z := 3.
Definition GEN_DIRNAME : Z := 4.
Definition GEN_EDIPARTY : Z := 5.
Definition GEN_URI : Z := 6.
Definition GEN_IPADD : Z := 7.
Definition GEN_RID : Z := 8.

Definition ASN1_STRFLGS_UTF8_CONVERT : Z := 16.
Definition X509_CHECK_FLAG_NO_PARTIAL_WILDCARDS : Z := 4.

(** Constants of openssl.c. *)
Definition NAME_TYPE_SIMPLE : Z := 0.
Definition NAME_TYPE_EMAIL : Z := 1.
Definition NAME_TYPE_UPN : Z := 2.
Definition NAME_TYPE_DNS : Z := 3.
Definition NAME_TYPE_DNSALT : Z := 4.
Definition NAME_TYPE_URL : Z := 5.

(** *** Library accessors *)

Definition gn_type (g : GENERAL_NAME) : Z :=
  match g with
  | GN_otherName _ => GEN_OTHERNAME
  | GN_rfc822Name _ => GEN_EMAIL
  | GN_dNSName _ => GEN_DNS
  | GN_x400Address => GEN_X400
  | GN_directoryName => GEN_DIRNAME
  | GN_ediPartyName => GEN_EDIPARTY
  | GN_uniformResourceIdentifier _ => GEN_URI
  | GN_iPAddress _ => GEN_IPADD
  | GN_registeredID => GEN_RID
  end.

(** The union members the code reads; each is read only under its tag. *)
Definition d_otherName (g : GENERAL_NAME) : option OTHERNAME :=
  match g with GN_otherName v => v | _ => None end.
Definition d_rfc822Name (g : GENERAL_NAME) : option ASN1_STRING :=
  match g with GN_rfc822Name s => s | _ => None end.
Definition d_dNSName (g : GENERAL_NAME) : option ASN1_STRING :=
  match g with GN_dNSName s => s | _ => None end.
Definition d_uniformResourceIdentifier (g : GENERAL_NAME) : option ASN1_STRING :=
  match g with GN_uniformResourceIdentifier s => s | _ => None end.
Definition d_iPAddress (g : GENERAL_NAME) : option ASN1_STRING :=
  match g with GN_iPAddress s => s | _ => None end.

Definition X509_get_subject_name (x : X509) : option X509_NAME := x509_subject x.
Definition X509_get_issuer_name (x : X509) : option X509_NAME := x509_issuer x.

Definition X509_NAME_entry_count (name : X509_NAME) : nat :=
  length (name_entries name).

(** [NULL] when the index is out of range. *)
Definition X509_NAME_get_entry (name : X509_NAME) (loc : nat) : option X509_NAME_ENTRY :=
  name_entries name !! loc.

Definition X509_NAME_ENTRY_get_object (e : X509_NAME_ENTRY) : option ASN1_OBJECT :=
  entry_object e.
Definition X509_NAME_ENTRY_get_data (e : X509_NAME_ENTRY) : option ASN1_STRING :=
  entry_value e.

Definition OBJ_obj2nid (o : ASN1_OBJECT) : Z := obj_nid o.

(** The decoded extension, or [NULL] when the certificate has none. *)
Definition X509_get_ext_d2i (x : X509) (nid : Z) : option GENERAL_NAMES :=
  if nid =? NID_subject_alt_name then x509_subject_alt_name x
  else if nid =? NID_issuer_alt_name then x509_issuer_alt_name x
  else None.

Definition sk_GENERAL_NAME_num (names : GENERAL_NAMES) : nat := length names.
Definition sk_GENERAL_NAME_value (names : GENERAL_NAMES) (i : nat) : option GENERAL_NAME :=
  names !! i.

(** *** Text form of an object identifier *)

Definition decimal (n : N) : list uchar :=
  bytes_of_string (NilZero.string_of_uint (N.to_uint n)).

(** Dotted decimal: the arcs separated by ['.'] (46). *)
Fixpoint dotted (arcs : list N) : list uchar :=
  match arcs with
  | [] => []
  | [a] => decimal a
  | a :: rest => decimal a ++ 46 :: dotted rest
  end.

(** Overwrite the start of a buffer. *)
Definition store (buf : list uchar) (bytes : list uchar) : list uchar :=
  bytes ++ drop (length bytes) buf.

(** [OBJ_obj2txt(buf, buf_len, a, 1)]: the buffer after the call and the
    returned length.  The text is cut to [buf_len - 1] characters and
    NUL-terminated; the result is the length of the whole text, and 0 for
    an object without content. *)
Definition OBJ_obj2txt (buf : list uchar) (buf_len : Z) (a : option ASN1_OBJECT)
    : list uchar * Z :=
  match a with
  | None => (store buf [0], 0)
  | Some o =>
      let text := dotted (obj_arcs o) in
      (store buf (take (Z.to_nat (buf_len - 1)) text ++ [0]),
       Z.of_nat (length text))
  end.

(** [strncmp] on NUL-terminated arrays; past the end of a modelled array
    the terminator is read. *)
Fixpoint strncmp (s1 s2 : list uchar) (n : nat) : Z :=
  match n with
  | O => 0
  | S n' =>
      let c1 := hd 0 s1 in
      let c2 := hd 0 s2 in
      if c1 =? c2
      then if c1 =? 0 then 0 else strncmp (tl s1) (tl s2) n'
      else c1 - c2
  end.

Definition szOidUpn : list uchar :=
  bytes_of_string "1.3.6.1.4.1.311.20.2.3" ++ [0].

Definition sizeof_szOidUpn : Z := Z.of_nat (length szOidUpn).

(** ** Library calls as a trace *)

(** The calls whose occurrence a property is about. *)
Inductive event : Type :=
| ERR_clear_error
| GENERAL_NAMES_decoded (nid : Z)
| GENERAL_NAMES_free
| X509_check_host_called (name : option (list uchar)) (namelen : Z) (flags : Z).

(** A computation: its result and the calls it made, in order. *)
Definition M (A : Type) : Type := A * list event.

Definition ret {A : Type} (a : A) : M A := (a, []).

Definition bind {A B : Type} (m : M A) (k : A -> M B) : M B :=
  let '(b, t) := k (fst m) in (b, snd m ++ t).

Definition call (e : event) : M unit := (tt, [e]).

Notation "x <~ m ;; k" := (bind m (fun x => k))
  (at level 100, m at next level, right associativity).
Notation "m ;;; k" := (bind m (fun _ => k))
  (at level 100, right associativity).

Definition result {A : Type} (m : M A) : A := fst m.
Definition trace {A : Type} (m : M A) : list event := snd m.

(** ** The name resolver *)

(** One [ASN1_STRING_print_ex(b, str, flags)] into a memory BIO. *)
Record print_call : Type := mkprint_call {
  printed : ASN1_STRING;
  print_flags : Z
}.

(** A memory BIO is known by what was printed to it. *)
Definition BIO : Type := list print_call.

Definition BIO_new_printed (str : ASN1_STRING) (flags : Z) : BIO :=
  [mkprint_call str flags].

(** The locals of the Simple scan. *)
Record simple_scan : Type := mksimple_scan {
  cn : option ASN1_STRING;
  ou : option ASN1_STRING;
  o : option ASN1_STRING;
  e : option ASN1_STRING;
  firstRdn : option ASN1_STRING
}.

Definition simple_scan_init : simple_scan := mksimple_scan None None None None None.

(** The loop [for (i = count - 1; i >= 0; --i)] of the Simple phase, entered
    with [k = i + 1]. *)
Fixpoint simple_scan_loop (name : X509_NAME) (k : nat) (st : simple_scan) : simple_scan :=
  match k with
  | O => st
  | S i =>
      match X509_NAME_get_entry name i with
      | None => simple_scan_loop name i st
      | Some entry =>
          match X509_NAME_ENTRY_get_object entry, X509_NAME_ENTRY_get_data entry with
          | Some oid, Some str =>
              let nid := OBJ_obj2nid oid in
              if nid =? NID_commonName then
                mksimple_scan (Some str) (ou st) (o st) (e st) (firstRdn st)
              else if nid =? NID_organizationalUnitName then
                simple_scan_loop name i
                  (mksimple_scan (cn st) (Some str) (o st) (e st) (firstRdn st))
              else if nid =? NID_organizationName then
                simple_scan_loop name i
                  (mksimple_scan (cn st) (ou st) (Some str) (e st) (firstRdn st))
              else if nid =? NID_pkcs9_emailAddress then
                simple_scan_loop name i
                  (mksimple_scan (cn st) (ou st) (o st) (Some str) (firstRdn st))
              else
                match firstRdn st with
                | None =>
                    simple_scan_loop name i
                      (mksimple_scan (cn st) (ou st) (o st) (e st) (Some str))
                | Some _ => simple_scan_loop name i st
                end
          | _, _ => simple_scan_loop name i st
          end
      end
  end.

(** The answer chosen after the scan. *)
Definition simple_answer (st : simple_scan) : option ASN1_STRING :=
  let answer := cn st in
  match answer, firstRdn st with
  | None, Some _ =>
      let answer := ou st in
      let answer := match answer with None => o st | Some _ => answer end in
      let answer := match answer with None => e st | Some _ => answer end in
      match answer with None => firstRdn st | Some _ => answer end
  | _, _ => answer
  end.

Definition chosen_name (x509 : X509) (forIssuer : Z) : option X509_NAME :=
  if forIssuer =? 0 then X509_get_subject_name x509 else X509_get_issuer_name x509.

(** The block under [if (nameType == NAME_TYPE_SIMPLE)]: the BIO it returns,
    or [None] when control leaves the block. *)
Definition simple_phase (x509 : X509) (nameType forIssuer : Z) : option BIO :=
  if nameType =? NAME_TYPE_SIMPLE then
    match chosen_name x509 forIssuer with
    | Some name =>
        let st := simple_scan_loop name (X509_NAME_entry_count name) simple_scan_init in
        match simple_answer st with
        | Some answer => Some (BIO_new_printed answer ASN1_STRFLGS_UTF8_CONVERT)
        | None => None
        end
    | None => None
    end
  else None.

Definition expectedType (nameType : Z) : Z :=
  if (nameType =? NAME_TYPE_DNS) || (nameType =? NAME_TYPE_DNSALT) then GEN_DNS
  else if (nameType =? NAME_TYPE_SIMPLE) || (nameType =? NAME_TYPE_EMAIL) then GEN_EMAIL
  else if nameType =? NAME_TYPE_UPN then GEN_OTHERNAME
  else if nameType =? NAME_TYPE_URL then GEN_URI
  else -1.

(** The test of the UPN case: the text of the sub-OID against [szOidUpn].
    [localOid] is the uninitialised local array of [sizeof(szOidUpn) + 3]
    bytes. *)
Definition is_upn_oid (localOid : list uchar) (type_id : option ASN1_OBJECT) : bool :=
  let '(localOid, written) := OBJ_obj2txt localOid (sizeof_szOidUpn + 3) type_id in
  let cchLocalOid := add32 1 written in
  (sizeof_szOidUpn =? cchLocalOid)
  && (0 =? strncmp localOid szOidUpn (Z.to_nat sizeof_szOidUpn)).

(** The UPN case of the inner switch. *)
Definition upn_string (localOid : list uchar) (altName : GENERAL_NAME)
    : option ASN1_STRING :=
  match d_otherName altName with
  | Some value =>
      if is_upn_oid localOid (type_id value)
      then
        match othername_value value with
        | Some v => asn1_string v
        | None => None
        end
      else None
  | None => None
  end.

(** The inner [switch (nameType)]: the string of a matching entry. *)
Definition alt_name_string (localOid : list uchar) (nameType : Z)
    (altName : GENERAL_NAME) : option ASN1_STRING :=
  if (nameType =? NAME_TYPE_DNS) || (nameType =? NAME_TYPE_DNSALT) then d_dNSName altName
  else if (nameType =? NAME_TYPE_SIMPLE) || (nameType =? NAME_TYPE_EMAIL) then d_rfc822Name altName
  else if nameType =? NAME_TYPE_URL then d_uniformResourceIdentifier altName
  else if nameType =? NAME_TYPE_UPN then upn_string localOid altName
  else None.

(** The body of the alternative-name loop for one index: the string to
    print, when the entry is taken. *)
Definition alt_name_entry (localOid : list uchar) (nameType : Z)
    (altNames : GENERAL_NAMES) (i : nat) : option ASN1_STRING :=
  match sk_GENERAL_NAME_value altNames i with
  | Some altName =>
      if gn_type altName =? expectedType nameType
      then alt_name_string localOid nameType altName
      else None
  | None => None
  end.

(** The loop [for (i = 0; i < sk_GENERAL_NAME_num(altNames); ++i)], with
    [remaining = num - i]: the string of the first entry taken. *)
Fixpoint alt_name_loop (localOid : list uchar) (nameType : Z)
    (altNames : GENERAL_NAMES) (remaining i : nat) : option ASN1_STRING :=
  match remaining with
  | O => None
  | S r =>
      match alt_name_entry localOid nameType altNames i with
      | Some str => Some str
      | None => alt_name_loop localOid nameType altNames r (S i)
      end
  end.

(** The second block: the alternative-name scan. *)
Definition alt_name_phase (localOid : list uchar) (x509 : X509)
    (nameType forIssuer : Z) : M (option BIO) :=
  if (nameType =? NAME_TYPE_SIMPLE) || (nameType =? NAME_TYPE_DNS)
     || (nameType =? NAME_TYPE_DNSALT) || (nameType =? NAME_TYPE_EMAIL)
     || (nameType =? NAME_TYPE_UPN) || (nameType =? NAME_TYPE_URL)
  then
    let nid := if forIssuer =? 0 then NID_subject_alt_name else NID_issuer_alt_name in
    match X509_get_ext_d2i x509 nid with
    | Some altNames =>
        call (GENERAL_NAMES_decoded nid) ;;;
        match alt_name_loop localOid nameType altNames (sk_GENERAL_NAME_num altNames) 0 with
        | Some str =>
            let b := BIO_new_printed str ASN1_STRFLGS_UTF8_CONVERT in
            call GENERAL_NAMES_free ;;;
            ret (Some b)
        | None =>
            call GENERAL_NAMES_free ;;;
            ret None
        end
    | None => ret None
    end
  else ret None.

Definition expectedNid (nameType : Z) : Z :=
  if nameType =? NAME_TYPE_EMAIL then NID_pkcs9_emailAddress
  else if nameType =? NAME_TYPE_DNS then NID_commonName
  else NID_undef.

(** The reverse loop of the third block, entered with [k = i + 1]. *)
Fixpoint legacy_loop (name : X509_NAME) (nid_wanted : Z) (k : nat) : option BIO :=
  match k with
  | O => None
  | S i =>
      match X509_NAME_get_entry name i with
      | None => legacy_loop name nid_wanted i
      | Some entry =>
          match X509_NAME_ENTRY_get_object entry, X509_NAME_ENTRY_get_data entry with
          | Some oid, Some str =>
              if OBJ_obj2nid oid =? nid_wanted
              then Some (BIO_new_printed str 0)
              else legacy_loop name nid_wanted i
          | _, _ => legacy_loop name nid_wanted i
          end
      end
  end.

(** The third block: the single-attribute fallback of Email and Dns. *)
Definition legacy_phase (x509 : X509) (nameType forIssuer : Z) : option BIO :=
  if (nameType =? NAME_TYPE_EMAIL) || (nameType =? NAME_TYPE_DNS) then
    match chosen_name x509 forIssuer with
    | Some name => legacy_loop name (expectedNid nameType) (X509_NAME_entry_count name)
    | None => None
    end
  else None.

(** [CryptoNative_GetX509NameInfo].  [localOid] stands for the contents of
    the uninitialised local array the UPN comparison writes to. *)
Definition CryptoNative_GetX509NameInfo (localOid : list uchar) (x509 : option X509)
    (nameType forIssuer : Z) : M (option BIO) :=
  call ERR_clear_error ;;;
  match x509 with
  | None => ret None
  | Some cert =>
      if (nameType <? NAME_TYPE_SIMPLE) || (NAME_TYPE_URL <? nameType) then ret None
      else
        match simple_phase cert nameType forIssuer with
        | Some b => ret (Some b)
        | None =>
            found <~ alt_name_phase localOid cert nameType forIssuer ;;
            match found with
            | Some b => ret (Some b)
            | None => ret (legacy_phase cert nameType forIssuer)
            end
        end
  end.

(** ** More accessors *)

Definition X509_NAME_get0_der (name : X509_NAME) : option (list uchar) := name_der name.

(** [CryptoNative_GetX509NameRawBytes]: the return code and the caller's
    buffer after the call. *)
Definition CryptoNative_GetX509NameRawBytes (x509Name : option X509_NAME)
    (pBuf : option (list uchar)) (cBuf : Z) : M (Z * option (list uchar)) :=
  call ERR_clear_error ;;;
  match x509Name with
  | None => ret (0, pBuf)
  | Some name =>
      if cBuf <? 0 then ret (0, pBuf)
      else
        match X509_NAME_get0_der name with
        | None => ret (0, pBuf)
        | Some nameBuf =>
            let nameBufLen := Z.of_nat (length nameBuf) in
            if INT_MAX <? nameBufLen then ret (0, pBuf)
            else
              let length := wrap32 nameBufLen in
              if length <? 0 then ret (0, pBuf)
              else
                match pBuf with
                | None => ret (neg32 length, pBuf)
                | Some buf =>
                    if cBuf <? length then ret (neg32 length, pBuf)
                    else ret (1, Some (memcpy_s buf (Int32ToSizeT cBuf) (Some nameBuf)
                                         (Int32ToSizeT length)))
                end
        end
  end.

(** ** The identity matchers *)

(** [hostname[0]]; a read past the modelled array reads the terminator. *)
Definition first_char (hostname : option (list uchar)) : uchar :=
  match hostname with
  | Some h => hd 0 h
  | None => 0
  end.

Definition is_null {A : Type} (p : option A) : bool :=
  match p with Some _ => false | None => true end.

Section HostCheck.

(** The library's [X509_check_host(x, chk, chklen, flags, NULL)]. *)
Variable X509_check_host : X509 -> option (list uchar) -> Z -> Z -> Z.

Definition CryptoNative_CheckX509Hostname (x509 : option X509)
    (hostname : option (list uchar)) (cchHostname : Z) : M Z :=
  match x509 with
  | None => ret (-3)
  | Some cert =>
      if (0 <? cchHostname) && is_null hostname then ret (-4)
      else if cchHostname <? 0 then ret (-5)
      else
        call ERR_clear_error ;;;
        if (0 <? cchHostname) && (first_char hostname =? 46) then ret 0
        else
          call (X509_check_host_called hostname (to_size_t cchHostname)
                  X509_CHECK_FLAG_NO_PARTIAL_WILDCARDS) ;;;
          ret (X509_check_host cert hostname (to_size_t cchHostname)
                 X509_CHECK_FLAG_NO_PARTIAL_WILDCARDS)
  end.

End HostCheck.

(** [memcmp]: 0 when the first [n] bytes agree. *)
Fixpoint memcmp (a b : list uchar) (n : nat) : Z :=
  match n with
  | O => 0
  | S n' =>
      let c1 := hd 0 a in
      let c2 := hd 0 b in
      if c1 =? c2 then memcmp (tl a) (tl b) n' else c1 - c2
  end.

Definition tolower (c : uchar) : uchar :=
  if (65 <=? c) && (c <=? 90) then c + 32 else c.

(** [strncasecmp]: [strncmp] on the lower-cased characters. *)
Fixpoint strncasecmp (s1 s2 : list uchar) (n : nat) : Z :=
  match n with
  | O => 0
  | S n' =>
      let c1 := tolower (hd 0 s1) in
      let c2 := tolower (hd 0 s2) in
      if c1 =? c2
      then if c1 =? 0 then 0 else strncasecmp (tl s1) (tl s2) n'
      else c1 - c2
  end.

(** What a call yields: a return code, or a crash on a [NULL] pointer the
    code dereferences without a test. *)
Inductive outcome : Type :=
| Returned (code : Z)
| NullDereference.

(** The body of the SAN loop for one entry: whether it sets [success]. *)
Definition san_entry_matches (sanEntry : GENERAL_NAME) (addressBytes : list uchar)
    (addressBytesLen : Z) : bool :=
  if negb (gn_type sanEntry =? GEN_IPADD) then false
  else
    match d_iPAddress sanEntry with
    | None => false
    | Some ipAddr =>
        match asn1_data ipAddr with
        | None => false
        | Some data =>
            if negb (asn1_length ipAddr =? addressBytesLen) then false
            else memcmp addressBytes data (Z.to_nat (to_size_t addressBytesLen)) =? 0
        end
    end.

(** The loop [for (i = 0; i < count; ++i)] over the SAN entries, with
    [remaining = count - i]: the value of [success] after it. *)
Fixpoint san_loop (san : GENERAL_NAMES) (addressBytes : list uchar)
    (addressBytesLen : Z) (remaining i : nat) : outcome :=
  match remaining with
  | O => Returned 0
  | S r =>
      match sk_GENERAL_NAME_value san i with
      | None => NullDereference
      | Some sanEntry =>
          if san_entry_matches sanEntry addressBytes addressBytesLen
          then Returned 1
          else san_loop san addressBytes addressBytesLen r (S i)
      end
  end.

Definition entry_has_nid (nid : Z) (en : X509_NAME_ENTRY) : bool :=
  match entry_object en with
  | Some ob => OBJ_obj2nid ob =? nid
  | None => false
  end.

Fixpoint index_by_NID_from (entries : list X509_NAME_ENTRY) (nid : Z) (pos : nat) : Z :=
  match entries with
  | [] => -1
  | en :: rest =>
      if entry_has_nid nid en then Z.of_nat pos
      else index_by_NID_from rest nid (S pos)
  end.

(** [X509_NAME_get_index_by_NID]: the first index after [lastpos] whose
    entry has the NID, or -1. *)
Definition X509_NAME_get_index_by_NID (name : X509_NAME) (nid : Z) (lastpos : Z) : Z :=
  let start := Z.to_nat (Z.max lastpos (-1) + 1) in
  index_by_NID_from (drop start (name_entries name)) nid start.

Lemma index_by_NID_from_bounds entries nid pos :
  index_by_NID_from entries nid pos = -1
  \/ Z.of_nat pos <= index_by_NID_from entries nid pos < Z.of_nat (pos + length entries).
Proof.
  revert pos; induction entries as [|en rest IH]; intros pos; simpl; [now left|].
  destruct (entry_has_nid nid en); [right; lia|].
  destruct (IH (S pos)) as [->|?]; [now left|right; lia].
Qed.

Lemma X509_NAME_get_index_by_NID_bounds name nid lastpos :
  0 <= X509_NAME_get_index_by_NID name nid lastpos ->
  lastpos < X509_NAME_get_index_by_NID name nid lastpos
          < Z.of_nat (X509_NAME_entry_count name).
Proof.
  unfold X509_NAME_get_index_by_NID, X509_NAME_entry_count.
  set (start := Z.to_nat (Z.max lastpos (-1) + 1)).
  destruct (index_by_NID_from_bounds (drop start (name_entries name)) nid start)
    as [->|Hb]; [lia|].
  rewrite length_drop in Hb. intros _. subst start. lia.
Qed.

(** A value together with the equation that names it. *)
Definition inspect {A : Type} (x : A) : {y : A | x = y} := exist _ x eq_refl.

(** The test of the Common-Name loop on one value.  A value without data
    is read as the empty text, where the code would hand the null pointer
    to [strncasecmp]; the library decodes no such value. *)
Definition common_name_matches (cn : ASN1_STRING) (hostname : list uchar)
    (cchHostname : Z) : bool :=
  (asn1_length cn =? cchHostname)
  && (strncasecmp (default [] (asn1_data cn)) hostname
        (Z.to_nat (to_size_t cchHostname)) =? 0).

(** The loop [while ((i = X509_NAME_get_index_by_NID(subject, nid, i)) >= 0)]
    over the Common-Name entries of the subject. *)
Equations? common_name_loop (subject : X509_NAME) (hostname : list uchar)
    (cchHostname : Z) (i : Z) : outcome
    by wf (Z.to_nat (Z.of_nat (X509_NAME_entry_count subject) - i)) lt :=
  common_name_loop subject hostname cchHostname i
    with inspect (X509_NAME_get_index_by_NID subject NID_commonName i) := {
    | exist _ j Hj with Z_lt_dec j 0 := {
      | left _ => Returned 0
      | right _ =>
          match X509_NAME_get_entry subject (Z.to_nat j) ≫= X509_NAME_ENTRY_get_data with
          | None => NullDereference
          | Some cn =>
              if common_name_matches cn hostname cchHostname
              then Returned 1
              else common_name_loop subject hostname cchHostname j
          end } }.
Proof.
  pose proof (X509_NAME_get_index_by_NID_bounds subject NID_commonName i) as Hb.
  lia.
Qed.

(** The SAN block: decode, scan, release. *)
Definition san_phase (x509 : X509) (addressBytes : list uchar) (addressBytesLen : Z)
    : M outcome :=
  match X509_get_ext_d2i x509 NID_subject_alt_name with
  | Some san =>
      call (GENERAL_NAMES_decoded NID_subject_alt_name) ;;;
      match san_loop san addressBytes addressBytesLen (sk_GENERAL_NAME_num san) 0 with
      | Returned success =>
          call GENERAL_NAMES_free ;;;
          ret (Returned success)
      | NullDereference => ret NullDereference
      end
  | None => ret (Returned 0)
  end.

(** The block under [if (!success)]. *)
Definition subject_phase (x509 : X509) (hostname : option (list uchar))
    (cchHostname : Z) : outcome :=
  match X509_get_subject_name x509 with
  | Some subject => common_name_loop subject (default [] hostname) cchHostname (-1)
  | None => Returned 0
  end.

(** [CryptoNative_CheckX509IpAddress]. *)
Definition CryptoNative_CheckX509IpAddress (x509 : option X509)
    (addressBytes : option (list uchar)) (addressBytesLen : Z)
    (hostname : option (list uchar)) (cchHostname : Z) : M outcome :=
  match x509 with
  | None => ret (Returned (-2))
  | Some cert =>
      if (0 <? cchHostname) && is_null hostname then ret (Returned (-3))
      else if cchHostname <? 0 then ret (Returned (-4))
      else if addressBytesLen <? 0 then ret (Returned (-5))
      else
        match addressBytes with
        | None => ret (Returned (-6))
        | Some address =>
            call ERR_clear_error ;;;
            scanned <~ san_phase cert address addressBytesLen ;;
            match scanned with
            | Returned success =>
                if success =? 0 then ret (subject_phase cert hostname cchHostname)
                else ret (Returned success)
            | NullDereference => ret NullDereference
            end
        end
  end.

(** ** Initialisation for the caller-managed lock model *)

(** What the process and the library answer during initialisation. *)
Record init_env : Type := mkinit_env {
  CRYPTO_num_locks : Z;
  sizeof_pthread_mutex_t : Z;
  malloc_succeeds : Z -> bool;
  pthread_mutex_init : nat -> Z;
  RAND_poll : Z;
  CRYPTO_get_ex_new_index : Z -> Z
}.

Inductive mutex : Type :=
| mutex_uninitialized
| mutex_initialized
| mutex_destroyed.

(** The globals of openssl.c that initialisation writes. *)
Record globals : Type := mkglobals {
  g_locks : option (list mutex);
  g_x509_ocsp_index : Z;
  g_ssl_sess_cert_index : Z;
  locking_callback : bool
}.

Inductive init_event : Type :=
| initLock_lock
| initLock_unlock
| malloc_called (size : Z) (succeeded : bool)
| free_called
| mutex_init_called (slot : nat) (status : Z)
| mutex_destroy_called (slot : nat)
| CRYPTO_set_locking_callback_called
| RAND_poll_called
| OPENSSL_add_all_algorithms_conf_called
| ERR_load_crypto_strings_called
| CRYPTO_get_ex_new_index_called (class_index : Z).

(** Modelled from the spec: [multiply_s] of pal_safecrt.h is not among the
    sources; initialisation must "fail if ... allocation/multiplication
    overflows", so it yields the product when it fits a [size_t]. *)
Definition multiply_s (a b : Z) : option Z :=
  if a * b <=? SIZE_MAX then Some (a * b) else None.

(** The loop that initialises the locks, with [remaining = numLocks -
    locksInitialized]: whether every [pthread_mutex_init] succeeded, the
    final [locksInitialized], the array and the calls made. *)
Fixpoint init_locks_loop (env : init_env) (remaining locksInitialized : nat)
    (locks : list mutex) : bool * nat * list mutex * list init_event :=
  match remaining with
  | O => (true, locksInitialized, locks, [])
  | S r =>
      let status := pthread_mutex_init env locksInitialized in
      if negb (status =? 0)
      then (false, locksInitialized, locks, [mutex_init_called locksInitialized status])
      else
        let '(ok, n, locks', t) :=
          init_locks_loop env r (S locksInitialized)
            (<[locksInitialized := mutex_initialized]> locks) in
        (ok, n, locks', mutex_init_called locksInitialized status :: t)
  end.

(** The cleanup loop [for (i = locksInitialized - 1; i >= 0; i--)], entered
    with [k = i + 1]. *)
Fixpoint destroy_locks_loop (k : nat) (locks : list mutex) : list mutex * list init_event :=
  match k with
  | O => (locks, [])
  | S i =>
      let '(locks', t) := destroy_locks_loop i (<[i := mutex_destroyed]> locks) in
      (locks', mutex_destroy_called i :: t)
  end.

(** The code after the label [done]. *)
Definition done (ret : Z) (locksInitialized : nat) (g : globals)
    : Z * globals * list init_event :=
  if negb (ret =? 0) then
    match g_locks g with
    | Some locks =>
        let '(_, t) := destroy_locks_loop locksInitialized locks in
        (ret,
         mkglobals None (g_x509_ocsp_index g) (g_ssl_sess_cert_index g) (locking_callback g),
         t ++ [free_called; initLock_unlock])
    | None => (ret, g, [initLock_unlock])
    end
  else (ret, g, [initLock_unlock]).

Definition with_events (t : list init_event) (r : Z * globals * list init_event)
    : Z * globals * list init_event :=
  let '(ret, g, t') := r in (ret, g, t ++ t').

(** [EnsureOpenSsl10Initialized]: the status, the globals after the call
    and the calls made. *)
Definition EnsureOpenSsl10Initialized (env : init_env) (g : globals)
    : Z * globals * list init_event :=
  with_events [initLock_lock]
    match g_locks g with
    | Some _ => done 0 0 g
    | None =>
        let numLocks := CRYPTO_num_locks env in
        if numLocks <=? 0 then done 1 0 g
        else
          match multiply_s (sizeof_pthread_mutex_t env) (to_size_t numLocks) with
          | None => done 2 0 g
          | Some allocationSize =>
              if negb (malloc_succeeds env allocationSize)
              then with_events [malloc_called allocationSize false] (done 2 0 g)
              else
                let array := replicate (Z.to_nat numLocks) mutex_uninitialized in
                let '(ok, locksInitialized, locks, t) :=
                  init_locks_loop env (Z.to_nat numLocks) 0 array in
                let g1 := mkglobals (Some locks) (g_x509_ocsp_index g)
                            (g_ssl_sess_cert_index g) (locking_callback g) in
                with_events (malloc_called allocationSize true :: t)
                  (if negb ok then done 3 locksInitialized g1
                   else
                     let g2 := mkglobals (Some locks) (g_x509_ocsp_index g)
                                 (g_ssl_sess_cert_index g) true in
                     if RAND_poll env <? 1
                     then
                       with_events [CRYPTO_set_locking_callback_called; RAND_poll_called]
                         (done 4 locksInitialized g2)
                     else
                       let g3 := mkglobals (Some locks) (CRYPTO_get_ex_new_index env 10)
                                   (CRYPTO_get_ex_new_index env 3) true in
                       with_events
                         [CRYPTO_set_locking_callback_called; RAND_poll_called;
                          OPENSSL_add_all_algorithms_conf_called;
                          ERR_load_crypto_strings_called;
                          CRYPTO_get_ex_new_index_called 10;
                          CRYPTO_get_ex_new_index_called 3]
                         (done 0 locksInitialized g3))
          end
    end.

(** ** Vocabulary of the statements *)

(** The attribute an entry carries: its NID and its value.  The scans skip
    an entry without object or value. *)
Definition attribute (en : X509_NAME_ENTRY) : option (Z * ASN1_STRING) :=
  match X509_NAME_ENTRY_get_object en, X509_NAME_ENTRY_get_data en with
  | Some oid, Some str => Some (OBJ_obj2nid oid, str)
  | _, _ => None
  end.

(** The attributes of a name, in encoded order. *)
Definition attributes (name : X509_NAME) : list (Z * ASN1_STRING) :=
  omap attribute (name_entries name).

Definition is_nid (wanted nid : Z) : bool := nid =? wanted.

(** The value of the first attribute of a list whose NID satisfies [p]. *)
Fixpoint first_with (p : Z -> bool) (l : list (Z * ASN1_STRING)) : option ASN1_STRING :=
  match l with
  | [] => None
  | (nid, str) :: rest => if p nid then Some str else first_with p rest
  end.

Definition recognized (nid : Z) : bool :=
  (nid =? NID_commonName) || (nid =? NID_organizationalUnitName)
  || (nid =? NID_organizationName) || (nid =? NID_pkcs9_emailAddress).

Definition unrecognized (nid : Z) : bool := negb (recognized nid).

Definition or_else {A : Type} (a b : option A) : option A :=
  match a with Some _ => a | None => b end.

(** The Simple answer in the words of the specification: a Common Name
    seen in the reverse scan wins; otherwise, when the name has an entry,
    the first OrganizationalUnit seen in that scan, else the first
    Organization, else the first Email, else the first unrecognized
    attribute. *)
Definition spec_simple_answer (name : X509_NAME) : option ASN1_STRING :=
  let scan := rev (attributes name) in
  match first_with (is_nid NID_commonName) scan with
  | Some str => Some str
  | None =>
      match name_entries name with
      | [] => None
      | _ :: _ =>
          or_else (first_with (is_nid NID_organizationalUnitName) scan)
            (or_else (first_with (is_nid NID_organizationName) scan)
               (or_else (first_with (is_nid NID_pkcs9_emailAddress) scan)
                  (first_with unrecognized scan)))
      end
  end.

(** The Simple answer as amended: a Common Name seen in the reverse scan
    wins; otherwise, when the scan saw an unrecognized attribute, the
    OrganizationalUnit that comes first in encoded order, else such an
    Organization, else such an Email, else the unrecognized attribute the
    scan saw first. *)
Definition amended_simple_answer (name : X509_NAME) : option ASN1_STRING :=
  let encoded := attributes name in
  let scan := rev encoded in
  match first_with (is_nid NID_commonName) scan with
  | Some str => Some str
  | None =>
      match first_with unrecognized scan with
      | Some other =>
          or_else (first_with (is_nid NID_organizationalUnitName) encoded)
            (or_else (first_with (is_nid NID_organizationName) encoded)
               (or_else (first_with (is_nid NID_pkcs9_emailAddress) encoded)
                  (Some other)))
      | None => None
      end
  end.

(** The Simple loop over the entries in the order it visits them. *)
Fixpoint simple_scan_list (l : list X509_NAME_ENTRY) (st : simple_scan) : simple_scan :=
  match l with
  | [] => st
  | entry :: rest =>
      match attribute entry with
      | Some (nid, str) =>
          if nid =? NID_commonName then
            mksimple_scan (Some str) (ou st) (o st) (e st) (firstRdn st)
          else if nid =? NID_organizationalUnitName then
            simple_scan_list rest (mksimple_scan (cn st) (Some str) (o st) (e st) (firstRdn st))
          else if nid =? NID_organizationName then
            simple_scan_list rest (mksimple_scan (cn st) (ou st) (Some str) (e st) (firstRdn st))
          else if nid =? NID_pkcs9_emailAddress then
            simple_scan_list rest (mksimple_scan (cn st) (ou st) (o st) (Some str) (firstRdn st))
          else
            match firstRdn st with
            | None =>
                simple_scan_list rest (mksimple_scan (cn st) (ou st) (o st) (e st) (Some str))
            | Some _ => simple_scan_list rest st
            end
      | None => simple_scan_list rest st
      end
  end.

(** The whole text form of a sub-OID, however long. *)
Definition oid_text (type_id : option ASN1_OBJECT) : list uchar :=
  match type_id with
  | Some oid => dotted (obj_arcs oid)
  | None => []
  end.

Definition upn_text : list uchar := bytes_of_string "1.3.6.1.4.1.311.20.2.3".

Definition upn_arcs : list N := [1; 3; 6; 1; 4; 1; 311; 20; 2; 3]%N.

(** The string an alternative-name entry gives in UPN mode, stated on the
    text of its sub-OID. *)
Definition upn_entry (altName : GENERAL_NAME) : option ASN1_STRING :=
  match altName with
  | GN_otherName (Some value) =>
      if decide (oid_text (type_id value) = upn_text)
      then othername_value value ≫= asn1_string
      else None
  | _ => None
  end.

Definition alt_names_of (x509 : X509) (forIssuer : Z) : option GENERAL_NAMES :=
  X509_get_ext_d2i x509
    (if forIssuer =? 0 then NID_subject_alt_name else NID_issuer_alt_name).

(** What the alternative-name loop takes from one entry. *)
Definition alt_name_pick (localOid : list uchar) (nameType : Z) (altName : GENERAL_NAME)
    : option ASN1_STRING :=
  if gn_type altName =? expectedType nameType
  then alt_name_string localOid nameType altName
  else None.

Definition utf8_bio (str : ASN1_STRING) : BIO :=
  BIO_new_printed str ASN1_STRFLGS_UTF8_CONVERT.

Definition raw_bio (str : ASN1_STRING) : BIO := BIO_new_printed str 0.

(** The three phases of the resolver, each as the string it finds. *)
Definition simple_part (x509 : X509) (nameType forIssuer : Z) : option ASN1_STRING :=
  if nameType =? NAME_TYPE_SIMPLE
  then chosen_name x509 forIssuer ≫= amended_simple_answer
  else None.

Definition alternative_part (localOid : list uchar) (x509 : X509) (nameType forIssuer : Z)
    : option ASN1_STRING :=
  alt_names_of x509 forIssuer ≫= fun names => head (omap (alt_name_pick localOid nameType) names).

Definition legacy_part (x509 : X509) (nameType forIssuer : Z) : option ASN1_STRING :=
  if (nameType =? NAME_TYPE_EMAIL) || (nameType =? NAME_TYPE_DNS)
  then chosen_name x509 forIssuer ≫= fun name =>
         first_with (is_nid (expectedNid nameType)) (rev (attributes name))
  else None.

Definition sub_oid (altName : GENERAL_NAME) : option ASN1_OBJECT :=
  match altName with
  | GN_otherName (Some value) => type_id value
  | _ => None
  end.

(** The length of the text form is an [int] (it is what [OBJ_obj2txt]
    returns), with room for the terminator. *)
Definition oid_fits_int (type_id : option ASN1_OBJECT) : Prop :=
  Z.of_nat (length (oid_text type_id)) < INT_MAX.

(** The Common-Name loop over the entries in the order it visits them. *)
Fixpoint common_name_scan (hostname : list uchar) (cchHostname : Z)
    (l : list X509_NAME_ENTRY) : outcome :=
  match l with
  | [] => Returned 0
  | en :: rest =>
      if entry_has_nid NID_commonName en then
        match X509_NAME_ENTRY_get_data en with
        | None => NullDereference
        | Some cn =>
            if common_name_matches cn hostname cchHostname then Returned 1
            else common_name_scan hostname cchHostname rest
        end
      else common_name_scan hostname cchHostname rest
  end.

(** A Common-Name entry whose value has the length of the hostname and
    equals it up to case. *)
Definition common_name_entry_matches (hostname : list uchar) (cchHostname : Z)
    (en : X509_NAME_ENTRY) : bool :=
  entry_has_nid NID_commonName en
  && match X509_NAME_ENTRY_get_data en with
     | Some cn => common_name_matches cn hostname cchHostname
     | None => false
     end.

(** Every Common-Name entry carries a value. *)
Definition common_names_have_data (l : list X509_NAME_ENTRY) : Prop :=
  Forall (fun en => entry_has_nid NID_commonName en = true ->
                    is_Some (X509_NAME_ENTRY_get_data en)) l.

Definition subject_entries (x509 : X509) : list X509_NAME_ENTRY :=
  match X509_get_subject_name x509 with
  | Some subject => name_entries subject
  | None => []
  end.

Definition subject_alt_names (x509 : X509) : GENERAL_NAMES :=
  default [] (X509_get_ext_d2i x509 NID_subject_alt_name).

(** The decode and release events of a trace. *)
Definition is_names_event (ev : event) : bool :=
  match ev with
  | GENERAL_NAMES_decoded _ | GENERAL_NAMES_free => true
  | _ => false
  end.

Definition names_events (t : list event) : list event :=
  List.filter is_names_event t.

(** *** Readings of an initialisation trace *)

(** The slots whose [pthread_mutex_init] succeeded, in order. *)
Definition initialized_slots (t : list init_event) : list nat :=
  omap (fun ev => match ev with
                  | mutex_init_called slot status =>
                      if status =? 0 then Some slot else None
                  | _ => None
                  end) t.

(** The slots passed to [pthread_mutex_destroy], in order. *)
Definition destroyed_slots (t : list init_event) : list nat :=
  omap (fun ev => match ev with
                  | mutex_destroy_called slot => Some slot
                  | _ => None
                  end) t.

(** The number of calls of [free]. *)
Definition frees (t : list init_event) : nat :=
  length (List.filter (fun ev => match ev with free_called => true | _ => false end) t).

(** The number of successful calls of [malloc]. *)
Definition allocations (t : list init_event) : nat :=
  length (List.filter (fun ev => match ev with
                                 | malloc_called _ true => true
                                 | _ => false
                                 end) t).

(** The size of the lock array when it can be allocated. *)
Definition allocation (env : init_env) : option Z :=
  multiply_s (sizeof_pthread_mutex_t env) (to_size_t (CRYPTO_num_locks env))
  ≫= fun size => if malloc_succeeds env size then Some size else None.

Definition init_ok_events (first count : nat) : list init_event :=
  map (fun slot => mutex_init_called slot 0) (seq first count).

Definition destroy_events (count : nat) : list init_event :=
  map mutex_destroy_called (rev (seq 0 count)).

(** A process in which the third of four locks fails to initialise. *)
Definition third_lock_fails : init_env :=
  mkinit_env 4 40 (fun _ => true) (fun slot => if (slot =? 2)%nat then 12 else 0) 1
    (fun _ => 0).

(** A process whose random generator cannot be seeded. *)
Definition seed_fails : init_env :=
  mkinit_env 2 40 (fun _ => true) (fun _ => 0) 0 (fun _ => 0).

Definition fresh_globals : globals := mkglobals None (-1) (-1) false.

(** ** Example certificates *)

Definition text (s : string) : ASN1_STRING :=
  mkASN1_STRING (Z.of_nat (length (bytes_of_string s))) 12 (Some (bytes_of_string s)).

Definition rdn (nid : Z) (arcs : list N) (s : string) : X509_NAME_ENTRY :=
  mkX509_NAME_ENTRY (Some (mkASN1_OBJECT nid arcs)) (Some (text s)).

Definition rdn_CN : string -> X509_NAME_ENTRY := rdn NID_commonName [2; 5; 4; 3]%N.
Definition rdn_OU : string -> X509_NAME_ENTRY := rdn NID_organizationalUnitName [2; 5; 4; 11]%N.
Definition rdn_O : string -> X509_NAME_ENTRY := rdn NID_organizationName [2; 5; 4; 10]%N.
Definition rdn_L : string -> X509_NAME_ENTRY := rdn 15 [2; 5; 4; 7]%N.

(** Subject: OU=Engineering, OU=Sales, L=Paris; no alternative names. *)
Definition two_units_subject : X509_NAME :=
  mkX509_NAME [rdn_OU "Engineering"; rdn_OU "Sales"; rdn_L "Paris"] None.
Definition two_units_cert : X509 :=
  mkX509 (Some two_units_subject) None None None.

(** Subject: OU=Sales only; one rfc822 alternative name. *)
Definition unit_only_subject : X509_NAME :=
  mkX509_NAME [rdn_OU "Sales"] None.
Definition unit_only_cert : X509 :=
  mkX509 (Some unit_only_subject) None
    (Some [GN_rfc822Name (Some (text "sales@example.com"))]) None.

Definition other_name (arcs : list N) (s : string) : GENERAL_NAME :=
  GN_otherName (Some (mkOTHERNAME (Some (mkASN1_OBJECT NID_undef arcs))
                        (Some (mkASN1_TYPE 12 (Some (text s)))))).

(** No subject; alternative names: an other-name under 1.3.6.1.4.1.311.20.2.30,
    then one under the UPN OID. *)
Definition upn_cert : X509 :=
  mkX509 None None
    (Some [other_name [1; 3; 6; 1; 4; 1; 311; 20; 2; 30]%N "decoy@example.com";
           other_name upn_arcs "user@example.com"]) None.

Definition ip_name (bytes : list uchar) : GENERAL_NAME :=
  GN_iPAddress (Some (mkASN1_STRING (Z.of_nat (length bytes)) 4 (Some bytes))).

(** Subject: CN=Gateway, CN=10.0.0.1; alternative names: the IPv6 address
    ::10.0.0.1 (16 bytes) and the IPv4 address 192.0.2.7. *)
Definition gateway_cert : X509 :=
  mkX509 (Some (mkX509_NAME [rdn_CN "Gateway"; rdn_CN "10.0.0.1"] None)) None
    (Some [ip_name [0; 0; 0; 0; 0; 0; 0; 0; 0; 0; 0; 0; 10; 0; 0; 1];
           ip_name [192; 0; 2; 7]]) None.

(** Subject: CN=host.example.com; no alternative names. *)
Definition legacy_dns_cert : X509 :=
  mkX509 (Some (mkX509_NAME [rdn_O "Example"; rdn_CN "host.example.com"] None))
    None None None.

(** Subject: O=Example, CN=first, OU=Sales, CN=last. *)
Definition two_names_subject : X509_NAME :=
  mkX509_NAME [rdn_O "Example"; rdn_CN "first"; rdn_OU "Sales"; rdn_CN "last"] None.
Definition two_names_cert : X509 :=
  mkX509 (Some two_names_subject) None None None.

(** ** Vocabulary of further statements *)

(** The string of the first alternative name that [select] accepts. *)
Definition first_alternative (select : GENERAL_NAME -> option ASN1_STRING)
    (names : option (list GENERAL_NAME)) : option ASN1_STRING :=
  names ≫= fun l => head (omap select l).

(** The value of the attribute with the given NID that the reverse scan of
    a name meets first (the last one in encoded order). *)
Definition last_attribute (nid : Z) (name : option X509_NAME) : option ASN1_STRING :=
  name ≫= fun n => first_with (is_nid nid) (rev (attributes n)).

(** The arguments [CryptoNative_CheckX509IpAddress] refuses. *)
Definition ip_arguments_invalid (x509 : option X509) (addressBytes : option (list uchar))
    (addressBytesLen : Z) (hostname : option (list uchar)) (cchHostname : Z) : Prop :=
  x509 = None \/ (0 < cchHostname /\ hostname = None) \/ cchHostname < 0
  \/ addressBytesLen < 0 \/ addressBytes = None.

(** Subject: CN with the bytes "a", NUL, "b"; no alternative names. *)
Definition nul_name_cert : X509 :=
  mkX509 (Some (mkX509_NAME
                  [mkX509_NAME_ENTRY (Some (mkASN1_OBJECT NID_commonName [2; 5; 4; 3]%N))
                     (Some (mkASN1_STRING 3 12 (Some [97; 0; 98])))] None))
    None None None.

(** Subject CN=subject.example; issuer CN=issuer.example; a DNS subject
    alternative name and a URI issuer alternative name. *)
Definition two_sided_cert : X509 :=
  mkX509 (Some (mkX509_NAME [rdn_CN "subject.example"] None))
    (Some (mkX509_NAME [rdn_CN "issuer.example"] None))
    (Some [GN_dNSName None; GN_dNSName (Some (text "alt.subject.example"))])
    (Some [GN_uniformResourceIdentifier (Some (text "http://issuer.example/"))]).

(** The arguments [CryptoNative_CheckX509Hostname] refuses. *)
Definition host_arguments_invalid (x509 : option X509) (hostname : option (list uchar))
    (cchHostname : Z) : Prop :=
  x509 = None \/ (0 < cchHostname /\ hostname = None) \/ cchHostname < 0.

(** The globals after a failed initialisation that had allocated the lock
    array: the array pointer is null again. *)
Definition without_locks (g : globals) (callback : bool) : globals :=
  mkglobals None (g_x509_ocsp_index g) (g_ssl_sess_cert_index g) callback.

(** The globals after a successful initialisation. *)
Definition initialised_globals (env : init_env) : globals :=
  mkglobals (Some (replicate (Z.to_nat (CRYPTO_num_locks env)) mutex_initialized))
    (CRYPTO_get_ex_new_index env 10) (CRYPTO_get_ex_new_index env 3) true.

(** Every lock of the process initialises. *)
Definition locks_initialise (env : init_env) : Prop :=
  forall slot, (slot < Z.to_nat (CRYPTO_num_locks env))%nat -> pthread_mutex_init env slot = 0.

Definition is_initLock_event (ev : init_event) : bool :=
  match ev with
  | initLock_lock | initLock_unlock => true
  | _ => false
  end.

(** A process with two locks in which everything succeeds. *)
Definition healthy_env : init_env :=
  mkinit_env 2 40 (fun _ => true) (fun _ => 0) 1 (fun class_index => class_index - 3).

(** ** The thumbprint and the public-key parameters *)

(** The library calls of the accessors and of the lookup below. *)
Inductive library_call : Type :=
| ERR_clear_error_called
| X509_digest_called (md_is_null : bool)
| i2d_ASN1_TYPE_called (writes : bool)
| OBJ_txt2obj_called (no_name : Z)
| ASN1_OBJECT_free_called (a : ASN1_OBJECT)
| OBJ_nid2ln_called (nid : Z).

Definition SHA_DIGEST_LENGTH : Z := 20.

Section Thumbprint.

(** The library's [X509_digest(x509, EVP_sha1(), md, NULL)]: its status and
    the buffer [md] afterwards. *)
Variable X509_digest : X509 -> option (list uchar) -> Z * option (list uchar).

(** [CryptoNative_GetX509Thumbprint]: the return code, the caller's buffer
    after the call and the library calls made. *)
Definition CryptoNative_GetX509Thumbprint (x509 : option X509)
    (pBuf : option (list uchar)) (cBuf : Z)
    : Z * option (list uchar) * list library_call :=
  match x509 with
  | None => (0, pBuf, [])
  | Some cert =>
      if cBuf <? SHA_DIGEST_LENGTH then (- SHA_DIGEST_LENGTH, pBuf, [])
      else
        let '(status, md) := X509_digest cert pBuf in
        (if status =? 0 then 0 else 1, md,
         [ERR_clear_error_called; X509_digest_called (is_null pBuf)])
  end.

End Thumbprint.

(** [X509_ALGOR]: the code reads its field [parameter]. *)
Record X509_ALGOR : Type := mkX509_ALGOR {
  algorithm : option ASN1_OBJECT;
  parameter : option ASN1_TYPE
}.

Section PublicKeyParameter.

Variable X509_PUBKEY : Type.

(** The library's [X509_get_X509_PUBKEY]. *)
Variable X509_get_X509_PUBKEY : X509 -> option X509_PUBKEY.

(** The library's [X509_PUBKEY_get0_param(NULL, NULL, NULL, &alg, pubkey)]:
    its status and [alg]. *)
Variable X509_PUBKEY_get0_param : X509_PUBKEY -> Z * option X509_ALGOR.

(** The library's [i2d_ASN1_TYPE(parameter, NULL)]: the length it reports. *)
Variable i2d_ASN1_TYPE_length : ASN1_TYPE -> Z.

(** The library's [i2d_ASN1_TYPE(parameter, &pBuf2)] with [pBuf2 = pBuf]:
    the length it reports and the caller's buffer afterwards. *)
Variable i2d_ASN1_TYPE_into : ASN1_TYPE -> option (list uchar) -> Z * option (list uchar).

(** [CryptoNative_GetX509PublicKeyParameterBytes]: the return code, the
    caller's buffer after the call and the library calls made (the field
    accessors apart). *)
Definition CryptoNative_GetX509PublicKeyParameterBytes (x509 : option X509)
    (pBuf : option (list uchar)) (cBuf : Z)
    : Z * option (list uchar) * list library_call :=
  match x509 with
  | None => (0, pBuf, [ERR_clear_error_called])
  | Some cert =>
      match X509_get_X509_PUBKEY cert with
      | None => (0, pBuf, [ERR_clear_error_called])
      | Some pubkey =>
          let '(status, alg) := X509_PUBKEY_get0_param pubkey in
          if status =? 0 then (0, pBuf, [ERR_clear_error_called])
          else
            match alg with
            | None => (0, pBuf, [ERR_clear_error_called])
            | Some a =>
                match parameter a with
                | None => (2, pBuf, [ERR_clear_error_called])
                | Some param =>
                    let len := i2d_ASN1_TYPE_length param in
                    if cBuf <? len
                    then (neg32 len, pBuf,
                          [ERR_clear_error_called; i2d_ASN1_TYPE_called false])
                    else
                      let '(len', buf) := i2d_ASN1_TYPE_into param pBuf in
                      (if 0 <? len' then 1 else 0, buf,
                       [ERR_clear_error_called; i2d_ASN1_TYPE_called false;
                        i2d_ASN1_TYPE_called true])
                end
            end
      end
  end.

(** The parameter the accessor encodes, when the certificate has one. *)
Definition parameter_of (cert : X509) : option ASN1_TYPE :=
  match X509_get_X509_PUBKEY cert with
  | Some pubkey =>
      let '(status, alg) := X509_PUBKEY_get0_param pubkey in
      if status =? 0 then None else alg ≫= parameter
  | None => None
  end.

End PublicKeyParameter.

(** ** Friendly names *)

Section FriendlyName.

(** The library's [a2d_ASN1_OBJECT(NULL, 0, oidValue, -1)]. *)
Variable a2d_ASN1_OBJECT : list uchar -> Z.

(** The library's [OBJ_txt2obj(s, no_name)]. *)
Variable OBJ_txt2obj : list uchar -> Z -> option ASN1_OBJECT.

(** The library's [OBJ_nid2ln]. *)
Variable OBJ_nid2ln : Z -> option (list uchar).

(** [CryptoNative_LookupFriendlyNameByOid]: the return code, the caller's
    [friendlyName] afterwards ([None] is the [NULL] pointer, [Some v] a
    pointer to a variable that holds [v]) and the library calls made. *)
Definition CryptoNative_LookupFriendlyNameByOid (oidValue : option (list uchar))
    (friendlyName : option (option (list uchar)))
    : Z * option (option (list uchar)) * list library_call :=
  match oidValue, friendlyName with
  | Some text, Some _ =>
      let asnRet := a2d_ASN1_OBJECT text in
      if asnRet <=? 0 then (0, friendlyName, [ERR_clear_error_called])
      else
        match OBJ_txt2obj text 1 with
        | None => (-1, friendlyName, [ERR_clear_error_called; OBJ_txt2obj_called 1])
        | Some oid =>
            let nid := OBJ_obj2nid oid in
            if nid =? NID_undef
            then (0, friendlyName,
                  [ERR_clear_error_called; OBJ_txt2obj_called 1;
                   ASN1_OBJECT_free_called oid])
            else
              match OBJ_nid2ln nid with
              | Some ln =>
                  (1, Some (Some ln),
                   [ERR_clear_error_called; OBJ_txt2obj_called 1;
                    ASN1_OBJECT_free_called oid; OBJ_nid2ln_called nid])
              | None =>
                  (0, friendlyName,
                   [ERR_clear_error_called; OBJ_txt2obj_called 1;
                    ASN1_OBJECT_free_called oid; OBJ_nid2ln_called nid])
              end
        end
  | _, _ => (-2, friendlyName, [ERR_clear_error_called])
  end.

End FriendlyName.

(** The objects a trace frees. *)
Definition freed_objects (t : list library_call) : list ASN1_OBJECT :=
  omap (fun c => match c with ASN1_OBJECT_free_called a => Some a | _ => None end) t.

(** ** The ex-data callbacks *)

Section ExData.

Variable OCSP_RESPONSE : Type.

(** [ExDataFreeOcspResponse]: the responses it frees. *)
Definition ExDataFreeOcspResponse (g : globals) (ptr : option OCSP_RESPONSE) (idx : Z)
    : list OCSP_RESPONSE :=
  match ptr with
  | Some response => if idx =? g_x509_ocsp_index g then [response] else []
  | None => []
  end.

(** [ExDataDupOcspResponse]: the return value and the slot [from_d] points
    to afterwards ([None] is the [NULL] pointer). *)
Definition ExDataDupOcspResponse (g : globals)
    (from_d : option (option OCSP_RESPONSE)) (idx : Z)
    : Z * option (option OCSP_RESPONSE) :=
  match from_d with
  | Some _ => if idx =? g_x509_ocsp_index g then (1, Some None) else (1, from_d)
  | None => (1, from_d)
  end.

(** [ExDataFreeNoOp] and [ExDataDupNoOp]. *)
Definition ExDataFreeNoOp (ptr : option OCSP_RESPONSE) (idx : Z) : list OCSP_RESPONSE := [].

Definition ExDataDupNoOp (from_d : option (option OCSP_RESPONSE)) (idx : Z)
    : Z * option (option OCSP_RESPONSE) :=
  (1, from_d).

End ExData.

(** ** The locking callback *)

Definition CRYPTO_LOCK : Z := 1.

(** What a call of the locking callback does: it locks or unlocks the
    mutex of a slot, found in some state, or it addresses memory outside
    the lock array (a null array, or a slot beyond it). *)
Inductive callback_outcome : Type :=
| pthread_mutex_lock_called (slot : Z) (m : mutex)
| pthread_mutex_unlock_called (slot : Z) (m : mutex)
| outside_lock_array.

(** [LockingCallback(mode, n, file, line)]. *)
Definition LockingCallback (g : globals) (mode n : Z) : callback_outcome :=
  match g_locks g with
  | None => outside_lock_array
  | Some locks =>
      if n <? 0 then outside_lock_array
      else
        match locks !! Z.to_nat n with
        | None => outside_lock_array
        | Some m =>
            if negb (Z.land mode CRYPTO_LOCK =? 0)
            then pthread_mutex_lock_called n m
            else pthread_mutex_unlock_called n m
        end
  end.

(** ** The initialisation entry point *)

Inductive core_event : Type :=
| InitializeMemoryDebug_called
| legacy_event (ev : init_event)
| OPENSSL_init_ssl_called
| atexit_called
| ex_new_index_called (class_index : Z).

(** [EnsureOpenSsl11Initialized]. *)
Definition EnsureOpenSsl11Initialized (env : init_env) (g : globals)
    : Z * globals * list core_event :=
  (0,
   mkglobals (g_locks g) (CRYPTO_get_ex_new_index env 3) (CRYPTO_get_ex_new_index env 2)
     (locking_callback g),
   [OPENSSL_init_ssl_called; atexit_called; ex_new_index_called 3; ex_new_index_called 2]).

(** [EnsureOpenSslInitializedCore]; [legacy] says whether the library is
    OpenSSL 1.0 (the build's version test, or [API_EXISTS(SSL_state)] in a
    portable build).  The assertions are compiled out. *)
Definition EnsureOpenSslInitializedCore (legacy : bool) (env : init_env) (g : globals)
    : Z * globals * list core_event :=
  let '(ret, g', t) :=
    if legacy
    then
      let '(ret, g', t) := EnsureOpenSsl10Initialized env g in
      (ret, g', map legacy_event t)
    else EnsureOpenSsl11Initialized env g in
  (ret, g', InitializeMemoryDebug_called :: t).

(** The process: the once-control [g_initializeShim], [g_initStatus] and
    the globals that initialisation writes. *)
Record process : Type := mkprocess {
  g_initializeShim : bool;
  g_initStatus : Z;
  process_globals : globals
}.

(** The process when the library is loaded. *)
Definition loaded_process : process := mkprocess false 1 fresh_globals.

(** [CryptoNative_EnsureOpenSslInitialized], one call at a time:
    [pthread_once] runs [EnsureOpenSslInitializedOnce] when the control is
    fresh, and not otherwise. *)
Definition CryptoNative_EnsureOpenSslInitialized (legacy : bool) (env : init_env)
    (p : process) : Z * process * list core_event :=
  if g_initializeShim p then (g_initStatus p, p, [])
  else
    let '(ret, g', t) := EnsureOpenSslInitializedCore legacy env (process_globals p) in
    (ret, mkprocess true ret g', t).

(** Calls of the entry point one after the other, the process answering
    as [envs] say: the statuses returned, the process afterwards and the
    calls made. *)
Fixpoint successive_calls (legacy : bool) (envs : list init_env) (p : process)
    : list Z * process * list core_event :=
  match envs with
  | [] => ([], p, [])
  | env :: rest =>
      let '(ret, p1, t1) := CryptoNative_EnsureOpenSslInitialized legacy env p in
      let '(rets, p2, t2) := successive_calls legacy rest p1 in
      (ret :: rets, p2, t1 ++ t2)
  end.

(** ** Vocabulary of the Common-Name fallback *)









(** * Properties *)

(** ** Machine integers *)

Lemma wrap32_id z : is_int32 z -> wrap32 z = z.
Proof.
  unfold is_int32, INT_MIN, INT_MAX, wrap32. intros H.
  rewrite Z.mod_small; lia.
Qed.

Lemma neg32_nonneg z : 0 <= z <= INT_MAX -> neg32 z = - z.
Proof.
  intros H. apply wrap32_id. unfold is_int32, INT_MIN, INT_MAX in *. lia.
Qed.

Lemma to_size_t_id z : 0 <= z <= INT_MAX -> to_size_t z = z.
Proof.
  unfold to_size_t, SIZE_MAX, INT_MAX. intros H. apply Z.mod_small. lia.
Qed.

(** ** The writer of traces *)

Lemma result_bind {A B} (m : M A) (k : A -> M B) :
  result (bind m k) = result (k (result m)).
Proof. unfold result, bind. now destruct (k m.1). Qed.

Lemma trace_bind {A B} (m : M A) (k : A -> M B) :
  trace (bind m k) = trace m ++ trace (k (result m)).
Proof. unfold result, trace, bind. now destruct (k m.1). Qed.

Lemma result_ret {A} (a : A) : result (ret a) = a.
Proof. reflexivity. Qed.

Lemma trace_ret {A} (a : A) : trace (ret a) = [].
Proof. reflexivity. Qed.

Lemma trace_call ev : trace (call ev) = [ev].
Proof. reflexivity. Qed.

Create Rewrite HintDb writer.

#[local] Hint Rewrite @result_bind @trace_bind @result_ret @trace_ret trace_call : writer.

Ltac writer := autorewrite with writer; simpl.

(** ** The buffer-probing convention *)

#[local] Arguments memcpy_s : simpl never.

Lemma memcpy_s_fits (buf data : list uchar) (size : Z) :
  Z.of_nat (length data) <= size ->
  memcpy_s buf size (Some data) (Z.of_nat (length data)) = data ++ drop (length data) buf.
Proof.
  intros Hfit. unfold memcpy_s.
  destruct (0 <? Z.of_nat (length data)) eqn:Hpos; simpl.
  - replace (Z.of_nat (length data) <=? size) with true by (symmetry; lia).
    rewrite Nat2Z.id, firstn_all. reflexivity.
  - assert (length data = 0%nat) as Hlen by lia.
    apply nil_length_inv in Hlen. subst data. reflexivity.
Qed.

(** What the convention promises of an accessor [acc] (a buffer and its
    capacity in, a code and the buffer out) that has [data] to hand out. *)
Definition follows_probe_convention
    (acc : option (list uchar) -> Z -> Z * option (list uchar))
    (data : list uchar) : Prop :=
  let required := Z.of_nat (length data) in
  (forall buf cBuf, required <= cBuf <= INT_MAX ->
     acc (Some buf) cBuf = (1, Some (data ++ drop (length data) buf)))
  /\ (forall pBuf cBuf, cBuf < 0 -> acc pBuf cBuf = (0, pBuf))
  /\ (forall pBuf cBuf, 0 <= cBuf < required ->
        acc pBuf cBuf = (- required, pBuf) /\ - required < 0
        /\ Z.abs (- required) = required)
  /\ (0 < required ->
      forall pBuf, exists code,
        acc pBuf 0 = (code, pBuf) /\ code < 0 /\ Z.abs code = required
        /\ forall buf, Z.of_nat (length buf) = Z.abs code ->
             acc (Some buf) (Z.abs code) = (1, Some data)).

Lemma GetAsn1StringBytes_convention (a : ASN1_STRING) (data : list uchar) :
  asn1_data a = Some data ->
  asn1_length a = Z.of_nat (length data) ->
  asn1_length a <= INT_MAX ->
  follows_probe_convention (CryptoNative_GetAsn1StringBytes (Some a)) data.
Proof.
  intros Hdata Hlen Hmax. unfold follows_probe_convention; cbv zeta.
  assert (Hneg : neg32 (asn1_length a) = - Z.of_nat (length data)).
  { rewrite neg32_nonneg; lia. }
  assert (Hcopy : forall buf cBuf, Z.of_nat (length data) <= cBuf <= INT_MAX ->
            CryptoNative_GetAsn1StringBytes (Some a) (Some buf) cBuf
            = (1, Some (data ++ drop (length data) buf))).
  { intros buf cBuf Hc. unfold CryptoNative_GetAsn1StringBytes, Int32ToSizeT.
    replace (cBuf <? 0) with false by (symmetry; lia).
    replace (asn1_length a <? 0) with false by (symmetry; lia).
    replace (cBuf <? asn1_length a) with false by (symmetry; lia).
    rewrite Hdata, !to_size_t_id, Hlen by lia.
    rewrite memcpy_s_fits by lia. reflexivity. }
  assert (Hsmall : forall pBuf cBuf, 0 <= cBuf < Z.of_nat (length data) ->
            CryptoNative_GetAsn1StringBytes (Some a) pBuf cBuf
            = (- Z.of_nat (length data), pBuf)).
  { intros pBuf cBuf Hc. unfold CryptoNative_GetAsn1StringBytes.
    replace (cBuf <? 0) with false by (symmetry; lia).
    replace (asn1_length a <? 0) with false by (symmetry; lia).
    replace (cBuf <? asn1_length a) with true by (symmetry; lia).
    rewrite Hneg. now destruct pBuf. }
  repeat split.
  - exact Hcopy.
  - intros pBuf cBuf Hc. unfold CryptoNative_GetAsn1StringBytes.
    now replace (cBuf <? 0) with true by (symmetry; lia).
  - now apply Hsmall.
  - lia.
  - lia.
  - intros Hpos pBuf. exists (- Z.of_nat (length data)).
    split; [apply Hsmall; lia|]. split; [lia|]. split; [lia|].
    intros buf Hbuf. rewrite Hcopy by lia.
    rewrite drop_ge by lia. now rewrite app_nil_r.
Qed.

Lemma GetX509NameRawBytes_convention (name : X509_NAME) (data : list uchar) :
  name_der name = Some data ->
  Z.of_nat (length data) <= INT_MAX ->
  follows_probe_convention
    (fun pBuf cBuf => result (CryptoNative_GetX509NameRawBytes (Some name) pBuf cBuf)) data.
Proof.
  intros Hdata Hmax. unfold follows_probe_convention; cbv zeta.
  assert (Hwrap : wrap32 (Z.of_nat (length data)) = Z.of_nat (length data)).
  { apply wrap32_id. unfold is_int32, INT_MIN. lia. }
  assert (Hneg : neg32 (Z.of_nat (length data)) = - Z.of_nat (length data)).
  { rewrite neg32_nonneg; lia. }
  assert (Hcopy : forall buf cBuf, Z.of_nat (length data) <= cBuf <= INT_MAX ->
            result (CryptoNative_GetX509NameRawBytes (Some name) (Some buf) cBuf)
            = (1, Some (data ++ drop (length data) buf))).
  { intros buf cBuf Hc. unfold CryptoNative_GetX509NameRawBytes, X509_NAME_get0_der, Int32ToSizeT.
    writer.
    replace (cBuf <? 0) with false by (symmetry; lia).
    rewrite Hdata, Hwrap.
    replace (INT_MAX <? Z.of_nat (length data)) with false by (symmetry; lia).
    replace (Z.of_nat (length data) <? 0) with false by (symmetry; lia).
    replace (cBuf <? Z.of_nat (length data)) with false by (symmetry; lia).
    rewrite !to_size_t_id by lia.
    rewrite memcpy_s_fits by lia. reflexivity. }
  assert (Hsmall : forall pBuf cBuf, 0 <= cBuf < Z.of_nat (length data) ->
            result (CryptoNative_GetX509NameRawBytes (Some name) pBuf cBuf)
            = (- Z.of_nat (length data), pBuf)).
  { intros pBuf cBuf Hc. unfold CryptoNative_GetX509NameRawBytes, X509_NAME_get0_der.
    writer.
    replace (cBuf <? 0) with false by (symmetry; lia).
    rewrite Hdata, Hwrap.
    replace (INT_MAX <? Z.of_nat (length data)) with false by (symmetry; lia).
    replace (Z.of_nat (length data) <? 0) with false by (symmetry; lia).
    replace (cBuf <? Z.of_nat (length data)) with true by (symmetry; lia).
    rewrite Hneg. now destruct pBuf. }
  repeat split.
  - exact Hcopy.
  - intros pBuf cBuf Hc. unfold CryptoNative_GetX509NameRawBytes. writer.
    now replace (cBuf <? 0) with true by (symmetry; lia).
  - now apply Hsmall.
  - lia.
  - lia.
  - intros Hpos pBuf. exists (- Z.of_nat (length data)).
    split; [apply Hsmall; lia|]. split; [lia|]. split; [lia|].
    intros buf Hbuf. rewrite Hcopy by lia.
    rewrite drop_ge by lia. now rewrite app_nil_r.
Qed.

(** C8.  [CryptoNative_GetAsn1StringBytes] and
    [CryptoNative_GetX509NameRawBytes] follow the buffer-probing
    convention: with data to hand out, they return 1 after copying it to
    the start of a buffer that is large enough, 0 for a negative capacity
    or an invalid pointer, and minus the required capacity for a buffer
    that is too small; when the data is not empty, a probe with capacity 0
    returns a negative code whose magnitude is the length of the data, and
    a retry with a buffer of exactly that capacity returns 1 and leaves
    exactly the data in the buffer. *)
Theorem buffer_probing_convention (a : ASN1_STRING) (name : X509_NAME) (data : list uchar) :
  Z.of_nat (length data) <= INT_MAX ->
  asn1_data a = Some data ->
  asn1_length a = Z.of_nat (length data) ->
  name_der name = Some data ->
  follows_probe_convention (CryptoNative_GetAsn1StringBytes (Some a)) data
  /\ follows_probe_convention
       (fun pBuf cBuf => result (CryptoNative_GetX509NameRawBytes (Some name) pBuf cBuf)) data
  /\ (forall pBuf cBuf,
        CryptoNative_GetAsn1StringBytes None pBuf cBuf = (0, pBuf)
        /\ result (CryptoNative_GetX509NameRawBytes None pBuf cBuf) = (0, pBuf)
        /\ result (CryptoNative_GetX509NameRawBytes
                     (Some (mkX509_NAME (name_entries name) None)) pBuf cBuf) = (0, pBuf)).
Proof.
  intros Hmax Hdata Hlen Hder.
  split; [apply GetAsn1StringBytes_convention; auto; lia|].
  split; [apply GetX509NameRawBytes_convention; auto|].
  intros pBuf cBuf. split; [reflexivity|]. split; [reflexivity|].
  unfold CryptoNative_GetX509NameRawBytes. writer.
  now destruct (cBuf <? 0).
Qed.

Lemma buffer_probing_convention_witness :
  follows_probe_convention
    (CryptoNative_GetAsn1StringBytes (Some (mkASN1_STRING 3 4 (Some [48; 130; 1])))) [48; 130; 1]
  /\ follows_probe_convention
       (fun pBuf cBuf =>
          result (CryptoNative_GetX509NameRawBytes (Some (mkX509_NAME [] (Some [48; 130; 1])))
                    pBuf cBuf)) [48; 130; 1].
Proof.
  pose proof (buffer_probing_convention (mkASN1_STRING 3 4 (Some [48; 130; 1]))
                (mkX509_NAME [] (Some [48; 130; 1])) [48; 130; 1]) as H.
  destruct H as (H1 & H2 & _);
    [unfold INT_MAX; simpl; lia | reflexivity | reflexivity | reflexivity |].
  split; assumption.
Defined.

(** C10.  A probe of [CryptoNative_GetAsn1StringBytes] on a string of
    length zero with a [NULL] buffer returns 0, the negation of the
    required length, which is the code, and the whole outcome, of the call
    on an invalid ([NULL]) string; a negative capacity returns 0 as well. *)
Theorem GetAsn1StringBytes_empty_probe (a : ASN1_STRING) (pBuf : option (list uchar)) (cBuf : Z) :
  (asn1_length a = 0 ->
     CryptoNative_GetAsn1StringBytes (Some a) None cBuf = (0, None)
     /\ neg32 (asn1_length a) = 0
     /\ CryptoNative_GetAsn1StringBytes (Some a) None cBuf
        = CryptoNative_GetAsn1StringBytes None None cBuf)
  /\ (cBuf < 0 ->
      CryptoNative_GetAsn1StringBytes (Some a) pBuf cBuf = (0, pBuf)
      /\ CryptoNative_GetAsn1StringBytes (Some a) pBuf cBuf
         = CryptoNative_GetAsn1StringBytes None pBuf cBuf).
Proof.
  split.
  - intros Hlen. unfold CryptoNative_GetAsn1StringBytes. rewrite Hlen.
    destruct (cBuf <? 0); repeat split; reflexivity.
  - intros Hneg. unfold CryptoNative_GetAsn1StringBytes.
    replace (cBuf <? 0) with true by (symmetry; lia). split; reflexivity.
Qed.

Lemma GetAsn1StringBytes_empty_probe_witness :
  CryptoNative_GetAsn1StringBytes (Some (mkASN1_STRING 0 12 (Some []))) None 0 = (0, None)
  /\ CryptoNative_GetAsn1StringBytes (Some (mkASN1_STRING 0 12 (Some []))) (Some [7; 7]) (-1)
     = (0, Some [7; 7]).
Proof.
  pose proof (GetAsn1StringBytes_empty_probe (mkASN1_STRING 0 12 (Some [])) None 0) as [H _].
  pose proof (GetAsn1StringBytes_empty_probe (mkASN1_STRING 0 12 (Some [])) (Some [7; 7]) (-1))
    as [_ H'].
  split; [apply H; reflexivity | apply H'; lia].
Defined.

(** ** The Simple phase of the name resolver *)

Lemma first_with_app p l1 l2 :
  first_with p (l1 ++ l2) = or_else (first_with p l1) (first_with p l2).
Proof.
  induction l1 as [|[nid str] l1 IH]; simpl; [reflexivity|].
  destruct (p nid); [reflexivity|exact IH].
Qed.

Lemma simple_scan_loop_list name k st :
  (k <= length (name_entries name))%nat ->
  simple_scan_loop name k st = simple_scan_list (rev (take k (name_entries name))) st.
Proof.
  revert st. induction k as [|i IH]; intros st Hk; [now rewrite take_0|].
  destruct (lookup_lt_is_Some_2 (name_entries name) i) as [en Hen]; [lia|].
  rewrite (take_S_r _ _ _ Hen), rev_app_distr. simpl.
  unfold X509_NAME_get_entry, attribute. rewrite Hen.
  destruct (X509_NAME_ENTRY_get_object en) as [oid|];
    destruct (X509_NAME_ENTRY_get_data en) as [s|]; try (apply IH; lia).
  repeat case_match; try reflexivity; apply IH; lia.
Qed.

Lemma omap_attribute_cons en l :
  omap attribute (en :: l)
  = match attribute en with
    | Some a => a :: omap attribute l
    | None => omap attribute l
    end.
Proof. reflexivity. Qed.

Lemma first_with_snoc p l nid str :
  first_with p (l ++ [(nid, str)])
  = or_else (first_with p l) (if p nid then Some str else None).
Proof. rewrite first_with_app. reflexivity. Qed.

Ltac scan_step IH st' Hcn :=
  let H1 := fresh "H1" in
  let H2 := fresh "H2" in
  let Hno := fresh "Hno" in
  destruct (IH st' Hcn) as [H1 H2]; cbn [cn ou o e firstRdn] in H1, H2;
  split; [exact H1|];
  intros Hno; destruct (H2 Hno) as (-> & -> & -> & ->);
  repeat split;
  repeat match goal with
         | |- context [first_with ?p (rev ?l)] => destruct (first_with p (rev l))
         end;
  try reflexivity.

(** What the scan leaves in its locals, in terms of the attributes it
    visits (in visiting order). *)
Lemma simple_scan_list_spec l st :
  let seen := omap attribute l in
  cn st = None ->
  cn (simple_scan_list l st) = first_with (is_nid NID_commonName) seen
  /\ (first_with (is_nid NID_commonName) seen = None ->
      ou (simple_scan_list l st)
        = or_else (first_with (is_nid NID_organizationalUnitName) (rev seen)) (ou st)
      /\ o (simple_scan_list l st)
        = or_else (first_with (is_nid NID_organizationName) (rev seen)) (o st)
      /\ e (simple_scan_list l st)
        = or_else (first_with (is_nid NID_pkcs9_emailAddress) (rev seen)) (e st)
      /\ firstRdn (simple_scan_list l st)
        = or_else (firstRdn st) (first_with unrecognized seen)).
Proof.
  cbv zeta. revert st. induction l as [|en l IH]; intros st Hcn.
  - simpl. rewrite Hcn. repeat split; try reflexivity. now destruct (firstRdn st).
  - rewrite omap_attribute_cons. cbn [simple_scan_list].
    destruct (attribute en) as [[nid s]|]; [|apply IH; assumption].
    remember (omap attribute l) as seen eqn:Hseen.
    cbn [rev first_with]. rewrite !first_with_snoc.
    unfold unrecognized, recognized.
    repeat match goal with
           | |- context [is_nid ?w nid] => change (is_nid w nid) with (nid =? w)
           end.
    destruct (nid =? NID_commonName) eqn:E1;
      [split; [reflexivity|discriminate]|].
    destruct (nid =? NID_organizationalUnitName) eqn:E2.
    { apply Z.eqb_eq in E2. subst nid.
      scan_step IH (mksimple_scan (cn st) (Some s) (o st) (e st) (firstRdn st)) Hcn. }
    destruct (nid =? NID_organizationName) eqn:E3.
    { apply Z.eqb_eq in E3. subst nid.
      scan_step IH (mksimple_scan (cn st) (ou st) (Some s) (e st) (firstRdn st)) Hcn. }
    destruct (nid =? NID_pkcs9_emailAddress) eqn:E4.
    { apply Z.eqb_eq in E4. subst nid.
      scan_step IH (mksimple_scan (cn st) (ou st) (o st) (Some s) (firstRdn st)) Hcn. }
    cbn [orb negb].
    destruct (firstRdn st) as [f|] eqn:Ef.
    + scan_step IH st Hcn; rewrite Ef; reflexivity.
    + scan_step IH (mksimple_scan (cn st) (ou st) (o st) (e st) (Some s)) Hcn;
        rewrite Ef; reflexivity.
Qed.

Lemma omap_attribute_app l1 l2 :
  omap attribute (l1 ++ l2) = omap attribute l1 ++ omap attribute l2.
Proof.
  induction l1 as [|en l1 IH]; [reflexivity|].
  rewrite <- app_comm_cons, !omap_attribute_cons, IH.
  now destruct (attribute en).
Qed.

Lemma omap_attribute_rev l :
  omap attribute (rev l) = rev (omap attribute l).
Proof.
  induction l as [|en l IH]; [reflexivity|].
  cbn [rev]. rewrite omap_attribute_app, IH, !omap_attribute_cons.
  destruct (attribute en); simpl; [reflexivity|now rewrite app_nil_r].
Qed.

Lemma or_else_None {A} (a : option A) : or_else a None = a.
Proof. now destruct a. Qed.

(** The locals after the whole Simple scan of a name. *)
Lemma simple_scan_loop_spec name :
  let st := simple_scan_loop name (X509_NAME_entry_count name) simple_scan_init in
  let encoded := attributes name in
  cn st = first_with (is_nid NID_commonName) (rev encoded)
  /\ (first_with (is_nid NID_commonName) (rev encoded) = None ->
      ou st = first_with (is_nid NID_organizationalUnitName) encoded
      /\ o st = first_with (is_nid NID_organizationName) encoded
      /\ e st = first_with (is_nid NID_pkcs9_emailAddress) encoded
      /\ firstRdn st = first_with unrecognized (rev encoded)).
Proof.
  cbv zeta. unfold X509_NAME_entry_count, attributes.
  rewrite simple_scan_loop_list, firstn_all by reflexivity.
  destruct (simple_scan_list_spec (rev (name_entries name)) simple_scan_init eq_refl)
    as [Hcn Hrest].
  rewrite omap_attribute_rev in Hcn, Hrest. rewrite rev_involutive in Hrest.
  split; [exact Hcn|]. intros Hno.
  destruct (Hrest Hno) as (Hou & Ho & He & Hf).
  cbn [simple_scan_init ou o e firstRdn or_else] in Hou, Ho, He, Hf.
  rewrite or_else_None in Hou, Ho, He. auto.
Qed.

Lemma simple_answer_amended name :
  simple_answer (simple_scan_loop name (X509_NAME_entry_count name) simple_scan_init)
  = amended_simple_answer name.
Proof.
  destruct (simple_scan_loop_spec name) as [Hcn Hrest].
  unfold simple_answer, amended_simple_answer. cbv zeta.
  rewrite Hcn.
  destruct (first_with (is_nid NID_commonName) (rev (attributes name))) as [c|];
    [reflexivity|].
  destruct (Hrest eq_refl) as (-> & -> & -> & ->).
  destruct (first_with unrecognized (rev (attributes name))); [|reflexivity].
  now repeat match goal with
             | |- context [first_with ?p (attributes name)] =>
                 destruct (first_with p (attributes name))
             end.
Qed.

Lemma simple_name_amended localOid cert forIssuer name answer :
  chosen_name cert forIssuer = Some name ->
  amended_simple_answer name = Some answer ->
  CryptoNative_GetX509NameInfo localOid (Some cert) NAME_TYPE_SIMPLE forIssuer
  = (Some (BIO_new_printed answer ASN1_STRFLGS_UTF8_CONVERT), [ERR_clear_error]).
Proof.
  intros Hname Hanswer.
  unfold CryptoNative_GetX509NameInfo, simple_phase.
  change (NAME_TYPE_SIMPLE =? NAME_TYPE_SIMPLE) with true.
  rewrite Hname, simple_answer_amended, Hanswer. reflexivity.
Qed.

(** C1, as amended.  In Simple mode the chosen name is scanned in reverse
    entry order; a Common Name seen in that scan is returned at once.
    Without a Common Name, and when the scan saw an unrecognized attribute,
    the answer is the OrganizationalUnit that comes first in encoded order
    (the last one the scan saw), else such an Organization, else such an
    Email, else the unrecognized attribute the scan saw first.  In both
    cases the answer is printed with the UTF-8 conversion flag and the call
    makes no other library call than clearing the error queue: it does not
    reach the alternative-name phase.  In particular a subject without
    Common Name, with an OrganizationalUnit and an unrecognized attribute,
    yields its first-encoded OrganizationalUnit. *)
Theorem simple_name_resolution (localOid : list uchar) (cert : X509) (forIssuer : Z)
    (name : X509_NAME) (answer : ASN1_STRING) :
  chosen_name cert forIssuer = Some name ->
  let run := CryptoNative_GetX509NameInfo localOid (Some cert) NAME_TYPE_SIMPLE forIssuer in
  let returned := (Some (BIO_new_printed answer ASN1_STRFLGS_UTF8_CONVERT), [ERR_clear_error]) in
  (amended_simple_answer name = Some answer -> run = returned)
  /\ (first_with (is_nid NID_commonName) (rev (attributes name)) = Some answer ->
      run = returned)
  /\ (first_with (is_nid NID_commonName) (rev (attributes name)) = None ->
      is_Some (first_with unrecognized (rev (attributes name))) ->
      first_with (is_nid NID_organizationalUnitName) (attributes name) = Some answer ->
      run = returned).
Proof.
  intros Hname run returned. subst run returned. split; [|split].
  - now apply (simple_name_amended localOid cert forIssuer name).
  - intros Hcn. apply (simple_name_amended localOid cert forIssuer name); [assumption|].
    unfold amended_simple_answer. cbv zeta. now rewrite Hcn.
  - intros Hcn [other Hother] Hou.
    apply (simple_name_amended localOid cert forIssuer name); [assumption|].
    unfold amended_simple_answer. cbv zeta. now rewrite Hcn, Hother, Hou.
Qed.

Lemma simple_name_resolution_witness :
  CryptoNative_GetX509NameInfo [] (Some two_units_cert) NAME_TYPE_SIMPLE 0
  = (Some (BIO_new_printed (text "Engineering") ASN1_STRFLGS_UTF8_CONVERT), [ERR_clear_error])
  /\ CryptoNative_GetX509NameInfo [] (Some two_names_cert) NAME_TYPE_SIMPLE 0
     = (Some (BIO_new_printed (text "last") ASN1_STRFLGS_UTF8_CONVERT), [ERR_clear_error]).
Proof.
  split.
  - refine (proj2 (proj2
      (simple_name_resolution [] two_units_cert 0 two_units_subject (text "Engineering")
         eq_refl)) eq_refl _ eq_refl).
    exists (text "Paris"). reflexivity.
  - exact (proj1 (proj2
      (simple_name_resolution [] two_names_cert 0 two_names_subject (text "last") eq_refl))
      eq_refl).
Defined.

(** C1, as stated, fails on two inputs.  With subject OU=Engineering,
    OU=Sales, L=Paris the reverse scan sees OU=Sales first, yet the answer
    is Engineering.  With subject OU=Sales alone the name has an entry and
    no Common Name, yet the Simple phase answers nothing: the call goes on
    to decode the alternative names and returns the rfc822 name found
    there. *)
Lemma simple_name_resolution_counterexample :
  (spec_simple_answer two_units_subject = Some (text "Sales")
   /\ result (CryptoNative_GetX509NameInfo [] (Some two_units_cert) NAME_TYPE_SIMPLE 0)
      = Some (BIO_new_printed (text "Engineering") ASN1_STRFLGS_UTF8_CONVERT)
   /\ text "Engineering" <> text "Sales")
  /\ (spec_simple_answer unit_only_subject = Some (text "Sales")
      /\ first_with (is_nid NID_commonName) (attributes unit_only_subject) = None
      /\ first_with (is_nid NID_organizationalUnitName) (attributes unit_only_subject)
         = Some (text "Sales")
      /\ CryptoNative_GetX509NameInfo [] (Some unit_only_cert) NAME_TYPE_SIMPLE 0
         = (Some (BIO_new_printed (text "sales@example.com") ASN1_STRFLGS_UTF8_CONVERT),
            [ERR_clear_error; GENERAL_NAMES_decoded NID_subject_alt_name; GENERAL_NAMES_free])
      /\ text "sales@example.com" <> text "Sales").
Proof.
  repeat split; try reflexivity; discriminate.
Qed.

(** ** The UPN test *)

Lemma strncmp_same_terminated (b r r' : list uchar) n :
  strncmp (b ++ 0 :: r) (b ++ 0 :: r') n = 0.
Proof.
  revert n. induction b as [|c b IH]; intros [|n]; simpl; try reflexivity.
  rewrite Z.eqb_refl. destruct (c =? 0); [reflexivity|apply IH].
Qed.

Lemma strncmp_zero_prefix (b a r r' : list uchar) (k : nat) :
  Forall (fun c => c <> 0) b ->
  length a = length b ->
  strncmp (a ++ r) (b ++ r') (length b + k) = 0 ->
  a = b.
Proof.
  intros Hnz. revert a. induction Hnz as [|c b Hc Hb IH]; intros a Hlen Hcmp.
  - now destruct a.
  - destruct a as [|x a]; [discriminate|]. simpl in Hlen, Hcmp.
    destruct (x =? c) eqn:Hx; [|apply Z.eqb_neq in Hx; lia].
    apply Z.eqb_eq in Hx. subst x.
    destruct (c =? 0) eqn:Hz; [apply Z.eqb_eq in Hz; contradiction|].
    f_equal. apply IH; [lia|assumption].
Qed.

Lemma upn_text_nonzero : Forall (fun c => c <> 0) upn_text.
Proof. vm_compute. repeat constructor; discriminate. Qed.

(** The test succeeds exactly on the text of the UPN OID, whatever the
    local array held before. *)
Lemma is_upn_oid_iff localOid type_id :
  oid_fits_int type_id ->
  is_upn_oid localOid type_id = true <-> oid_text type_id = upn_text.
Proof.
  unfold oid_fits_int, is_upn_oid, OBJ_obj2txt. intros Hfit.
  change sizeof_szOidUpn with 23. change (23 + 3 - 1) with 25.
  change (Z.to_nat 23) with (length upn_text + 1)%nat.
  destruct type_id as [oid|]; cbn [oid_text] in *.
  2:{ change (23 =? add32 1 0) with false. cbn [andb]. split; discriminate. }
  set (txt := dotted (obj_arcs oid)) in *.
  assert (Hadd : add32 1 (Z.of_nat (length txt)) = 1 + Z.of_nat (length txt)).
  { apply wrap32_id. unfold is_int32, INT_MIN, INT_MAX in *. lia. }
  rewrite Hadd. unfold store, szOidUpn. rewrite <- app_assoc.
  change ([0] ++ ?r) with (0 :: r).
  change (bytes_of_string "1.3.6.1.4.1.311.20.2.3") with upn_text.
  split.
  - intros H. apply andb_true_iff in H as [Hlen Hcmp].
    apply Z.eqb_eq in Hlen. apply Z.eqb_eq in Hcmp. symmetry in Hcmp.
    assert (Htake : take (Z.to_nat 25) txt = txt) by (apply firstn_all2; lia).
    rewrite Htake in Hcmp.
    refine (strncmp_zero_prefix upn_text txt _ _ 1 upn_text_nonzero _ Hcmp).
    change (length upn_text) with 22%nat. lia.
  - intros Htxt. rewrite Htxt.
    change (take (Z.to_nat 25) upn_text) with upn_text.
    rewrite strncmp_same_terminated.
    change (length upn_text) with 22%nat. reflexivity.
Qed.

Lemma dotted_extension_longer (arcs more : list N) :
  arcs <> [] -> more <> [] ->
  (length (dotted arcs) < length (dotted (arcs ++ more)))%nat.
Proof.
  intros Harcs Hmore. induction arcs as [|x arcs IH]; [contradiction|].
  destruct arcs as [|y arcs].
  - destruct more as [|z more]; [contradiction|].
    simpl. rewrite length_app. simpl. lia.
  - specialize (IH ltac:(discriminate)).
    change (dotted (x :: y :: arcs)) with (decimal x ++ 46 :: dotted (y :: arcs)).
    change (dotted ((x :: y :: arcs) ++ more))
      with (decimal x ++ 46 :: dotted ((y :: arcs) ++ more)).
    rewrite !length_app. simpl in *. lia.
Qed.

Lemma dotted_strict_prefix_of_upn (arcs more : list N) :
  upn_arcs = arcs ++ more -> more <> [] -> dotted arcs <> upn_text.
Proof.
  intros Hsplit Hmore.
  assert (Hk : arcs = take (length arcs) upn_arcs).
  { rewrite Hsplit. now rewrite take_app_length. }
  assert (Hlt : (length arcs < 10)%nat).
  { apply (f_equal length) in Hsplit. rewrite length_app in Hsplit.
    change (length upn_arcs) with 10%nat in Hsplit.
    destruct more; [contradiction|]. simpl in Hsplit. lia. }
  rewrite Hk. clear Hk Hsplit.
  destruct (length arcs) as [|[|[|[|[|[|[|[|[|[|k]]]]]]]]]];
    try (vm_compute; discriminate).
  lia.
Qed.

(** ** The alternative-name phase *)

Lemma omap_cons_match {A B} (f : A -> option B) (x : A) (l : list A) :
  omap f (x :: l)
  = match f x with
    | Some y => y :: omap f l
    | None => omap f l
    end.
Proof. reflexivity. Qed.

Lemma alt_name_loop_head localOid nameType (names : GENERAL_NAMES) remaining i :
  (remaining + i = length names)%nat ->
  alt_name_loop localOid nameType names remaining i
  = head (omap (alt_name_pick localOid nameType) (drop i names)).
Proof.
  revert i. induction remaining as [|r IH]; intros i Hlen; simpl.
  - rewrite drop_ge by lia. reflexivity.
  - destruct (lookup_lt_is_Some_2 names i) as [g Hg]; [lia|].
    unfold alt_name_entry, sk_GENERAL_NAME_value. rewrite Hg.
    rewrite (drop_S _ _ _ Hg), omap_cons_match.
    fold (alt_name_pick localOid nameType g).
    destruct (alt_name_pick localOid nameType g); [reflexivity|].
    apply IH. lia.
Qed.

Lemma valid_name_type_cases nameType :
  (nameType <? NAME_TYPE_SIMPLE) || (NAME_TYPE_URL <? nameType) = false ->
  nameType = NAME_TYPE_SIMPLE \/ nameType = NAME_TYPE_EMAIL \/ nameType = NAME_TYPE_UPN
  \/ nameType = NAME_TYPE_DNS \/ nameType = NAME_TYPE_DNSALT \/ nameType = NAME_TYPE_URL.
Proof.
  unfold NAME_TYPE_SIMPLE, NAME_TYPE_EMAIL, NAME_TYPE_UPN, NAME_TYPE_DNS, NAME_TYPE_DNSALT,
    NAME_TYPE_URL. intros H. apply orb_false_iff in H as [H1 H2]. lia.
Qed.

(** The phase as a whole: its result and its trace. *)
Lemma alt_name_phase_spec localOid x509 nameType forIssuer :
  (nameType <? NAME_TYPE_SIMPLE) || (NAME_TYPE_URL <? nameType) = false ->
  alt_name_phase localOid x509 nameType forIssuer
  = match alt_names_of x509 forIssuer with
    | Some names =>
        (utf8_bio <$> head (omap (alt_name_pick localOid nameType) names),
         [GENERAL_NAMES_decoded
            (if forIssuer =? 0 then NID_subject_alt_name else NID_issuer_alt_name);
          GENERAL_NAMES_free])
    | None => (None, [])
    end.
Proof.
  intros Hvalid. unfold alt_name_phase, alt_names_of.
  assert (Hcond : (nameType =? NAME_TYPE_SIMPLE) || (nameType =? NAME_TYPE_DNS)
                  || (nameType =? NAME_TYPE_DNSALT) || (nameType =? NAME_TYPE_EMAIL)
                  || (nameType =? NAME_TYPE_UPN) || (nameType =? NAME_TYPE_URL) = true).
  { destruct (valid_name_type_cases nameType Hvalid) as [->|[->|[->|[->|[->| ->]]]]];
      reflexivity. }
  rewrite Hcond.
  destruct (X509_get_ext_d2i x509 _) as [names|]; [|reflexivity].
  rewrite alt_name_loop_head by (unfold sk_GENERAL_NAME_num; lia).
  rewrite drop_0.
  now destruct (head (omap (alt_name_pick localOid nameType) names)).
Qed.

Lemma upn_pick_entry localOid (g : GENERAL_NAME) :
  oid_fits_int (sub_oid g) ->
  alt_name_pick localOid NAME_TYPE_UPN g = upn_entry g.
Proof.
  intros Hfit. unfold alt_name_pick, alt_name_string, upn_string, upn_entry.
  destruct g as [[value|]| | | | | | | |]; try reflexivity.
  simpl in Hfit |- *.
  pose proof (is_upn_oid_iff localOid (type_id value) Hfit) as Hiff.
  destruct (is_upn_oid localOid (type_id value)); case_decide as Htext.
  - now destruct (othername_value value).
  - exfalso. apply Htext. now apply Hiff.
  - apply Hiff in Htext. discriminate.
  - reflexivity.
Qed.

Lemma omap_upn_pick localOid (names : GENERAL_NAMES) :
  Forall (fun g => oid_fits_int (sub_oid g)) names ->
  omap (alt_name_pick localOid NAME_TYPE_UPN) names = omap upn_entry names.
Proof.
  induction 1 as [|g names Hg _ IH]; [reflexivity|].
  rewrite !omap_cons_match, (upn_pick_entry localOid g Hg), IH. reflexivity.
Qed.

(** C2.  In UserPrincipalName mode an other-name entry is taken exactly
    when the text of its sub-OID is 1.3.6.1.4.1.311.20.2.3, whatever the
    local array held: the OID 1.3.6.1.4.1.311.20.2.30, and every strict
    prefix and every strict extension of the UPN OID, fail the test.  The
    call returns the string of the first entry that passes it (printed with
    UTF-8 conversion); the other entries contribute nothing. *)
Theorem upn_exact_oid_match (localOid : list uchar) :
  (forall type_id, oid_fits_int type_id ->
     is_upn_oid localOid type_id = true <-> oid_text type_id = upn_text)
  /\ (forall nid,
        is_upn_oid localOid (Some (mkASN1_OBJECT nid [1; 3; 6; 1; 4; 1; 311; 20; 2; 30]%N))
        = false)
  /\ (forall nid arcs more,
        more <> [] ->
        upn_arcs = arcs ++ more \/ arcs = upn_arcs ++ more ->
        oid_fits_int (Some (mkASN1_OBJECT nid arcs)) ->
        is_upn_oid localOid (Some (mkASN1_OBJECT nid arcs)) = false)
  /\ (forall x509 forIssuer names,
        alt_names_of x509 forIssuer = Some names ->
        Forall (fun g => oid_fits_int (sub_oid g)) names ->
        result (CryptoNative_GetX509NameInfo localOid (Some x509) NAME_TYPE_UPN forIssuer)
        = utf8_bio <$> head (omap upn_entry names)).
Proof.
  split; [|split; [|split]].
  - intros type_id Hfit. now apply is_upn_oid_iff.
  - intros nid. apply not_true_is_false. intros H.
    apply is_upn_oid_iff in H; [discriminate H|].
    unfold oid_fits_int, INT_MAX. simpl. vm_compute. reflexivity.
  - intros nid arcs more Hmore Hcase Hfit. apply not_true_is_false. intros H.
    apply is_upn_oid_iff in H; [|assumption]. simpl in H.
    destruct Hcase as [Hprefix| ->].
    + now apply (dotted_strict_prefix_of_upn arcs more).
    + pose proof (dotted_extension_longer upn_arcs more ltac:(discriminate) Hmore) as Hlen.
      rewrite H in Hlen. vm_compute in Hlen. lia.
  - intros x509 forIssuer names Hnames Hfit.
    unfold CryptoNative_GetX509NameInfo. writer.
    change (simple_phase x509 NAME_TYPE_UPN forIssuer) with (@None BIO).
    change (legacy_phase x509 NAME_TYPE_UPN forIssuer) with (@None BIO).
    writer. rewrite alt_name_phase_spec, Hnames by reflexivity.
    rewrite omap_upn_pick by assumption. unfold result. simpl.
    now destruct (head (omap upn_entry names)).
Qed.

Lemma upn_exact_oid_match_witness :
  result (CryptoNative_GetX509NameInfo (replicate 26 255) (Some upn_cert) NAME_TYPE_UPN 0)
  = Some (utf8_bio (text "user@example.com")).
Proof.
  refine (proj2 (proj2 (proj2 (upn_exact_oid_match (replicate 26 255))))
            upn_cert 0 _ eq_refl _).
  repeat constructor; unfold oid_fits_int, INT_MAX; vm_compute; reflexivity.
Defined.

(** ** The legacy phase and the resolver as a whole *)

Lemma legacy_loop_list name nid k :
  (k <= length (name_entries name))%nat ->
  legacy_loop name nid k
  = raw_bio <$> first_with (is_nid nid) (omap attribute (rev (take k (name_entries name)))).
Proof.
  induction k as [|i IH]; intros Hk; [now rewrite take_0|].
  destruct (lookup_lt_is_Some_2 (name_entries name) i) as [en Hen]; [lia|].
  rewrite (take_S_r _ _ _ Hen), rev_app_distr. cbn [rev app legacy_loop].
  rewrite omap_attribute_cons.
  unfold X509_NAME_get_entry, attribute. rewrite Hen.
  destruct (X509_NAME_ENTRY_get_object en) as [oid|];
    destruct (X509_NAME_ENTRY_get_data en) as [s|]; try (apply IH; lia).
  cbn [first_with]. unfold is_nid at 1.
  destruct (OBJ_obj2nid oid =? nid); [reflexivity|apply IH; lia].
Qed.

Lemma simple_phase_spec x509 nameType forIssuer :
  simple_phase x509 nameType forIssuer = utf8_bio <$> simple_part x509 nameType forIssuer.
Proof.
  unfold simple_phase, simple_part.
  destruct (nameType =? NAME_TYPE_SIMPLE); [|reflexivity].
  destruct (chosen_name x509 forIssuer) as [name|]; [|reflexivity].
  simpl. rewrite simple_answer_amended.
  now destruct (amended_simple_answer name).
Qed.

Lemma legacy_phase_spec x509 nameType forIssuer :
  legacy_phase x509 nameType forIssuer = raw_bio <$> legacy_part x509 nameType forIssuer.
Proof.
  unfold legacy_phase, legacy_part.
  destruct ((nameType =? NAME_TYPE_EMAIL) || (nameType =? NAME_TYPE_DNS)); [|reflexivity].
  destruct (chosen_name x509 forIssuer) as [name|]; [|reflexivity].
  simpl. unfold X509_NAME_entry_count, attributes.
  rewrite legacy_loop_list, firstn_all, omap_attribute_rev by reflexivity.
  reflexivity.
Qed.

(** C9.  For every certificate and query, the answer of the resolver is
    the string of the Simple scan or else the string of the
    alternative-name scan, each printed with [ASN1_STRFLGS_UTF8_CONVERT],
    or else the string of the legacy single-attribute fallback (Email and
    Dns modes only), printed with flags 0. *)
Theorem rendering_flags (localOid : list uchar) (x509 : X509) (nameType forIssuer : Z) :
  result (CryptoNative_GetX509NameInfo localOid (Some x509) nameType forIssuer)
  = if (nameType <? NAME_TYPE_SIMPLE) || (NAME_TYPE_URL <? nameType) then None
    else
      or_else ((fun str => BIO_new_printed str ASN1_STRFLGS_UTF8_CONVERT)
                 <$> simple_part x509 nameType forIssuer)
        (or_else ((fun str => BIO_new_printed str ASN1_STRFLGS_UTF8_CONVERT)
                    <$> alternative_part localOid x509 nameType forIssuer)
           ((fun str => BIO_new_printed str 0) <$> legacy_part x509 nameType forIssuer)).
Proof.
  unfold CryptoNative_GetX509NameInfo. writer.
  destruct ((nameType <? NAME_TYPE_SIMPLE) || (NAME_TYPE_URL <? nameType)) eqn:Hvalid;
    [reflexivity|].
  rewrite simple_phase_spec.
  destruct (simple_part x509 nameType forIssuer) as [str|]; [reflexivity|].
  simpl. writer. rewrite alt_name_phase_spec by assumption.
  unfold alternative_part.
  destruct (alt_names_of x509 forIssuer) as [names|]; simpl.
  - destruct (head (omap (alt_name_pick localOid nameType) names)); simpl;
      [reflexivity|apply legacy_phase_spec].
  - apply legacy_phase_spec.
Qed.

(** ** The hostname matcher *)

(** C4, as amended.  For every certificate and every hostname of positive
    length whose first character is a dot, [CryptoNative_CheckX509Hostname]
    returns 0 and, after clearing the error queue, makes no call: the
    library's host check is not invoked.  For every other valid hostname,
    a length of 0 included whatever the buffer then holds, it returns what
    [X509_check_host] returns on the same certificate, name and length with
    the flags [X509_CHECK_FLAG_NO_PARTIAL_WILDCARDS], calling it once.  So
    on valid arguments the host check is left out exactly for a positive
    length and a leading dot. *)
Theorem hostname_leading_dot (X509_check_host : X509 -> option (list uchar) -> Z -> Z -> Z)
    (x509 : X509) (hostname : option (list uchar)) (cchHostname : Z) :
  let run := CryptoNative_CheckX509Hostname X509_check_host (Some x509) hostname cchHostname in
  let delegated :=
    (X509_check_host x509 hostname (to_size_t cchHostname)
       X509_CHECK_FLAG_NO_PARTIAL_WILDCARDS,
     [ERR_clear_error;
      X509_check_host_called hostname (to_size_t cchHostname)
        X509_CHECK_FLAG_NO_PARTIAL_WILDCARDS]) in
  (0 < cchHostname -> is_Some hostname -> first_char hostname = 46 ->
   run = (0, [ERR_clear_error]))
  /\ (0 <= cchHostname ->
      (0 < cchHostname -> is_Some hostname /\ first_char hostname <> 46) ->
      run = delegated)
  /\ (cchHostname = 0 -> run = delegated)
  /\ (0 <= cchHostname -> (0 < cchHostname -> is_Some hostname) ->
      (run = (0, [ERR_clear_error]) <-> 0 < cchHostname /\ first_char hostname = 46)
      /\ (run = delegated <-> ~ (0 < cchHostname /\ first_char hostname = 46))).
Proof.
  cbv zeta.
  assert (Hdot : 0 < cchHostname -> is_Some hostname -> first_char hostname = 46 ->
            CryptoNative_CheckX509Hostname X509_check_host (Some x509) hostname cchHostname
            = (0, [ERR_clear_error])).
  { intros Hpos [h ->] Hfirst. unfold CryptoNative_CheckX509Hostname.
    replace (0 <? cchHostname) with true by (symmetry; lia).
    replace (cchHostname <? 0) with false by (symmetry; lia).
    rewrite Hfirst. reflexivity. }
  assert (Hother : 0 <= cchHostname ->
            (0 < cchHostname -> is_Some hostname /\ first_char hostname <> 46) ->
            CryptoNative_CheckX509Hostname X509_check_host (Some x509) hostname cchHostname
            = (X509_check_host x509 hostname (to_size_t cchHostname)
                 X509_CHECK_FLAG_NO_PARTIAL_WILDCARDS,
               [ERR_clear_error;
                X509_check_host_called hostname (to_size_t cchHostname)
                  X509_CHECK_FLAG_NO_PARTIAL_WILDCARDS])).
  { intros Hnonneg Hvalid. unfold CryptoNative_CheckX509Hostname.
    replace (cchHostname <? 0) with false by (symmetry; lia).
    destruct (0 <? cchHostname) eqn:Hpos; [|reflexivity].
    destruct Hvalid as [[h ->] Hfirst]; [lia|].
    replace (first_char (Some h) =? 46) with false by (symmetry; lia).
    reflexivity. }
  split; [exact Hdot|]. split; [exact Hother|]. split.
  { intros ->. apply Hother; lia. }
  intros Hnonneg Hvalid.
  destruct (Z_lt_dec 0 cchHostname) as [Hpos|Hzero].
  - destruct (Z.eq_dec (first_char hostname) 46) as [Hfirst|Hfirst].
    + rewrite (Hdot Hpos (Hvalid Hpos) Hfirst). split.
      * split; [intros _; now split|reflexivity].
      * split; [discriminate|]. intros Hnot. exfalso. apply Hnot. now split.
    + rewrite Hother by first [lia|intros _; split; [now apply Hvalid|assumption]]. split.
      * split; [discriminate|intros [_ ?]; contradiction].
      * split; [intros _ [_ ?]; contradiction|reflexivity].
  - rewrite Hother by lia. split.
    + split; [discriminate|intros [? _]; contradiction].
    + split; [intros _ [? _]; contradiction|reflexivity].
Qed.

Lemma hostname_leading_dot_witness :
  CryptoNative_CheckX509Hostname (fun _ _ _ _ => 1) (Some gateway_cert)
    (Some (bytes_of_string ".example.com")) 12 = (0, [ERR_clear_error])
  /\ CryptoNative_CheckX509Hostname (fun _ _ _ _ => 1) (Some gateway_cert)
       (Some (bytes_of_string "www.example.com")) 15
     = (1, [ERR_clear_error;
            X509_check_host_called (Some (bytes_of_string "www.example.com")) 15 4])
  /\ CryptoNative_CheckX509Hostname (fun _ _ _ _ => 1) (Some gateway_cert)
       (Some (bytes_of_string ".example.com")) 0
     = (1, [ERR_clear_error;
            X509_check_host_called (Some (bytes_of_string ".example.com")) 0 4]).
Proof.
  split; [|split].
  - refine (proj1 (hostname_leading_dot (fun _ _ _ _ => 1) gateway_cert
                     (Some (bytes_of_string ".example.com")) 12) _ _ _);
      [lia|eexists; reflexivity|reflexivity].
  - refine (proj1 (proj2 (hostname_leading_dot (fun _ _ _ _ => 1) gateway_cert
                            (Some (bytes_of_string "www.example.com")) 15)) _ _); [lia|].
    intros _. split; [eexists; reflexivity|discriminate].
  - exact (proj1 (proj2 (proj2 (hostname_leading_dot (fun _ _ _ _ => 1) gateway_cert
                                  (Some (bytes_of_string ".example.com")) 0))) eq_refl).
Defined.

(** C4, as stated, fails for a hostname with a leading dot that is passed
    with length 0: the arguments are valid, the first character is a dot,
    yet the guard is skipped, the library's host check is called (which
    takes a length of 0 to mean a NUL-terminated name) and its answer, here
    a match, is returned. *)
Lemma hostname_leading_dot_counterexample :
  first_char (Some (bytes_of_string ".example.com")) = 46
  /\ is_null (Some (bytes_of_string ".example.com")) = false
  /\ CryptoNative_CheckX509Hostname (fun _ _ _ _ => 1) (Some gateway_cert)
       (Some (bytes_of_string ".example.com")) 0
     = (1, [ERR_clear_error;
            X509_check_host_called (Some (bytes_of_string ".example.com")) 0
              X509_CHECK_FLAG_NO_PARTIAL_WILDCARDS])
  /\ CryptoNative_CheckX509Hostname (fun _ _ _ _ => 1) (Some gateway_cert)
       (Some (bytes_of_string ".example.com")) 0
     <> (0, [ERR_clear_error]).
Proof.
  repeat split; try reflexivity. discriminate.
Qed.

(** ** The IP-address matcher *)



Lemma san_loop_exists (san : GENERAL_NAMES) address len remaining i :
  (remaining + i = length san)%nat ->
  san_loop san address len remaining i
  = Returned (if existsb (fun g => san_entry_matches g address len) (drop i san)
              then 1 else 0).
Proof.
  revert i. induction remaining as [|r IH]; intros i Hlen; simpl.
  - rewrite drop_ge by lia. reflexivity.
  - destruct (lookup_lt_is_Some_2 san i) as [g Hg]; [lia|].
    unfold sk_GENERAL_NAME_value. rewrite Hg, (drop_S _ _ _ Hg). simpl.
    destruct (san_entry_matches g address len); [reflexivity|].
    apply IH. lia.
Qed.

Lemma common_name_scan_skip hostname cch (l : list X509_NAME_ENTRY) pos :
  index_by_NID_from l NID_commonName pos = -1 ->
  common_name_scan hostname cch l = Returned 0.
Proof.
  revert pos. induction l as [|en l IH]; intros pos H; simpl in *; [reflexivity|].
  destruct (entry_has_nid NID_commonName en); [lia|]. now apply (IH (S pos)).
Qed.

Lemma common_name_scan_found hostname cch (l : list X509_NAME_ENTRY) pos :
  0 <= index_by_NID_from l NID_commonName pos ->
  let k := Z.to_nat (index_by_NID_from l NID_commonName pos - Z.of_nat pos) in
  exists en,
    l !! k = Some en
    /\ common_name_scan hostname cch l
       = match X509_NAME_ENTRY_get_data en with
         | None => NullDereference
         | Some cn =>
             if common_name_matches cn hostname cch then Returned 1
             else common_name_scan hostname cch (drop (S k) l)
         end.
Proof.
  cbv zeta. revert pos. induction l as [|en l IH]; intros pos H; simpl in *; [lia|].
  destruct (entry_has_nid NID_commonName en).
  - exists en. replace (Z.to_nat (Z.of_nat pos - Z.of_nat pos)) with 0%nat by lia.
    split; reflexivity.
  - destruct (IH (S pos) H) as (en' & Hen' & Hscan).
    pose proof (index_by_NID_from_bounds l NID_commonName (S pos)) as [Hb|Hb]; [lia|].
    replace (Z.to_nat (index_by_NID_from l NID_commonName (S pos) - Z.of_nat pos))
      with (S (Z.to_nat (index_by_NID_from l NID_commonName (S pos) - Z.of_nat (S pos))))
      by lia.
    exists en'. split; [exact Hen'|exact Hscan].
Qed.


Lemma common_name_loop_scan subject hostname cch i :
  -1 <= i ->
  common_name_loop subject hostname cch i
  = common_name_scan hostname cch (drop (Z.to_nat (i + 1)) (name_entries subject)).
Proof.
  funelim (common_name_loop subject hostname cch i); intros Hi.
  all: match goal with Hdec : Z_lt_dec _ _ = _ |- _ => clear Hdec end.
  all: unfold X509_NAME_get_index_by_NID in *.
  all: assert (Hmax : Z.max i (-1) + 1 = i + 1) by lia; rewrite Hmax in *; clear Hmax.
  all: set (start := Z.to_nat (i + 1)) in *.
  all: set (rest := drop start (name_entries subject)) in *.
  - symmetry. apply (common_name_scan_skip _ _ _ start).
    destruct (index_by_NID_from_bounds rest NID_commonName start); [assumption|lia].
  - match goal with
    | Hge : ~ _ < 0 |- _ =>
        destruct (common_name_scan_found hostname cchHostname rest start ltac:(lia))
          as (en & Hen & Hscan)
    end.
    set (j := index_by_NID_from rest NID_commonName start) in *.
    pose proof (index_by_NID_from_bounds rest NID_commonName start) as [Hb|Hb];
      fold j in Hb; [lia|].
    subst rest. rewrite lookup_drop in Hen.
    replace (start + Z.to_nat (j - Z.of_nat start))%nat with (Z.to_nat j) in Hen by lia.
    unfold X509_NAME_get_entry. rewrite Hen. cbn [mbind option_bind].
    rewrite Hscan, drop_drop.
    replace (start + S (Z.to_nat (j - Z.of_nat start)))%nat with (Z.to_nat (j + 1)) by lia.
    destruct (X509_NAME_ENTRY_get_data en) as [value|]; [|reflexivity].
    destruct (common_name_matches value hostname cchHostname); [reflexivity|].
    match goal with IH : ASN1_STRING -> _ |- _ => apply (IH value) end. lia.
Qed.

Lemma common_name_scan_exists hostname cch (l : list X509_NAME_ENTRY) :
  common_names_have_data l ->
  common_name_scan hostname cch l
  = Returned (if existsb (common_name_entry_matches hostname cch) l then 1 else 0).
Proof.
  induction 1 as [|en l Hen _ IH]; [reflexivity|].
  cbn [common_name_scan existsb]. unfold common_name_entry_matches at 1.
  destruct (entry_has_nid NID_commonName en); [|exact IH].
  destruct (Hen eq_refl) as [value ->]. cbn [andb].
  destruct (common_name_matches value hostname cch); [reflexivity|exact IH].
Qed.



Lemma san_phase_spec x509 address len :
  san_phase x509 address len
  = (Returned (if existsb (fun g => san_entry_matches g address len) (subject_alt_names x509)
               then 1 else 0),
     match X509_get_ext_d2i x509 NID_subject_alt_name with
     | Some _ => [GENERAL_NAMES_decoded NID_subject_alt_name; GENERAL_NAMES_free]
     | None => []
     end).
Proof.
  unfold san_phase, subject_alt_names.
  destruct (X509_get_ext_d2i x509 NID_subject_alt_name) as [san|]; [|reflexivity].
  rewrite san_loop_exists by (unfold sk_GENERAL_NAME_num; lia).
  rewrite drop_0. reflexivity.
Qed.

Lemma subject_phase_scan x509 hostname cch :
  subject_phase x509 hostname cch
  = common_name_scan (default [] hostname) cch (subject_entries x509).
Proof.
  unfold subject_phase, subject_entries.
  destruct (X509_get_subject_name x509) as [subject|]; [|reflexivity].
  rewrite common_name_loop_scan by lia. now rewrite drop_0.
Qed.

(** The call on valid arguments: its result and its trace. *)
Lemma CheckX509IpAddress_spec x509 address len hostname cch :
  0 <= len -> 0 <= cch -> (0 < cch -> is_Some hostname) ->
  CryptoNative_CheckX509IpAddress (Some x509) (Some address) len hostname cch
  = (if existsb (fun g => san_entry_matches g address len) (subject_alt_names x509)
     then Returned 1
     else common_name_scan (default [] hostname) cch (subject_entries x509),
     ERR_clear_error ::
     match X509_get_ext_d2i x509 NID_subject_alt_name with
     | Some _ => [GENERAL_NAMES_decoded NID_subject_alt_name; GENERAL_NAMES_free]
     | None => []
     end).
Proof.
  intros Hlen Hcch Hhost. unfold CryptoNative_CheckX509IpAddress.
  assert (Hnull : (0 <? cch) && is_null hostname = false).
  { destruct (0 <? cch) eqn:Hpos; [|reflexivity].
    destruct Hhost as [h ->]; [lia|reflexivity]. }
  rewrite Hnull.
  replace (cch <? 0) with false by (symmetry; lia).
  replace (len <? 0) with false by (symmetry; lia).
  unfold bind. rewrite san_phase_spec. cbn [fst snd call].
  destruct (existsb _ (subject_alt_names x509)); cbn [Z.eqb];
    [|rewrite subject_phase_scan];
    destruct (X509_get_ext_d2i x509 NID_subject_alt_name); reflexivity.
Qed.













(** ** Release of the decoded alternative names *)

(** The trace of the resolver: the error queue is cleared, and when the
    alternative-name phase is reached and the extension decodes, the list
    is decoded and released, match or no match. *)
Lemma GetX509NameInfo_trace localOid x509 nameType forIssuer :
  trace (CryptoNative_GetX509NameInfo localOid x509 nameType forIssuer)
  = ERR_clear_error ::
    match x509 with
    | None => []
    | Some cert =>
        if (nameType <? NAME_TYPE_SIMPLE) || (NAME_TYPE_URL <? nameType) then []
        else
          match simple_part cert nameType forIssuer, alt_names_of cert forIssuer with
          | None, Some _ =>
              [GENERAL_NAMES_decoded
                 (if forIssuer =? 0 then NID_subject_alt_name else NID_issuer_alt_name);
               GENERAL_NAMES_free]
          | _, _ => []
          end
    end.
Proof.
  unfold CryptoNative_GetX509NameInfo. writer. f_equal.
  destruct x509 as [cert|]; [|reflexivity].
  destruct ((nameType <? NAME_TYPE_SIMPLE) || (NAME_TYPE_URL <? nameType)) eqn:Hvalid;
    [reflexivity|].
  rewrite simple_phase_spec.
  destruct (simple_part cert nameType forIssuer); [reflexivity|].
  simpl. writer. rewrite alt_name_phase_spec by assumption.
  destruct (alt_names_of cert forIssuer) as [names|]; simpl.
  - now destruct (head (omap (alt_name_pick localOid nameType) names)).
  - reflexivity.
Qed.

Lemma CheckX509IpAddress_trace x509 addressBytes len hostname cch :
  let t := trace (CryptoNative_CheckX509IpAddress x509 addressBytes len hostname cch) in
  t = [] \/ t = [ERR_clear_error]
  \/ t = [ERR_clear_error; GENERAL_NAMES_decoded NID_subject_alt_name; GENERAL_NAMES_free].
Proof.
  cbv zeta. unfold CryptoNative_CheckX509IpAddress.
  destruct x509 as [cert|]; [|now left].
  destruct ((0 <? cch) && is_null hostname); [now left|].
  destruct (cch <? 0); [now left|].
  destruct (len <? 0); [now left|].
  destruct addressBytes as [address|]; [|now left].
  right. unfold bind. rewrite san_phase_spec. cbn [fst snd call].
  destruct (existsb _ _); cbn [Z.eqb];
    destruct (X509_get_ext_d2i cert NID_subject_alt_name); cbn; auto.
Qed.

(** C5.  In every call of [CryptoNative_GetX509NameInfo] and of
    [CryptoNative_CheckX509IpAddress] the decode and release events are
    either none, or one decode followed by one release; and the second
    holds on every path that decodes the list: in the resolver whenever the
    alternative-name phase is reached and the extension decodes (with a
    match and without), in the IP matcher whenever the arguments are valid
    and the extension decodes (with a match and without). *)
Theorem alternative_names_released :
  (forall localOid x509 nameType forIssuer,
     let t := names_events
                (trace (CryptoNative_GetX509NameInfo localOid x509 nameType forIssuer)) in
     t = [] \/ exists nid, t = [GENERAL_NAMES_decoded nid; GENERAL_NAMES_free])
  /\ (forall x509 addressBytes len hostname cch,
        let t := names_events
                   (trace (CryptoNative_CheckX509IpAddress x509 addressBytes len
                             hostname cch)) in
        t = [] \/ exists nid, t = [GENERAL_NAMES_decoded nid; GENERAL_NAMES_free])
  /\ (forall localOid x509 nameType forIssuer names,
        (nameType <? NAME_TYPE_SIMPLE) || (NAME_TYPE_URL <? nameType) = false ->
        simple_part x509 nameType forIssuer = None ->
        alt_names_of x509 forIssuer = Some names ->
        trace (CryptoNative_GetX509NameInfo localOid (Some x509) nameType forIssuer)
        = [ERR_clear_error;
           GENERAL_NAMES_decoded
             (if forIssuer =? 0 then NID_subject_alt_name else NID_issuer_alt_name);
           GENERAL_NAMES_free])
  /\ (forall x509 address len hostname cch san,
        0 <= len -> 0 <= cch -> (0 < cch -> is_Some hostname) ->
        X509_get_ext_d2i x509 NID_subject_alt_name = Some san ->
        trace (CryptoNative_CheckX509IpAddress (Some x509) (Some address) len hostname cch)
        = [ERR_clear_error; GENERAL_NAMES_decoded NID_subject_alt_name;
           GENERAL_NAMES_free]).
Proof.
  split; [|split; [|split]].
  - intros localOid x509 nameType forIssuer. cbv zeta.
    rewrite GetX509NameInfo_trace.
    destruct x509 as [cert|]; [|now left].
    destruct ((nameType <? NAME_TYPE_SIMPLE) || (NAME_TYPE_URL <? nameType)); [now left|].
    destruct (simple_part cert nameType forIssuer); [now left|].
    destruct (alt_names_of cert forIssuer); [|now left].
    right. eexists. reflexivity.
  - intros x509 addressBytes len hostname cch. cbv zeta.
    destruct (CheckX509IpAddress_trace x509 addressBytes len hostname cch)
      as [-> | [-> | ->]]; [now left|now left|].
    right. eexists. reflexivity.
  - intros localOid x509 nameType forIssuer names Hvalid Hsimple Hnames.
    now rewrite GetX509NameInfo_trace, Hvalid, Hsimple, Hnames.
  - intros x509 address len hostname cch san Hlen Hcch Hhost Hsan.
    rewrite CheckX509IpAddress_spec by assumption. unfold trace. cbn [snd].
    now rewrite Hsan.
Qed.

Lemma alternative_names_released_witness :
  trace (CryptoNative_GetX509NameInfo [] (Some unit_only_cert) NAME_TYPE_SIMPLE 0)
  = [ERR_clear_error; GENERAL_NAMES_decoded NID_subject_alt_name; GENERAL_NAMES_free]
  /\ trace (CryptoNative_GetX509NameInfo [] (Some unit_only_cert) NAME_TYPE_URL 0)
     = [ERR_clear_error; GENERAL_NAMES_decoded NID_subject_alt_name; GENERAL_NAMES_free]
  /\ trace (CryptoNative_CheckX509IpAddress (Some gateway_cert) (Some [192; 0; 2; 7]) 4
              None 0)
     = [ERR_clear_error; GENERAL_NAMES_decoded NID_subject_alt_name; GENERAL_NAMES_free].
Proof.
  destruct alternative_names_released as (_ & _ & Hname & Hip).
  split; [|split].
  - exact (Hname [] unit_only_cert NAME_TYPE_SIMPLE 0 _ eq_refl eq_refl eq_refl).
  - exact (Hname [] unit_only_cert NAME_TYPE_URL 0 _ eq_refl eq_refl eq_refl).
  - refine (Hip gateway_cert [192; 0; 2; 7] 4 None 0 _ _ _ _ eq_refl); lia.
Defined.

(** ** Initialisation for the caller-managed lock model *)

Lemma init_locks_loop_spec env remaining first locks :
  let '(ok, n, _, t) := init_locks_loop env remaining first locks in
  (first <= n)%nat
  /\ (forall slot, (first <= slot < n)%nat -> pthread_mutex_init env slot = 0)
  /\ (if ok
      then n = (first + remaining)%nat /\ t = init_ok_events first remaining
      else (n < first + remaining)%nat /\ pthread_mutex_init env n <> 0
           /\ t = init_ok_events first (n - first)
                   ++ [mutex_init_called n (pthread_mutex_init env n)]).
Proof.
  revert first locks. induction remaining as [|r IH]; intros first locks.
  - cbn [init_locks_loop]. repeat split; auto with lia.
  - cbn [init_locks_loop].
    destruct (pthread_mutex_init env first =? 0) eqn:Hstatus; cbn [negb].
    + apply Z.eqb_eq in Hstatus.
      specialize (IH (S first) (<[first := mutex_initialized]> locks)).
      destruct (init_locks_loop env r (S first) (<[first := mutex_initialized]> locks))
        as [[[ok n] locks'] t].
      destruct IH as (Hle & Hall & Hok).
      split; [lia|]. split.
      { intros slot Hslot. destruct (decide (slot = first)) as [->|]; [assumption|].
        apply Hall. lia. }
      rewrite Hstatus. destruct ok.
      * destruct Hok as [-> ->]. split; [lia|reflexivity].
      * destruct Hok as (Hlt & Hfail & ->). split; [lia|]. split; [assumption|].
        replace (n - first)%nat with (S (n - S first)) by lia. reflexivity.
    + apply Z.eqb_neq in Hstatus. split; [lia|]. split; [intros; lia|].
      split; [lia|]. split; [assumption|].
      now rewrite Nat.sub_diag.
Qed.

Lemma destroy_locks_loop_events count locks :
  snd (destroy_locks_loop count locks) = destroy_events count.
Proof.
  unfold destroy_events. revert locks.
  induction count as [|i IH]; intros locks; [reflexivity|].
  cbn [destroy_locks_loop].
  specialize (IH (<[i := mutex_destroyed]> locks)).
  destruct (destroy_locks_loop i (<[i := mutex_destroyed]> locks)) as [locks' t].
  cbn [snd] in *. rewrite IH, seq_S, rev_app_distr. reflexivity.
Qed.

Lemma initialized_slots_app t1 t2 :
  initialized_slots (t1 ++ t2) = initialized_slots t1 ++ initialized_slots t2.
Proof. apply omap_app. Qed.

Lemma destroyed_slots_app t1 t2 :
  destroyed_slots (t1 ++ t2) = destroyed_slots t1 ++ destroyed_slots t2.
Proof. apply omap_app. Qed.

Lemma frees_app t1 t2 : frees (t1 ++ t2) = (frees t1 + frees t2)%nat.
Proof. unfold frees. now rewrite List.filter_app, length_app. Qed.

Lemma allocations_app t1 t2 : allocations (t1 ++ t2) = (allocations t1 + allocations t2)%nat.
Proof. unfold allocations. now rewrite List.filter_app, length_app. Qed.

Lemma init_ok_events_readings first count :
  initialized_slots (init_ok_events first count) = seq first count
  /\ destroyed_slots (init_ok_events first count) = []
  /\ frees (init_ok_events first count) = 0%nat
  /\ allocations (init_ok_events first count) = 0%nat.
Proof.
  unfold init_ok_events. revert first.
  induction count as [|n IH]; intros first; [now repeat split|].
  destruct (IH (S first)) as (H1 & H2 & H3 & H4).
  cbn [seq map]. repeat split.
  - change (initialized_slots (?ev :: ?t)) with (initialized_slots [ev] ++ initialized_slots t).
    now rewrite H1.
  - exact H2.
  - exact H3.
  - exact H4.
Qed.

Lemma destroy_events_readings count :
  initialized_slots (destroy_events count) = []
  /\ destroyed_slots (destroy_events count) = rev (seq 0 count)
  /\ frees (destroy_events count) = 0%nat
  /\ allocations (destroy_events count) = 0%nat.
Proof.
  unfold destroy_events. induction (rev (seq 0 count)) as [|i l IH]; [now repeat split|].
  destruct IH as (H1 & H2 & H3 & H4). cbn [map]. repeat split.
  - exact H1.
  - change (destroyed_slots (?ev :: ?t)) with (destroyed_slots [ev] ++ destroyed_slots t).
    now rewrite H2.
  - exact H3.
  - exact H4.
Qed.

Lemma done_failure ret count g locks :
  ret <> 0 ->
  g_locks g = Some locks ->
  done ret count g
  = (ret, mkglobals None (g_x509_ocsp_index g) (g_ssl_sess_cert_index g) (locking_callback g),
     destroy_events count ++ [free_called; initLock_unlock]).
Proof.
  intros Hret Hlocks. unfold done. rewrite Hlocks.
  replace (ret =? 0) with false by (symmetry; lia). cbn [negb].
  pose proof (destroy_locks_loop_events count locks) as Hev.
  destruct (destroy_locks_loop count locks) as [locks' t]. cbn [snd] in Hev.
  now rewrite Hev.
Qed.

Lemma done_unallocated ret count g :
  g_locks g = None -> done ret count g = (ret, g, [initLock_unlock]).
Proof.
  intros Hlocks. unfold done. rewrite Hlocks. now destruct (negb (ret =? 0)).
Qed.

(** The call when the array can be allocated: what follows the loop that
    initialises the locks. *)
Lemma allocated_outcome env g size :
  g_locks g = None ->
  0 < CRYPTO_num_locks env ->
  allocation env = Some size ->
  let '(ok, n, _, t) :=
    init_locks_loop env (Z.to_nat (CRYPTO_num_locks env)) 0
      (replicate (Z.to_nat (CRYPTO_num_locks env)) mutex_uninitialized) in
  EnsureOpenSsl10Initialized env g
  = if negb ok then
      (3, mkglobals None (g_x509_ocsp_index g) (g_ssl_sess_cert_index g) (locking_callback g),
       [initLock_lock; malloc_called size true] ++ t
       ++ destroy_events n ++ [free_called; initLock_unlock])
    else if RAND_poll env <? 1 then
      (4, mkglobals None (g_x509_ocsp_index g) (g_ssl_sess_cert_index g) true,
       [initLock_lock; malloc_called size true] ++ t
       ++ [CRYPTO_set_locking_callback_called; RAND_poll_called]
       ++ destroy_events n ++ [free_called; initLock_unlock])
    else
      (0, snd (fst (EnsureOpenSsl10Initialized env g)),
       snd (EnsureOpenSsl10Initialized env g)).
Proof.
  intros Hlocks Hnum Halloc. unfold allocation in Halloc.
  unfold EnsureOpenSsl10Initialized. rewrite Hlocks.
  replace (CRYPTO_num_locks env <=? 0) with false by (symmetry; lia).
  destruct (multiply_s _ _) as [size'|]; [|discriminate]. cbn in Halloc.
  destruct (malloc_succeeds env size') eqn:Hmalloc; [|discriminate].
  injection Halloc as ->. cbn [negb].
  destruct (init_locks_loop env _ 0 _) as [[[ok n] locks] t].
  destruct ok; cbn [negb].
  - destruct (RAND_poll env <? 1).
    + rewrite (done_failure 4 n _ locks) by (reflexivity || lia).
      unfold with_events. cbn [g_x509_ocsp_index g_ssl_sess_cert_index locking_callback].
      reflexivity.
    + unfold done, with_events. reflexivity.
  - rewrite (done_failure 3 n _ locks) by (reflexivity || lia).
    unfold with_events. cbn [g_x509_ocsp_index g_ssl_sess_cert_index locking_callback].
    reflexivity.
Qed.

Create Rewrite HintDb readings.

#[local] Hint Rewrite initialized_slots_app destroyed_slots_app frees_app allocations_app
  : readings.

(** The readings of a failure trace after a successful allocation. *)
Lemma failure_trace_readings size loop extra n :
  initialized_slots loop = seq 0 n -> destroyed_slots loop = [] ->
  frees loop = 0%nat -> allocations loop = 0%nat ->
  initialized_slots extra = [] -> destroyed_slots extra = [] ->
  frees extra = 0%nat -> allocations extra = 0%nat ->
  let t := [initLock_lock; malloc_called size true] ++ loop ++ extra
           ++ destroy_events n ++ [free_called; initLock_unlock] in
  initialized_slots t = seq 0 n
  /\ destroyed_slots t = rev (seq 0 n)
  /\ frees t = 1%nat
  /\ allocations t = 1%nat.
Proof.
  intros Hi Hd Hf Ha Hi' Hd' Hf' Ha'. cbv zeta.
  destruct (destroy_events_readings n) as (Hi2 & Hd2 & Hf2 & Ha2).
  autorewrite with readings.
  rewrite Hi, Hd, Hf, Ha, Hi', Hd', Hf', Ha', Hi2, Hd2, Hf2, Ha2.
  cbn. rewrite !app_nil_r. auto.
Qed.

(** C7.  Started with no lock array, [EnsureOpenSsl10Initialized] returns
    a status between 0 and 4: 1 exactly for a lock count that is not
    positive, 2 exactly when the array cannot be allocated (the size
    overflows or [malloc] fails), 3 exactly when some [pthread_mutex_init]
    fails, 4 exactly when the random generator cannot be seeded.  With a
    status other than 0 the array pointer is null again, the mutexes
    destroyed are those initialised, in reverse order and each once, the
    array is freed once when it was allocated (and never otherwise), and
    this cleanup is the end of the call: the destroys, then the free, then
    the release of the initialisation lock. *)
Theorem legacy_init_failure_cleanup (env : init_env) (g : globals) :
  g_locks g = None ->
  let '(ret, g', t) := EnsureOpenSsl10Initialized env g in
  let numLocks := CRYPTO_num_locks env in
  0 <= ret <= 4
  /\ (ret = 1 <-> numLocks <= 0)
  /\ (ret = 2 <-> 0 < numLocks /\ allocation env = None)
  /\ (ret = 3 <->
      0 < numLocks /\ is_Some (allocation env)
      /\ exists slot, (slot < Z.to_nat numLocks)%nat /\ pthread_mutex_init env slot <> 0)
  /\ (ret = 4 <->
      0 < numLocks /\ is_Some (allocation env)
      /\ (forall slot, (slot < Z.to_nat numLocks)%nat -> pthread_mutex_init env slot = 0)
      /\ RAND_poll env < 1)
  /\ (ret <> 0 ->
      g_locks g' = None
      /\ destroyed_slots t = rev (initialized_slots t)
      /\ frees t = allocations t
      /\ exists before,
           t = before ++ map mutex_destroy_called (rev (initialized_slots t))
               ++ repeat free_called (allocations t) ++ [initLock_unlock]
           /\ destroyed_slots before = [] /\ frees before = 0%nat).
Proof.
  intros Hlocks.
  destruct (Z_le_gt_dec (CRYPTO_num_locks env) 0) as [Hnum|Hnum].
  { (* the lock count is not positive *)
    unfold EnsureOpenSsl10Initialized. rewrite Hlocks.
    replace (CRYPTO_num_locks env <=? 0) with true by (symmetry; lia).
    rewrite done_unallocated by assumption. cbn [with_events]. cbv zeta.
    split; [lia|]. split; [split; [intros _; lia|reflexivity]|].
    split; [split; [discriminate|intros [? _]; lia]|].
    split; [split; [discriminate|intros [? _]; lia]|].
    split; [split; [discriminate|intros [? _]; lia]|].
    intros _. split; [assumption|]. split; [reflexivity|]. split; [reflexivity|].
    exists [initLock_lock]. repeat split. }
  destruct (allocation env) as [size|] eqn:Halloc.
  2:{ (* the array cannot be allocated *)
    unfold allocation in Halloc.
    unfold EnsureOpenSsl10Initialized. rewrite Hlocks.
    replace (CRYPTO_num_locks env <=? 0) with false by (symmetry; lia).
    destruct (multiply_s _ _) as [size|]; cbn in Halloc.
    - destruct (malloc_succeeds env size) eqn:Hmalloc; [discriminate|]. cbn [negb].
      rewrite done_unallocated by assumption. cbn [with_events]. cbv zeta.
      split; [lia|]. split; [split; [discriminate|intros; lia]|].
      split; [split; [intros _; split; [lia|reflexivity]|reflexivity]|].
      split; [split; [discriminate|intros (_ & [? ?] & _); discriminate]|].
      split; [split; [discriminate|intros (_ & [? ?] & _); discriminate]|].
      intros _. split; [assumption|]. split; [reflexivity|]. split; [reflexivity|].
      exists [initLock_lock; malloc_called size false]. repeat split.
    - rewrite done_unallocated by assumption. cbn [with_events]. cbv zeta.
      split; [lia|]. split; [split; [discriminate|intros; lia]|].
      split; [split; [intros _; split; [lia|reflexivity]|reflexivity]|].
      split; [split; [discriminate|intros (_ & [? ?] & _); discriminate]|].
      split; [split; [discriminate|intros (_ & [? ?] & _); discriminate]|].
      intros _. split; [assumption|]. split; [reflexivity|]. split; [reflexivity|].
      exists [initLock_lock]. repeat split. }
  (* the array is allocated *)
  pose proof (allocated_outcome env g size Hlocks ltac:(lia) Halloc) as Hout.
  pose proof (init_locks_loop_spec env (Z.to_nat (CRYPTO_num_locks env)) 0
                (replicate (Z.to_nat (CRYPTO_num_locks env)) mutex_uninitialized)) as Hloop.
  destruct (init_locks_loop env _ 0 _) as [[[ok n] locks] loop].
  destruct Hloop as (_ & Hall & Hok).
  destruct ok; cbn [negb] in Hout.
  - (* every lock was initialised *)
    destruct Hok as [Hn ->]. rewrite Nat.add_0_l in Hn. subst n.
    destruct (RAND_poll env <? 1) eqn:Hpoll.
    + rewrite Hout. cbv zeta.
      destruct (init_ok_events_readings 0 (Z.to_nat (CRYPTO_num_locks env)))
        as (Hi & Hd & Hf & Ha).
      destruct (failure_trace_readings size
                  (init_ok_events 0 (Z.to_nat (CRYPTO_num_locks env)))
                  [CRYPTO_set_locking_callback_called; RAND_poll_called]
                  (Z.to_nat (CRYPTO_num_locks env)) Hi Hd Hf Ha eq_refl eq_refl eq_refl eq_refl)
        as (Ri & Rd & Rf & Ra).
      rewrite Ri, Rd, Rf, Ra.
      split; [lia|]. split; [split; intros; lia|]. split; [split; [discriminate|]|].
      { now intros [_ ?]. }
      split; [split; [discriminate|]|].
      { intros (_ & _ & slot & Hslot & Hfail). exfalso. apply Hfail, Hall. lia. }
      split.
      { split; [|reflexivity]. intros _. split; [lia|]. split; [eauto|].
        split; [intros slot Hslot; apply Hall; lia|lia]. }
      intros _. split; [reflexivity|]. split; [reflexivity|]. split; [reflexivity|].
      exists ([initLock_lock; malloc_called size true]
              ++ init_ok_events 0 (Z.to_nat (CRYPTO_num_locks env))
              ++ [CRYPTO_set_locking_callback_called; RAND_poll_called]).
      split; [now rewrite <- !app_assoc|].
      autorewrite with readings. rewrite Hd, Hf. now split.
    + destruct (EnsureOpenSsl10Initialized env g) as [[ret g'] t].
      assert (Hret : ret = 0) by (now injection Hout). subst ret. cbv zeta.
      split; [lia|]. split; [split; intros; lia|]. split; [split; [discriminate|]|].
      { now intros [_ ?]. }
      split; [split; [discriminate|]|].
      { intros (_ & _ & slot & Hslot & Hfail). exfalso. apply Hfail, Hall. lia. }
      split; [split; [discriminate|intros (_ & _ & _ & ?); lia]|].
      intros H. now contradiction H.
  - (* a lock failed to initialise *)
    destruct Hok as (Hlt & Hfail & ->). rewrite Nat.add_0_l in Hlt.
    rewrite Nat.sub_0_r in *.
    rewrite Hout. cbv zeta.
    assert (Hloop : initialized_slots
                      (init_ok_events 0 n ++ [mutex_init_called n (pthread_mutex_init env n)])
                    = seq 0 n
                    /\ destroyed_slots
                         (init_ok_events 0 n ++ [mutex_init_called n (pthread_mutex_init env n)])
                       = []
                    /\ frees (init_ok_events 0 n
                              ++ [mutex_init_called n (pthread_mutex_init env n)]) = 0%nat
                    /\ allocations (init_ok_events 0 n
                                    ++ [mutex_init_called n (pthread_mutex_init env n)]) = 0%nat).
    { destruct (init_ok_events_readings 0 n) as (Hi & Hd & Hf & Ha).
      autorewrite with readings. rewrite Hi, Hd, Hf, Ha. cbn.
      replace (pthread_mutex_init env n =? 0) with false by (symmetry; lia).
      now rewrite app_nil_r. }
    destruct Hloop as (Hi & Hd & Hf & Ha).
    destruct (failure_trace_readings size _ [] n Hi Hd Hf Ha eq_refl eq_refl eq_refl eq_refl)
      as (Ri & Rd & Rf & Ra).
    cbn [app] in Ri, Rd, Rf, Ra. cbn [app].
    rewrite Ri, Rd, Rf, Ra.
    split; [lia|]. split; [split; intros; lia|]. split; [split; [discriminate|]|].
    { now intros [_ ?]. }
    split.
    { split; [|reflexivity]. intros _. split; [lia|]. split; [eauto|].
      exists n. split; [lia|assumption]. }
    split; [split; [discriminate|]|].
    { intros (_ & _ & Hnone & _). exfalso. apply Hfail, Hnone. lia. }
    intros _. split; [reflexivity|]. split; [reflexivity|]. split; [reflexivity|].
    exists ([initLock_lock; malloc_called size true]
            ++ init_ok_events 0 n ++ [mutex_init_called n (pthread_mutex_init env n)]).
    split; [now rewrite <- !app_assoc|].
    rewrite destroyed_slots_app, frees_app, Hd, Hf. now split.
Qed.

Lemma legacy_init_failure_cleanup_witness :
  let '(ret, g', t) := EnsureOpenSsl10Initialized third_lock_fails fresh_globals in
  ret = 3 /\ g_locks g' = None
  /\ destroyed_slots t = rev (initialized_slots t)
  /\ frees t = allocations t.
Proof.
  pose proof (legacy_init_failure_cleanup third_lock_fails fresh_globals eq_refl) as H.
  destruct (EnsureOpenSsl10Initialized third_lock_fails fresh_globals) as [[ret g'] t].
  cbv zeta in H. destruct H as (_ & _ & _ & Hthree & _ & Hclean).
  assert (Hret : ret = 3).
  { apply Hthree. split; [reflexivity|]. split; [eexists; reflexivity|].
    exists 2%nat. split; [vm_compute; lia|discriminate]. }
  destruct Hclean as (Hnull & Hdestroyed & Hfreed & _); [lia|].
  auto.
Defined.

(** * Further properties *)

(** ** Argument validation of the IP-address matcher *)

Lemma common_name_scan_codes hostname cch (l : list X509_NAME_ENTRY) :
  common_name_scan hostname cch l = Returned 0
  \/ common_name_scan hostname cch l = Returned 1
  \/ common_name_scan hostname cch l = NullDereference.
Proof.
  induction l as [|en l IH]; simpl; [now left|].
  destruct (entry_has_nid NID_commonName en); [|exact IH].
  destruct (X509_NAME_ENTRY_get_data en) as [value|]; [|now right; right].
  destruct (common_name_matches value hostname cch); [now right; left|exact IH].
Qed.

Lemma ip_arguments_invalid_dec x509 addressBytes addressBytesLen hostname cchHostname :
  ip_arguments_invalid x509 addressBytes addressBytesLen hostname cchHostname
  \/ ~ ip_arguments_invalid x509 addressBytes addressBytesLen hostname cchHostname.
Proof.
  unfold ip_arguments_invalid.
  destruct x509, addressBytes, hostname;
    destruct (decide (cchHostname < 0)), (decide (0 < cchHostname)),
      (decide (addressBytesLen < 0));
    try (left; solve [auto 6 | lia]);
    right; intros [?|[[? ?]|[?|[?|?]]]]; try discriminate; lia.
Qed.

(** The codes of [CryptoNative_CheckX509IpAddress]: a negative code is
    returned exactly for invalid arguments, and then no library call is
    made, not even the clearing of the error queue; the code tells the
    first failing test: -2 a null certificate, -3 a null hostname of
    positive length, -4 a negative hostname length, -5 a negative address
    length, -6 a null address.  On valid arguments the error queue is
    cleared first and the call yields 0 or 1 (or stops on a Common-Name
    entry without value). *)
Theorem ip_address_argument_errors (x509 : option X509) (addressBytes : option (list uchar))
    (addressBytesLen : Z) (hostname : option (list uchar)) (cchHostname : Z) :
  let run := CryptoNative_CheckX509IpAddress x509 addressBytes addressBytesLen
               hostname cchHostname in
  (ip_arguments_invalid x509 addressBytes addressBytesLen hostname cchHostname
   <-> exists code, result run = Returned code /\ code < 0)
  /\ (ip_arguments_invalid x509 addressBytes addressBytesLen hostname cchHostname ->
      trace run = []
      /\ result run
         = Returned (if decide (x509 = None) then -2
                     else if decide (0 < cchHostname /\ hostname = None) then -3
                     else if decide (cchHostname < 0) then -4
                     else if decide (addressBytesLen < 0) then -5
                     else -6))
  /\ (~ ip_arguments_invalid x509 addressBytes addressBytesLen hostname cchHostname ->
      head (trace run) = Some ERR_clear_error
      /\ (result run = Returned 0 \/ result run = Returned 1
          \/ result run = NullDereference)).
Proof.
  cbv zeta.
  assert (Hvalid : ~ ip_arguments_invalid x509 addressBytes addressBytesLen hostname cchHostname ->
            head (trace (CryptoNative_CheckX509IpAddress x509 addressBytes addressBytesLen
                           hostname cchHostname)) = Some ERR_clear_error
            /\ (result (CryptoNative_CheckX509IpAddress x509 addressBytes addressBytesLen
                          hostname cchHostname) = Returned 0
                \/ result (CryptoNative_CheckX509IpAddress x509 addressBytes addressBytesLen
                             hostname cchHostname) = Returned 1
                \/ result (CryptoNative_CheckX509IpAddress x509 addressBytes addressBytesLen
                             hostname cchHostname) = NullDereference)).
  { unfold ip_arguments_invalid. intros Hok.
    destruct x509 as [cert|]; [|tauto].
    destruct addressBytes as [address|]; [|tauto].
    rewrite CheckX509IpAddress_spec.
    - split; [reflexivity|]. unfold result. cbn [fst].
      destruct (existsb _ _); [now right; left|apply common_name_scan_codes].
    - lia.
    - lia.
    - intros Hpos. destruct hostname; [eauto|]. exfalso. apply Hok. auto. }
  assert (Hinvalid : ip_arguments_invalid x509 addressBytes addressBytesLen hostname cchHostname ->
            CryptoNative_CheckX509IpAddress x509 addressBytes addressBytesLen
              hostname cchHostname
            = (Returned (if decide (x509 = None) then -2
                         else if decide (0 < cchHostname /\ hostname = None) then -3
                         else if decide (cchHostname < 0) then -4
                         else if decide (addressBytesLen < 0) then -5
                         else -6), [])).
  { unfold ip_arguments_invalid, CryptoNative_CheckX509IpAddress. intros Hbad.
    destruct x509 as [cert|]; [|reflexivity].
    rewrite decide_False by discriminate.
    destruct (decide (0 < cchHostname /\ hostname = None)) as [[Hpos ->]|Hnot].
    { replace (0 <? cchHostname) with true by (symmetry; lia). reflexivity. }
    assert (Hnull : (0 <? cchHostname) && is_null hostname = false).
    { destruct (0 <? cchHostname) eqn:Hpos; [|reflexivity].
      destruct hostname; [reflexivity|]. exfalso. apply Hnot. split; [lia|reflexivity]. }
    rewrite Hnull.
    destruct (decide (cchHostname < 0)) as [Hneg|Hnonneg].
    { now replace (cchHostname <? 0) with true by (symmetry; lia). }
    replace (cchHostname <? 0) with false by (symmetry; lia).
    destruct (decide (addressBytesLen < 0)) as [Hlen|Hlen].
    { now replace (addressBytesLen <? 0) with true by (symmetry; lia). }
    replace (addressBytesLen <? 0) with false by (symmetry; lia).
    destruct addressBytes; [|reflexivity].
    exfalso. destruct Hbad as [?|[?|[?|[?|?]]]]; try discriminate; tauto || lia. }
  split; [|split].
  - split.
    + intros Hbad. rewrite (Hinvalid Hbad). eexists. split; [reflexivity|].
      repeat case_decide; lia.
    + intros (code & Hcode & Hneg).
      destruct (ip_arguments_invalid_dec x509 addressBytes addressBytesLen hostname
                  cchHostname) as [Hbad|Hok]; [exact Hbad|].
      destruct (Hvalid Hok) as [_ [H|[H|H]]]; rewrite H in Hcode;
        try discriminate; injection Hcode as <-; lia.
  - intros Hbad. now rewrite (Hinvalid Hbad).
  - exact Hvalid.
Qed.

Lemma ip_address_argument_errors_witness :
  CryptoNative_CheckX509IpAddress (Some gateway_cert) None 4 None 0 = (Returned (-6), [])
  /\ CryptoNative_CheckX509IpAddress (Some gateway_cert) None (-1) None (-1)
     = (Returned (-4), []).
Proof.
  split.
  - destruct (proj1 (proj2 (ip_address_argument_errors (Some gateway_cert) None 4 None 0)))
      as [Ht Hr].
    + right; right; right; right. reflexivity.
    + apply injective_projections; [exact Hr|exact Ht].
  - destruct (proj1 (proj2 (ip_address_argument_errors (Some gateway_cert) None (-1) None (-1))))
      as [Ht Hr].
    + right; right; left. lia.
    + apply injective_projections; [exact Hr|exact Ht].
Defined.

(** ** Argument validation of the hostname matcher *)

Lemma host_arguments_invalid_dec x509 hostname cchHostname :
  host_arguments_invalid x509 hostname cchHostname
  \/ ~ host_arguments_invalid x509 hostname cchHostname.
Proof.
  unfold host_arguments_invalid.
  destruct x509, hostname;
    destruct (decide (cchHostname < 0)), (decide (0 < cchHostname));
    try (left; solve [auto 6 | lia]);
    right; intros [?|[[? ?]|?]]; try discriminate; lia.
Qed.

Lemma CheckX509Hostname_valid_result X509_check_host cert hostname cchHostname :
  ~ host_arguments_invalid (Some cert) hostname cchHostname ->
  result (CryptoNative_CheckX509Hostname X509_check_host (Some cert) hostname cchHostname)
  = if (0 <? cchHostname) && (first_char hostname =? 46) then 0
    else X509_check_host cert hostname (to_size_t cchHostname)
           X509_CHECK_FLAG_NO_PARTIAL_WILDCARDS.
Proof.
  unfold host_arguments_invalid, CryptoNative_CheckX509Hostname. intros Hok.
  assert (Hnull : (0 <? cchHostname) && is_null hostname = false).
  { destruct (0 <? cchHostname) eqn:Hpos; [|reflexivity].
    destruct hostname; [reflexivity|]. exfalso. apply Hok. right; left. split; [lia|reflexivity]. }
  rewrite Hnull.
  replace (cchHostname <? 0) with false by (symmetry; lia).
  writer. now destruct ((0 <? cchHostname) && (first_char hostname =? 46)).
Qed.

(** [CryptoNative_CheckX509Hostname] answers -3 for a null certificate, -4
    for a null hostname of positive length and -5 for a negative length, in
    that order of precedence and without any library call.  As long as the
    library's host check answers -2 or more, a code of -3 or less is
    returned exactly for such arguments. *)
Theorem hostname_argument_errors (X509_check_host : X509 -> option (list uchar) -> Z -> Z -> Z)
    (x509 : option X509) (hostname : option (list uchar)) (cchHostname : Z) :
  let run := CryptoNative_CheckX509Hostname X509_check_host x509 hostname cchHostname in
  (host_arguments_invalid x509 hostname cchHostname ->
   run = (if decide (x509 = None) then -3
          else if decide (0 < cchHostname /\ hostname = None) then -4
          else -5, []))
  /\ ((forall cert name len flags, -2 <= X509_check_host cert name len flags) ->
      host_arguments_invalid x509 hostname cchHostname <-> result run <= -3).
Proof.
  cbv zeta.
  assert (Hinvalid : host_arguments_invalid x509 hostname cchHostname ->
            CryptoNative_CheckX509Hostname X509_check_host x509 hostname cchHostname
            = (if decide (x509 = None) then -3
               else if decide (0 < cchHostname /\ hostname = None) then -4
               else -5, [])).
  { unfold host_arguments_invalid, CryptoNative_CheckX509Hostname. intros Hbad.
    destruct x509 as [cert|]; [|reflexivity].
    rewrite decide_False by discriminate.
    destruct (decide (0 < cchHostname /\ hostname = None)) as [[Hpos ->]|Hnot].
    { replace (0 <? cchHostname) with true by (symmetry; lia). reflexivity. }
    assert (Hnull : (0 <? cchHostname) && is_null hostname = false).
    { destruct (0 <? cchHostname) eqn:Hpos; [|reflexivity].
      destruct hostname; [reflexivity|]. exfalso. apply Hnot. split; [lia|reflexivity]. }
    rewrite Hnull.
    destruct Hbad as [?|[?|Hneg]]; [discriminate|tauto|].
    now replace (cchHostname <? 0) with true by (symmetry; lia). }
  split; [exact Hinvalid|].
  intros Hlib. split.
  - intros Hbad. rewrite (Hinvalid Hbad). unfold result. cbn [fst].
    repeat case_decide; lia.
  - intros Hres.
    destruct (host_arguments_invalid_dec x509 hostname cchHostname) as [Hbad|Hok];
      [exact Hbad|].
    destruct x509 as [cert|]; [|now left].
    rewrite (CheckX509Hostname_valid_result X509_check_host cert hostname cchHostname Hok)
      in Hres.
    destruct ((0 <? cchHostname) && (first_char hostname =? 46)); [lia|].
    specialize (Hlib cert hostname (to_size_t cchHostname)
                  X509_CHECK_FLAG_NO_PARTIAL_WILDCARDS). lia.
Qed.

Lemma hostname_argument_errors_witness :
  CryptoNative_CheckX509Hostname (fun _ _ _ _ => -1) (Some gateway_cert) None 3 = (-4, [])
  /\ (host_arguments_invalid (Some gateway_cert) (Some (bytes_of_string "gw")) 2
      <-> result (CryptoNative_CheckX509Hostname (fun _ _ _ _ => -1) (Some gateway_cert)
                    (Some (bytes_of_string "gw")) 2) <= -3).
Proof.
  split.
  - apply (proj1 (hostname_argument_errors (fun _ _ _ _ => -1) (Some gateway_cert) None 3)).
    right; left. split; [lia|reflexivity].
  - apply (proj2 (hostname_argument_errors (fun _ _ _ _ => -1) (Some gateway_cert)
                    (Some (bytes_of_string "gw")) 2)).
    intros; lia.
Defined.

(** ** The Common-Name comparison and embedded NUL *)

Lemma strncasecmp_stops_at_nul (p p' t1 t2 : list uchar) (n : nat) :
  map tolower p = map tolower p' ->
  strncasecmp (p ++ 0 :: t1) (p' ++ 0 :: t2) n = 0.
Proof.
  revert p' n. induction p as [|c p IH]; intros [|c' p'] n Hmap; try discriminate.
  - destruct n; reflexivity.
  - injection Hmap as Hc Hp. destruct n as [|n]; [reflexivity|].
    cbn [app strncasecmp hd tl]. rewrite Hc, Z.eqb_refl.
    destruct (tolower c' =? 0); [reflexivity|now apply IH].
Qed.

Lemma existsb_In_true {A} (f : A -> bool) (l : list A) (x : A) :
  In x l -> f x = true -> existsb f l = true.
Proof. intros Hin Hf. apply existsb_exists. eauto. Qed.

(** The comparison of a Common-Name value with the hostname stops at the
    first NUL: a value and a hostname that agree up to case before a NUL
    match when [cchHostname] is the length of the value, whatever bytes
    follow the NUL on either side, and the matcher then reports a match. *)
Theorem common_name_comparison_stops_at_nul (x509 : X509) (en : X509_NAME_ENTRY)
    (cn : ASN1_STRING) (p p' t1 t2 address : list uchar) (addressBytesLen : Z) :
  asn1_data cn = Some (p ++ 0 :: t1) ->
  map tolower p = map tolower p' ->
  In en (subject_entries x509) ->
  entry_has_nid NID_commonName en = true ->
  X509_NAME_ENTRY_get_data en = Some cn ->
  common_names_have_data (subject_entries x509) ->
  0 <= addressBytesLen ->
  0 <= asn1_length cn ->
  common_name_matches cn (p' ++ 0 :: t2) (asn1_length cn) = true
  /\ result (CryptoNative_CheckX509IpAddress (Some x509) (Some address) addressBytesLen
               (Some (p' ++ 0 :: t2)) (asn1_length cn)) = Returned 1.
Proof.
  intros Hdata Hmap Hin Hnid Hvalue Hwf Haddr Hcch.
  assert (Hmatch : common_name_matches cn (p' ++ 0 :: t2) (asn1_length cn) = true).
  { unfold common_name_matches. rewrite Hdata, Z.eqb_refl. cbn [andb].
    apply Z.eqb_eq. now apply strncasecmp_stops_at_nul. }
  split; [exact Hmatch|].
  rewrite CheckX509IpAddress_spec by (eauto; lia). unfold result. cbn [fst default].
  destruct (existsb _ (subject_alt_names x509)); [reflexivity|].
  rewrite common_name_scan_exists by assumption.
  rewrite (existsb_In_true _ _ en Hin); [reflexivity|].
  unfold common_name_entry_matches. now rewrite Hnid, Hvalue.
Qed.

Lemma common_name_comparison_stops_at_nul_witness :
  result (CryptoNative_CheckX509IpAddress (Some nul_name_cert) (Some [10; 0; 0; 1]) 4
            (Some [65; 0; 99]) 3) = Returned 1.
Proof.
  refine (proj2 (common_name_comparison_stops_at_nul nul_name_cert
                   (mkX509_NAME_ENTRY (Some (mkASN1_OBJECT NID_commonName [2; 5; 4; 3]%N))
                      (Some (mkASN1_STRING 3 12 (Some [97; 0; 98]))))
                   (mkASN1_STRING 3 12 (Some [97; 0; 98])) [97] [65] [98] [99] [10; 0; 0; 1] 4
                   eq_refl eq_refl _ eq_refl eq_refl _ _ _)).
  - left. reflexivity.
  - repeat constructor. intros _. eexists. reflexivity.
  - lia.
  - simpl. lia.
Defined.

(** ** The resolver by side and by mode *)

(** The result of the resolver on a certificate, from the strings its
    three phases find. *)
Lemma GetX509NameInfo_result localOid x509 nameType forIssuer :
  (nameType <? NAME_TYPE_SIMPLE) || (NAME_TYPE_URL <? nameType) = false ->
  result (CryptoNative_GetX509NameInfo localOid (Some x509) nameType forIssuer)
  = or_else (utf8_bio <$> simple_part x509 nameType forIssuer)
      (or_else (utf8_bio <$> alternative_part localOid x509 nameType forIssuer)
         (raw_bio <$> legacy_part x509 nameType forIssuer)).
Proof.
  intros Hvalid. unfold CryptoNative_GetX509NameInfo. writer. rewrite Hvalid.
  rewrite simple_phase_spec.
  destruct (simple_part x509 nameType forIssuer) as [str|]; [reflexivity|].
  simpl. writer. rewrite alt_name_phase_spec by assumption.
  unfold alternative_part.
  destruct (alt_names_of x509 forIssuer) as [names|]; simpl.
  - destruct (head (omap (alt_name_pick localOid nameType) names)); simpl;
      [reflexivity|apply legacy_phase_spec].
  - apply legacy_phase_spec.
Qed.

Lemma omap_ext_pointwise {A B} (f g : A -> option B) (l : list A) :
  (forall x, f x = g x) -> omap f l = omap g l.
Proof.
  intros Hfg. induction l as [|x l IH]; [reflexivity|].
  now rewrite !omap_cons_match, Hfg, IH.
Qed.

Lemma alt_name_pick_by_mode localOid (g : GENERAL_NAME) :
  alt_name_pick localOid NAME_TYPE_DNS g = d_dNSName g
  /\ alt_name_pick localOid NAME_TYPE_DNSALT g = d_dNSName g
  /\ alt_name_pick localOid NAME_TYPE_EMAIL g = d_rfc822Name g
  /\ alt_name_pick localOid NAME_TYPE_SIMPLE g = d_rfc822Name g
  /\ alt_name_pick localOid NAME_TYPE_URL g = d_uniformResourceIdentifier g.
Proof. destruct g; repeat split; reflexivity. Qed.

(** What the resolver answers in the Dns, DnsFromAlternativeName, Email and
    Url modes.  The alternative names are scanned forward and the first
    entry of the wanted kind that carries a string wins (an entry of that
    kind without a string is passed over); only Dns and Email go on to the
    distinguished name, and take the Common Name, respectively the email
    attribute, that comes last in encoded order. *)
Theorem resolver_by_mode (localOid : list uchar) (x509 : X509) (forIssuer : Z) :
  let names := alt_names_of x509 forIssuer in
  let name := chosen_name x509 forIssuer in
  let run nameType :=
    result (CryptoNative_GetX509NameInfo localOid (Some x509) nameType forIssuer) in
  run NAME_TYPE_DNS
  = or_else (utf8_bio <$> first_alternative d_dNSName names)
      (raw_bio <$> last_attribute NID_commonName name)
  /\ run NAME_TYPE_DNSALT = utf8_bio <$> first_alternative d_dNSName names
  /\ run NAME_TYPE_EMAIL
     = or_else (utf8_bio <$> first_alternative d_rfc822Name names)
         (raw_bio <$> last_attribute NID_pkcs9_emailAddress name)
  /\ run NAME_TYPE_URL = utf8_bio <$> first_alternative d_uniformResourceIdentifier names.
Proof.
  cbv beta zeta. rewrite !GetX509NameInfo_result by reflexivity.
  unfold simple_part, alternative_part, legacy_part, first_alternative, last_attribute.
  cbn [Z.eqb NAME_TYPE_DNS NAME_TYPE_DNSALT NAME_TYPE_EMAIL NAME_TYPE_URL NAME_TYPE_SIMPLE
         Pos.eqb orb fmap option_fmap option_map or_else].
  destruct (alt_names_of x509 forIssuer) as [names|]; cbn [mbind option_bind].
  - rewrite (omap_ext_pointwise (alt_name_pick localOid 3) d_dNSName),
      (omap_ext_pointwise (alt_name_pick localOid 4) d_dNSName),
      (omap_ext_pointwise (alt_name_pick localOid 1) d_rfc822Name),
      (omap_ext_pointwise (alt_name_pick localOid 5) d_uniformResourceIdentifier)
      by (intros g; apply (alt_name_pick_by_mode localOid g)).
    repeat split;
      repeat match goal with
             | |- context [head ?l] => destruct (head l)
             end; reflexivity.
  - repeat split; reflexivity.
Qed.

(** A query reads one side of the certificate only: a subject query
    ([forIssuer] zero) is decided by the subject name and the subject
    alternative names, an issuer query by the issuer name and the issuer
    alternative names; and every non-zero [forIssuer] asks the same
    question. *)
Theorem resolver_reads_one_side (localOid : list uchar) (c1 c2 : X509)
    (nameType forIssuer : Z) :
  let run c f := CryptoNative_GetX509NameInfo localOid (Some c) nameType f in
  (x509_subject c1 = x509_subject c2 ->
   x509_subject_alt_name c1 = x509_subject_alt_name c2 ->
   run c1 0 = run c2 0)
  /\ (forIssuer <> 0 ->
      x509_issuer c1 = x509_issuer c2 ->
      x509_issuer_alt_name c1 = x509_issuer_alt_name c2 ->
      run c1 forIssuer = run c2 forIssuer)
  /\ (forIssuer <> 0 -> run c1 forIssuer = run c1 1).
Proof.
  cbv beta zeta.
  unfold CryptoNative_GetX509NameInfo, simple_phase, alt_name_phase, legacy_phase,
    chosen_name, X509_get_subject_name, X509_get_issuer_name, X509_get_ext_d2i.
  split; [|split].
  - intros Hname Halt. cbn [Z.eqb NID_subject_alt_name]. now rewrite Hname, Halt.
  - intros Hf Hname Halt.
    replace (forIssuer =? 0) with false by (symmetry; lia).
    cbn [Z.eqb NID_issuer_alt_name NID_subject_alt_name Pos.eqb]. now rewrite Hname, Halt.
  - intros Hf. now replace (forIssuer =? 0) with false by (symmetry; lia).
Qed.

Lemma resolver_reads_one_side_witness :
  CryptoNative_GetX509NameInfo [] (Some two_sided_cert) NAME_TYPE_DNS 0
  = CryptoNative_GetX509NameInfo []
      (Some (mkX509 (x509_subject two_sided_cert) None
               (x509_subject_alt_name two_sided_cert) None)) NAME_TYPE_DNS 0
  /\ CryptoNative_GetX509NameInfo [] (Some two_sided_cert) NAME_TYPE_URL (-1)
     = CryptoNative_GetX509NameInfo [] (Some two_sided_cert) NAME_TYPE_URL 1.
Proof.
  split.
  - apply (proj1 (resolver_reads_one_side [] two_sided_cert
                    (mkX509 (x509_subject two_sided_cert) None
                       (x509_subject_alt_name two_sided_cert) None) NAME_TYPE_DNS 0));
      reflexivity.
  - apply (proj2 (proj2 (resolver_reads_one_side [] two_sided_cert two_sided_cert
                           NAME_TYPE_URL (-1)))). lia.
Defined.

(** ** Initialisation for the caller-managed lock model, case by case *)

Lemma init_locks_loop_array env remaining first :
  let '(ok, n, locks, _) :=
    init_locks_loop env remaining first
      (replicate first mutex_initialized ++ replicate remaining mutex_uninitialized) in
  ok = true -> locks = replicate (first + remaining) mutex_initialized.
Proof.
  revert first. induction remaining as [|r IH]; intros first.
  - cbn [init_locks_loop replicate]. intros _. now rewrite app_nil_r, Nat.add_0_r.
  - cbn [init_locks_loop].
    destruct (pthread_mutex_init env first =? 0); cbn [negb]; [|discriminate].
    assert (Hins : <[first := mutex_initialized]>
                     (replicate first mutex_initialized
                      ++ replicate (S r) mutex_uninitialized)
                   = replicate (S first) mutex_initialized
                     ++ replicate r mutex_uninitialized).
    { rewrite insert_app_r_alt by (rewrite length_replicate; lia).
      rewrite length_replicate, Nat.sub_diag. cbn [replicate].
      change (<[0%nat := mutex_initialized]> (mutex_uninitialized :: ?l))
        with (mutex_initialized :: l).
      change (replicate (S first) mutex_initialized)
        with (mutex_initialized :: replicate first mutex_initialized).
      now rewrite replicate_cons_app, <- app_assoc. }
    rewrite Hins. specialize (IH (S first)).
    destruct (init_locks_loop env r (S first) _) as [[[ok n] locks] t].
    intros Hok. rewrite (IH Hok). f_equal. lia.
Qed.

(** Every way a call that starts without lock array can go. *)
Lemma legacy_init_cases env g :
  g_locks g = None ->
  let n := Z.to_nat (CRYPTO_num_locks env) in
  let run := EnsureOpenSsl10Initialized env g in
  (CRYPTO_num_locks env <= 0 /\ run = (1, g, [initLock_lock; initLock_unlock]))
  \/ (0 < CRYPTO_num_locks env /\ allocation env = None
      /\ exists attempt,
           (attempt = [] \/ exists size, attempt = [malloc_called size false])
           /\ run = (2, g, [initLock_lock] ++ attempt ++ [initLock_unlock]))
  \/ (0 < CRYPTO_num_locks env
      /\ exists size k,
           allocation env = Some size /\ (k < n)%nat /\ pthread_mutex_init env k <> 0
           /\ run = (3, without_locks g (locking_callback g),
                     [initLock_lock; malloc_called size true] ++ init_ok_events 0 k
                     ++ [mutex_init_called k (pthread_mutex_init env k)]
                     ++ destroy_events k ++ [free_called; initLock_unlock]))
  \/ (0 < CRYPTO_num_locks env
      /\ exists size,
           allocation env = Some size /\ locks_initialise env /\ RAND_poll env < 1
           /\ run = (4, without_locks g true,
                     [initLock_lock; malloc_called size true] ++ init_ok_events 0 n
                     ++ [CRYPTO_set_locking_callback_called; RAND_poll_called]
                     ++ destroy_events n ++ [free_called; initLock_unlock]))
  \/ (0 < CRYPTO_num_locks env
      /\ exists size,
           allocation env = Some size /\ locks_initialise env /\ 1 <= RAND_poll env
           /\ run = (0, initialised_globals env,
                     [initLock_lock; malloc_called size true] ++ init_ok_events 0 n
                     ++ [CRYPTO_set_locking_callback_called; RAND_poll_called;
                         OPENSSL_add_all_algorithms_conf_called;
                         ERR_load_crypto_strings_called;
                         CRYPTO_get_ex_new_index_called 10;
                         CRYPTO_get_ex_new_index_called 3;
                         initLock_unlock])).
Proof.
  intros Hlocks. cbv zeta.
  destruct (Z_le_gt_dec (CRYPTO_num_locks env) 0) as [Hnum|Hnum].
  { left. split; [assumption|].
    unfold EnsureOpenSsl10Initialized. rewrite Hlocks.
    replace (CRYPTO_num_locks env <=? 0) with true by (symmetry; lia).
    now rewrite done_unallocated. }
  right.
  destruct (allocation env) as [size|] eqn:Halloc.
  2:{ left. split; [lia|]. split; [reflexivity|].
      unfold allocation in Halloc.
      unfold EnsureOpenSsl10Initialized. rewrite Hlocks.
      replace (CRYPTO_num_locks env <=? 0) with false by (symmetry; lia).
      destruct (multiply_s _ _) as [size|]; cbn in Halloc.
      - destruct (malloc_succeeds env size) eqn:Hmalloc; [discriminate|]. cbn [negb].
        exists [malloc_called size false]. split; [right; eauto|].
        now rewrite done_unallocated.
      - exists []. split; [now left|]. now rewrite done_unallocated. }
  right.
  assert (Hsame := Halloc). unfold allocation in Hsame.
  unfold EnsureOpenSsl10Initialized. rewrite Hlocks.
  replace (CRYPTO_num_locks env <=? 0) with false by (symmetry; lia).
  destruct (multiply_s _ _) as [size'|]; [|discriminate]. cbn in Hsame.
  destruct (malloc_succeeds env size') eqn:Hmalloc; [|discriminate].
  injection Hsame as ->. cbn [negb].
  pose proof (init_locks_loop_spec env (Z.to_nat (CRYPTO_num_locks env)) 0
                (replicate (Z.to_nat (CRYPTO_num_locks env)) mutex_uninitialized)) as Hloop.
  pose proof (init_locks_loop_array env (Z.to_nat (CRYPTO_num_locks env)) 0) as Harray.
  cbn [replicate app] in Harray.
  destruct (init_locks_loop env _ 0 _) as [[[ok k] locks] loop].
  destruct Hloop as (_ & Hall & Hok).
  destruct ok; cbn [negb].
  - destruct Hok as [Hk ->]. rewrite Nat.add_0_l in Hk. subst k.
    assert (Hinit : locks_initialise env) by (intros slot Hslot; apply Hall; lia).
    right. destruct (RAND_poll env <? 1) eqn:Hpoll.
    + left. split; [lia|]. exists size. split; [reflexivity|]. split; [assumption|].
      split; [lia|].
      rewrite (done_failure 4 _ _ locks) by (reflexivity || lia). reflexivity.
    + right. split; [lia|]. exists size. split; [reflexivity|]. split; [assumption|].
      split; [lia|].
      rewrite (Harray eq_refl). unfold done, with_events, initialised_globals.
      cbn [negb Z.eqb app]. rewrite <- ?app_assoc. reflexivity.
  - destruct Hok as (Hlt & Hfail & ->). rewrite Nat.add_0_l in Hlt.
    rewrite Nat.sub_0_r. left. split; [lia|]. exists size, k.
    split; [reflexivity|]. split; [assumption|]. split; [assumption|].
    rewrite (done_failure 3 _ _ locks) by (reflexivity || lia).
    unfold with_events, without_locks.
    cbn [g_x509_ocsp_index g_ssl_sess_cert_index locking_callback app].
    rewrite <- ?app_assoc. reflexivity.
Qed.

(** When initialisation succeeds, and what it then leaves: a successful
    call is exactly one with a positive lock count, an array that can be
    allocated, locks that all initialise and a seeded random generator;
    afterwards every slot of the array holds an initialised mutex, the
    locking callback is installed, the two ex-data indexes are those the
    library gave for classes 10 and 3, and nothing was destroyed or freed. *)
Theorem legacy_init_success (env : init_env) (g : globals) :
  g_locks g = None ->
  let '(ret, g', t) := EnsureOpenSsl10Initialized env g in
  (ret = 0 <->
   0 < CRYPTO_num_locks env /\ is_Some (allocation env) /\ locks_initialise env
   /\ 1 <= RAND_poll env)
  /\ (ret = 0 ->
      g' = initialised_globals env
      /\ initialized_slots t = seq 0 (Z.to_nat (CRYPTO_num_locks env))
      /\ destroyed_slots t = [] /\ frees t = 0%nat /\ allocations t = 1%nat).
Proof.
  intros Hlocks.
  destruct (legacy_init_cases env g Hlocks)
    as [[Hnum ->]|[(Hnum & Halloc & attempt & _ & ->)
       |[(Hnum & size & k & Halloc & Hk & Hfail & ->)
       |[(Hnum & size & Halloc & Hinit & Hpoll & ->)
       |(Hnum & size & Halloc & Hinit & Hpoll & ->)]]]].
  - split; [split; [discriminate|intros [? _]; lia]|discriminate].
  - split; [|discriminate]. split; [discriminate|].
    intros (_ & [? Hsome] & _). rewrite Halloc in Hsome. discriminate.
  - split; [|discriminate]. split; [discriminate|].
    intros (_ & _ & Hinit & _). exfalso. now apply Hfail, Hinit.
  - split; [split; [discriminate|intros (_ & _ & _ & ?); lia]|discriminate].
  - split; [split; [intros _; rewrite Halloc; eauto|reflexivity]|].
    intros _. split; [reflexivity|].
    destruct (init_ok_events_readings 0 (Z.to_nat (CRYPTO_num_locks env)))
      as (Hi & Hd & Hf & Ha).
    autorewrite with readings. rewrite Hi, Hd, Hf, Ha. cbn.
    now rewrite !app_nil_r.
Qed.

Lemma legacy_init_success_witness :
  let '(ret, g', t) := EnsureOpenSsl10Initialized healthy_env fresh_globals in
  ret = 0 /\ g' = mkglobals (Some [mutex_initialized; mutex_initialized]) 7 0 true.
Proof.
  pose proof (legacy_init_success healthy_env fresh_globals eq_refl) as H.
  destruct (EnsureOpenSsl10Initialized healthy_env fresh_globals) as [[ret g'] t].
  destruct H as [Hiff Hpost].
  assert (Hret : ret = 0).
  { apply Hiff. split; [reflexivity|]. split; [eexists; reflexivity|].
    split; [intros slot _; reflexivity|]. simpl. lia. }
  split; [exact Hret|]. now destruct (Hpost Hret) as [-> _].
Defined.

(** ** The initialisation lock *)

Lemma init_ok_events_no_initLock first count :
  Forall (fun ev => is_initLock_event ev = false) (init_ok_events first count).
Proof. unfold init_ok_events. apply Forall_map, Forall_forall. reflexivity. Qed.

Lemma destroy_events_no_initLock count :
  Forall (fun ev => is_initLock_event ev = false) (destroy_events count).
Proof. unfold destroy_events. apply Forall_map, Forall_forall. reflexivity. Qed.

Create HintDb initLock.
#[local] Hint Resolve init_ok_events_no_initLock destroy_events_no_initLock : initLock.

Ltac list_eq :=
  repeat (progress cbn [app] || rewrite <- app_assoc); reflexivity.

Ltac no_initLock :=
  repeat first
    [ apply Forall_nil_2
    | apply Forall_cons; split; [reflexivity|]
    | apply Forall_app; split
    | solve [auto with initLock] ].

(** Every call takes the initialisation lock first and releases it last,
    on every path (already initialised, each failure, success), and
    touches it nowhere in between. *)
Theorem initLock_balanced (env : init_env) (g : globals) :
  exists between,
    snd (EnsureOpenSsl10Initialized env g) = initLock_lock :: between ++ [initLock_unlock]
    /\ Forall (fun ev => is_initLock_event ev = false) between.
Proof.
  destruct (g_locks g) as [locks|] eqn:Hlocks.
  { exists []. split; [|constructor].
    unfold EnsureOpenSsl10Initialized, done. rewrite Hlocks. reflexivity. }
  destruct (legacy_init_cases env g Hlocks)
    as [[Hnum ->]|[(Hnum & Halloc & attempt & Hattempt & ->)
       |[(Hnum & size & k & Halloc & Hk & Hfail & ->)
       |[(Hnum & size & Halloc & Hinit & Hpoll & ->)
       |(Hnum & size & Halloc & Hinit & Hpoll & ->)]]]]; cbn [snd].
  - exists []. split; [reflexivity|constructor].
  - exists attempt. split; [reflexivity|].
    destruct Hattempt as [->|[size ->]]; no_initLock.
  - exists ([malloc_called size true] ++ init_ok_events 0 k
            ++ [mutex_init_called k (pthread_mutex_init env k)]
            ++ destroy_events k ++ [free_called]).
    split; [list_eq|]. no_initLock.
  - exists ([malloc_called size true] ++ init_ok_events 0 (Z.to_nat (CRYPTO_num_locks env))
            ++ [CRYPTO_set_locking_callback_called; RAND_poll_called]
            ++ destroy_events (Z.to_nat (CRYPTO_num_locks env)) ++ [free_called]).
    split; [list_eq|]. no_initLock.
  - exists ([malloc_called size true] ++ init_ok_events 0 (Z.to_nat (CRYPTO_num_locks env))
            ++ [CRYPTO_set_locking_callback_called; RAND_poll_called;
                OPENSSL_add_all_algorithms_conf_called; ERR_load_crypto_strings_called;
                CRYPTO_get_ex_new_index_called 10; CRYPTO_get_ex_new_index_called 3]).
    split; [list_eq|]. no_initLock.
Qed.

(** ** Calling again *)

(** With no lock array, the status and the calls made depend on the
    process only, not on the other globals. *)
Lemma legacy_init_env_only env g1 g2 :
  g_locks g1 = None -> g_locks g2 = None ->
  fst (fst (EnsureOpenSsl10Initialized env g1)) = fst (fst (EnsureOpenSsl10Initialized env g2))
  /\ snd (EnsureOpenSsl10Initialized env g1) = snd (EnsureOpenSsl10Initialized env g2).
Proof.
  intros H1 H2. unfold EnsureOpenSsl10Initialized. rewrite H1, H2.
  destruct (CRYPTO_num_locks env <=? 0).
  { now rewrite !done_unallocated. }
  destruct (multiply_s _ _) as [size|]; [|now rewrite !done_unallocated].
  destruct (malloc_succeeds env size); cbn [negb]; [|now rewrite !done_unallocated].
  destruct (init_locks_loop _ _ _ _) as [[[ok count] locks] t].
  destruct ok; cbn [negb].
  - destruct (RAND_poll env <? 1).
    + now rewrite !(done_failure 4 count _ locks) by (cbn; congruence || lia).
    + now unfold done.
  - now rewrite !(done_failure 3 count _ locks) by (cbn; congruence || lia).
Qed.

(** Calling again.  After a success a further call, in whatever state the
    process then is, returns 0, changes no global and only takes and
    releases the initialisation lock.  After a failure the lock array is
    null again, so a further call starts over: in the same process it
    fails with the same status after the same calls. *)
Theorem legacy_init_repeated (env env' : init_env) (g : globals) :
  g_locks g = None ->
  let '(ret, g', t) := EnsureOpenSsl10Initialized env g in
  (ret = 0 ->
   EnsureOpenSsl10Initialized env' g' = (0, g', [initLock_lock; initLock_unlock]))
  /\ (ret <> 0 ->
      g_locks g' = None
      /\ fst (fst (EnsureOpenSsl10Initialized env g')) = ret
      /\ snd (EnsureOpenSsl10Initialized env g') = t).
Proof.
  intros Hlocks.
  assert (Hagain : forall g', g_locks g' = None ->
            fst (fst (EnsureOpenSsl10Initialized env g'))
            = fst (fst (EnsureOpenSsl10Initialized env g))
            /\ snd (EnsureOpenSsl10Initialized env g')
               = snd (EnsureOpenSsl10Initialized env g)).
  { intros g' Hg'. now apply legacy_init_env_only. }
  destruct (legacy_init_cases env g Hlocks)
    as [[Hnum Hrun]|[(Hnum & Halloc & attempt & _ & Hrun)
       |[(Hnum & size & k & Halloc & Hk & Hfail & Hrun)
       |[(Hnum & size & Halloc & Hinit & Hpoll & Hrun)
       |(Hnum & size & Halloc & Hinit & Hpoll & Hrun)]]]];
    rewrite Hrun in *; cbn [fst snd] in Hagain.
  1-4: split; [discriminate|intros _];
       (split; [first [assumption|reflexivity]|]); apply Hagain;
       first [assumption|reflexivity].
  split; [|congruence]. intros _. reflexivity.
Qed.

Lemma legacy_init_repeated_witness :
  EnsureOpenSsl10Initialized seed_fails
    (mkglobals (Some [mutex_initialized; mutex_initialized]) 7 0 true)
  = (0, mkglobals (Some [mutex_initialized; mutex_initialized]) 7 0 true,
     [initLock_lock; initLock_unlock])
  /\ fst (fst (EnsureOpenSsl10Initialized third_lock_fails
                 (mkglobals None (-1) (-1) false))) = 3.
Proof.
  split.
  - exact (proj1 (legacy_init_repeated healthy_env seed_fails fresh_globals eq_refl) eq_refl).
  - refine (proj1 (proj2 (proj2 (legacy_init_repeated third_lock_fails third_lock_fails
                                   fresh_globals eq_refl) _))).
    vm_compute. discriminate.
Defined.

(** What a failure leaves behind.  A failed call registers no ex-data
    slot and leaves both ex-data indexes as they were, and the lock array
    is null afterwards.  When the failure is one of the first three (lock
    count, allocation, a lock that does not initialise) the locking
    callback is as before; when the random generator cannot be seeded
    (status 4) the callback has been installed and stays installed, though
    the array it indexes has been freed. *)
Theorem legacy_init_failure_leaves (env : init_env) (g : globals) :
  g_locks g = None ->
  let '(ret, g', t) := EnsureOpenSsl10Initialized env g in
  ret <> 0 ->
  g_locks g' = None
  /\ g_x509_ocsp_index g' = g_x509_ocsp_index g
  /\ g_ssl_sess_cert_index g' = g_ssl_sess_cert_index g
  /\ (forall class_index, ~ In (CRYPTO_get_ex_new_index_called class_index) t)
  /\ locking_callback g' = (if ret =? 4 then true else locking_callback g)
  /\ (In CRYPTO_set_locking_callback_called t <-> ret = 4).
Proof.
  intros Hlocks.
  assert (Hok : forall first count ev,
            In ev (init_ok_events first count) -> exists slot, ev = mutex_init_called slot 0).
  { intros first count ev Hin. unfold init_ok_events in Hin.
    apply in_map_iff in Hin as (slot & <- & _). eauto. }
  assert (Hdestroy : forall count ev,
            In ev (destroy_events count) -> exists slot, ev = mutex_destroy_called slot).
  { intros count ev Hin. unfold destroy_events in Hin.
    apply in_map_iff in Hin as (slot & <- & _). eauto. }
  assert (Hscan : forall ev size k tail,
            (forall e, In e tail -> e <> ev) ->
            (forall slot s, ev <> mutex_init_called slot s) ->
            ev <> initLock_lock -> (forall b, ev <> malloc_called size b) ->
            ~ In ev ([initLock_lock; malloc_called size true] ++ init_ok_events 0 k
                     ++ tail)).
  { intros ev size k tail Htail Hi Hl Hm Hin.
    cbn [app] in Hin. destruct Hin as [Hin|[Hin|Hin]].
    - now apply Hl.
    - now apply (Hm true).
    - apply in_app_or in Hin as [Hin|Hin].
      + apply Hok in Hin as [slot ->]. now apply (Hi slot 0).
      + now apply (Htail ev). }
  destruct (legacy_init_cases env g Hlocks)
    as [[Hnum ->]|[(Hnum & Halloc & attempt & Hattempt & ->)
       |[(Hnum & size & k & Halloc & Hk & Hfail & ->)
       |[(Hnum & size & Halloc & Hinit & Hpoll & ->)
       |(Hnum & size & Halloc & Hinit & Hpoll & ->)]]]]; intros Hret;
    [| | | |congruence].
  - repeat (split; [first [reflexivity|exact Hlocks]|]). cbn. split.
    + intros class_index [?|[?|[]]]; discriminate.
    + split; [reflexivity|]. split; [intros [?|[?|[]]]; discriminate|discriminate].
  - repeat (split; [first [reflexivity|exact Hlocks]|]).
    destruct Hattempt as [->|[sz ->]]; cbn; split.
    + intros class_index [?|[?|[]]]; discriminate.
    + split; [reflexivity|]. split; [intros [?|[?|[]]]; discriminate|discriminate].
    + intros class_index [?|[?|[?|[]]]]; discriminate.
    + split; [reflexivity|]. split; [intros [?|[?|[?|[]]]]; discriminate|discriminate].
  - repeat (split; [first [reflexivity|exact Hlocks]|]).
    assert (Hnot : forall ev,
              (forall slot s, ev <> mutex_init_called slot s) ->
              (forall slot, ev <> mutex_destroy_called slot) ->
              ev <> initLock_lock -> ev <> initLock_unlock -> ev <> free_called ->
              (forall b, ev <> malloc_called size b) ->
              ~ In ev ([initLock_lock; malloc_called size true] ++ init_ok_events 0 k
                       ++ [mutex_init_called k (pthread_mutex_init env k)]
                       ++ destroy_events k ++ [free_called; initLock_unlock])).
    { intros ev Hi Hd Hl Hu Hf Hm. apply (Hscan ev size k); try assumption.
      intros e Hin ->. cbn [app] in Hin. destruct Hin as [Hin|Hin].
      - now apply (Hi k (pthread_mutex_init env k)).
      - apply in_app_or in Hin as [Hin|[Hin|[Hin|[]]]].
        + apply Hdestroy in Hin as [slot ->]. now apply (Hd slot).
        + now apply Hf.
        + now apply Hu. }
    split; [|split; [reflexivity|split; [|discriminate]]].
    + intros class_index. apply Hnot; discriminate.
    + intros Hin. exfalso. revert Hin. apply Hnot; discriminate.
  - repeat (split; [first [reflexivity|exact Hlocks]|]).
    split; [|split; [reflexivity|split; [reflexivity|]]].
    + intros class_index. apply (Hscan _ size); try discriminate.
      intros e Hin ->. cbn [app] in Hin. destruct Hin as [Hin|[Hin|Hin]]; try discriminate.
      apply in_app_or in Hin as [Hin|[Hin|[Hin|[]]]]; try discriminate.
      apply Hdestroy in Hin as [slot Hin]. discriminate.
    + intros _. cbn [app]. right. right. apply in_or_app. right. now left.
Qed.

Lemma legacy_init_failure_leaves_witness :
  let '(ret, g', t) := EnsureOpenSsl10Initialized seed_fails fresh_globals in
  ret = 4 /\ g_locks g' = None /\ locking_callback g' = true
  /\ g_x509_ocsp_index g' = -1.
Proof.
  pose proof (legacy_init_failure_leaves seed_fails fresh_globals eq_refl) as H.
  destruct (EnsureOpenSsl10Initialized seed_fails fresh_globals) as [[ret g'] t] eqn:Hrun.
  assert (Hret : ret = 4) by (vm_compute in Hrun; congruence).
  assert (Hfail : ret <> 0) by (rewrite Hret; discriminate).
  destruct (H Hfail) as (Hl & Hx & _ & _ & Hcb & _).
  rewrite Hret in Hcb. now rewrite Hx.
Defined.

(** ** The locking callback *)

Lemma land_CRYPTO_LOCK mode : (Z.land mode CRYPTO_LOCK =? 0) = Z.even mode.
Proof.
  unfold CRYPTO_LOCK. change 1 with (Z.ones 1).
  rewrite Z.land_ones by lia. change (2 ^ 1) with 2.
  rewrite Zmod_even. now destruct (Z.even mode).
Qed.

(** The locking callback after initialisation.  After a success, a call
    for a slot within the lock count locks the initialised mutex of that
    slot when bit [CRYPTO_LOCK] of the mode is set and unlocks it
    otherwise, whatever the other bits are; a slot outside the count is
    outside the array.  After a failure the array is null, so every call
    addresses memory outside it; and after a seed failure (status 4) the
    callback is nevertheless installed. *)
Theorem locking_callback_after_initialization (env : init_env) (g : globals) (mode n : Z) :
  g_locks g = None ->
  let '(ret, g', _) := EnsureOpenSsl10Initialized env g in
  (ret = 0 ->
   (0 <= n < CRYPTO_num_locks env ->
    LockingCallback g' mode n
    = if Z.odd mode then pthread_mutex_lock_called n mutex_initialized
      else pthread_mutex_unlock_called n mutex_initialized)
   /\ (n < 0 \/ CRYPTO_num_locks env <= n ->
       LockingCallback g' mode n = outside_lock_array))
  /\ (ret <> 0 -> LockingCallback g' mode n = outside_lock_array)
  /\ (ret = 4 -> locking_callback g' = true).
Proof.
  intros Hlocks.
  destruct (legacy_init_cases env g Hlocks)
    as [[Hnum ->]|[(Hnum & Halloc & attempt & _ & ->)
       |[(Hnum & size & k & Halloc & Hk & Hfail & ->)
       |[(Hnum & size & Halloc & Hinit & Hpoll & ->)
       |(Hnum & size & Halloc & Hinit & Hpoll & ->)]]]].
  1-2: split; [discriminate|]; split; [|discriminate];
       intros _; unfold LockingCallback; now rewrite Hlocks.
  1-2: split; [discriminate|]; split; [reflexivity|]; try discriminate; reflexivity.
  split; [|split; [congruence|discriminate]].
  intros _. unfold LockingCallback, initialised_globals. cbn [g_locks]. split.
  - intros Hn. replace (n <? 0) with false by (symmetry; lia).
    rewrite lookup_replicate_2 by lia.
    rewrite land_CRYPTO_LOCK, <- Z.negb_odd, negb_involutive. reflexivity.
  - intros [Hn|Hn].
    + now replace (n <? 0) with true by (symmetry; lia).
    + destruct (n <? 0); [reflexivity|].
      replace (replicate (Z.to_nat (CRYPTO_num_locks env)) mutex_initialized !! Z.to_nat n)
        with (@None mutex); [reflexivity|].
      symmetry. apply lookup_replicate_None. lia.
Qed.

Lemma locking_callback_after_initialization_witness :
  LockingCallback (mkglobals (Some [mutex_initialized; mutex_initialized]) 7 0 true) 9 1
  = pthread_mutex_lock_called 1 mutex_initialized.
Proof.
  pose proof (locking_callback_after_initialization healthy_env fresh_globals 9 1 eq_refl) as H.
  vm_compute EnsureOpenSsl10Initialized in H. cbv beta iota in H.
  destruct H as [H _]. destruct (H eq_refl) as [Hin _].
  apply Hin. simpl. lia.
Defined.

(** ** The thumbprint *)

(** The thumbprint accessor and its buffer.  A capacity below 20, negative
    ones included, is answered -20 for every certificate, before the error
    queue is cleared and with the buffer untouched; [CryptoNative_GetAsn1StringBytes]
    answers a negative capacity with 0 instead.  With a capacity of at least
    20 the digest is requested once, into whatever buffer was given, the
    [NULL] buffer included, and the code is 1 or 0 as the library succeeds
    or not. *)
Theorem thumbprint_capacity
    (X509_digest : X509 -> option (list uchar) -> Z * option (list uchar))
    (cert : X509) (pBuf : option (list uchar)) (cBuf : Z) :
  (cBuf < SHA_DIGEST_LENGTH ->
   CryptoNative_GetX509Thumbprint X509_digest (Some cert) pBuf cBuf
   = (- SHA_DIGEST_LENGTH, pBuf, []))
  /\ (cBuf < 0 ->
      forall a, fst (CryptoNative_GetAsn1StringBytes (Some a) pBuf cBuf) = 0)
  /\ (SHA_DIGEST_LENGTH <= cBuf ->
      CryptoNative_GetX509Thumbprint X509_digest (Some cert) pBuf cBuf
      = (if fst (X509_digest cert pBuf) =? 0 then 0 else 1, snd (X509_digest cert pBuf),
         [ERR_clear_error_called; X509_digest_called (is_null pBuf)])).
Proof.
  split; [|split].
  - intros Hc. unfold CryptoNative_GetX509Thumbprint.
    now replace (cBuf <? SHA_DIGEST_LENGTH) with true by (symmetry; lia).
  - intros Hc a. unfold CryptoNative_GetAsn1StringBytes.
    now replace (cBuf <? 0) with true by (symmetry; lia).
  - intros Hc. unfold CryptoNative_GetX509Thumbprint.
    replace (cBuf <? SHA_DIGEST_LENGTH) with false by (symmetry; lia).
    now destruct (X509_digest cert pBuf).
Qed.

Lemma thumbprint_capacity_witness :
  CryptoNative_GetX509Thumbprint (fun _ md => (1, md)) (Some two_units_cert) None (-1)
  = (-20, None, [])
  /\ CryptoNative_GetX509Thumbprint (fun _ md => (1, md)) (Some two_units_cert) None 20
     = (1, None, [ERR_clear_error_called; X509_digest_called true]).
Proof.
  pose proof (thumbprint_capacity (fun _ md => (1, md)) two_units_cert None (-1)) as [H1 _].
  pose proof (thumbprint_capacity (fun _ md => (1, md)) two_units_cert None 20) as (_ & _ & H2).
  split; [apply H1; unfold SHA_DIGEST_LENGTH; lia|apply H2; unfold SHA_DIGEST_LENGTH; lia].
Defined.

(** ** The public-key parameters *)

Section PublicKeyParameterFacts.

Variable X509_PUBKEY : Type.
Variable X509_get_X509_PUBKEY : X509 -> option X509_PUBKEY.
Variable X509_PUBKEY_get0_param : X509_PUBKEY -> Z * option X509_ALGOR.
Variable i2d_ASN1_TYPE_length : ASN1_TYPE -> Z.
Variable i2d_ASN1_TYPE_into : ASN1_TYPE -> option (list uchar) -> Z * option (list uchar).

Local Abbreviation parameter_bytes :=
  (CryptoNative_GetX509PublicKeyParameterBytes X509_PUBKEY X509_get_X509_PUBKEY
     X509_PUBKEY_get0_param i2d_ASN1_TYPE_length i2d_ASN1_TYPE_into).
Local Abbreviation certificate_parameter :=
  (parameter_of X509_PUBKEY X509_get_X509_PUBKEY X509_PUBKEY_get0_param).

Lemma parameter_bytes_present cert param pBuf cBuf :
  certificate_parameter cert = Some param ->
  parameter_bytes (Some cert) pBuf cBuf
  = let len := i2d_ASN1_TYPE_length param in
    if cBuf <? len
    then (neg32 len, pBuf, [ERR_clear_error_called; i2d_ASN1_TYPE_called false])
    else (if 0 <? fst (i2d_ASN1_TYPE_into param pBuf) then 1 else 0,
          snd (i2d_ASN1_TYPE_into param pBuf),
          [ERR_clear_error_called; i2d_ASN1_TYPE_called false; i2d_ASN1_TYPE_called true]).
Proof.
  unfold parameter_of, CryptoNative_GetX509PublicKeyParameterBytes.
  destruct (X509_get_X509_PUBKEY cert) as [pubkey|]; [|discriminate]. cbn.
  destruct (X509_PUBKEY_get0_param pubkey) as [status alg].
  destruct (status =? 0); [discriminate|].
  destruct alg as [a|]; [|discriminate]. cbn.
  intros ->. cbv zeta.
  destruct (cBuf <? i2d_ASN1_TYPE_length param); [reflexivity|].
  now destruct (i2d_ASN1_TYPE_into param pBuf).
Qed.

(** Probing the public-key parameters.  When the parameter encodes to
    [len] bytes, [0 < len], every capacity below [len], negative ones
    included, is answered [-len] with the buffer untouched and the encoder
    only asked for the length; a retry with the capacity the code names
    runs the encoder on the buffer given, which the code does not test for
    [NULL], and answers 1 when it reports a positive length. *)
Theorem public_key_parameter_probe (cert : X509) (param : ASN1_TYPE)
    (pBuf : option (list uchar)) (cBuf : Z) :
  certificate_parameter cert = Some param ->
  0 < i2d_ASN1_TYPE_length param <= INT_MAX ->
  let len := i2d_ASN1_TYPE_length param in
  (cBuf < len ->
   parameter_bytes (Some cert) pBuf cBuf
   = (- len, pBuf, [ERR_clear_error_called; i2d_ASN1_TYPE_called false]))
  /\ (forall buf,
        parameter_bytes (Some cert) buf (Z.abs (- len))
        = (if 0 <? fst (i2d_ASN1_TYPE_into param buf) then 1 else 0,
           snd (i2d_ASN1_TYPE_into param buf),
           [ERR_clear_error_called; i2d_ASN1_TYPE_called false; i2d_ASN1_TYPE_called true])).
Proof.
  intros Hparam Hlen. cbv zeta. split.
  - intros Hc. rewrite (parameter_bytes_present _ _ _ _ Hparam). cbv zeta.
    replace (cBuf <? i2d_ASN1_TYPE_length param) with true by (symmetry; lia).
    rewrite neg32_nonneg by lia. reflexivity.
  - intros buf. rewrite (parameter_bytes_present _ _ _ _ Hparam). cbv zeta.
    now replace (Z.abs (- i2d_ASN1_TYPE_length param) <? i2d_ASN1_TYPE_length param)
      with false by (symmetry; lia).
Qed.

(** A failing encoder and a negative capacity.  When the encoder reports a
    negative length (its error value) and the capacity is smaller still,
    the accessor returns the negated length, a positive code, with the
    buffer untouched and nothing encoded: for the error value -1 the code
    is 1, the code of a successful copy.  The accessor also clears the error
    queue on every call, a [NULL] certificate included. *)
Theorem public_key_parameter_negative_capacity (cert : X509) (param : ASN1_TYPE)
    (pBuf : option (list uchar)) (cBuf : Z) :
  certificate_parameter cert = Some param ->
  INT_MIN < i2d_ASN1_TYPE_length param < 0 ->
  cBuf < i2d_ASN1_TYPE_length param ->
  parameter_bytes (Some cert) pBuf cBuf
  = (- i2d_ASN1_TYPE_length param, pBuf,
     [ERR_clear_error_called; i2d_ASN1_TYPE_called false])
  /\ (i2d_ASN1_TYPE_length param = -1 -> fst (fst (parameter_bytes (Some cert) pBuf cBuf)) = 1)
  /\ parameter_bytes None pBuf cBuf = (0, pBuf, [ERR_clear_error_called]).
Proof.
  intros Hparam Hlen Hc.
  assert (Hrun : parameter_bytes (Some cert) pBuf cBuf
                 = (- i2d_ASN1_TYPE_length param, pBuf,
                    [ERR_clear_error_called; i2d_ASN1_TYPE_called false])).
  { rewrite (parameter_bytes_present _ _ _ _ Hparam). cbv zeta.
    replace (cBuf <? i2d_ASN1_TYPE_length param) with true by (symmetry; lia).
    unfold neg32. rewrite wrap32_id; [reflexivity|].
    unfold is_int32, INT_MIN, INT_MAX in *. lia. }
  split; [exact Hrun|]. split; [|reflexivity].
  intros Hone. rewrite Hrun. cbn [fst]. lia.
Qed.

End PublicKeyParameterFacts.

Lemma public_key_parameter_probe_witness :
  CryptoNative_GetX509PublicKeyParameterBytes unit (fun _ => Some tt)
    (fun _ => (1, Some (mkX509_ALGOR None (Some (mkASN1_TYPE 5 None)))))
    (fun _ => 2) (fun _ _ => (2, Some [5; 0])) (Some two_units_cert) None (-7)
  = (-2, None, [ERR_clear_error_called; i2d_ASN1_TYPE_called false]).
Proof.
  refine (proj1 (public_key_parameter_probe unit (fun _ => Some tt)
                   (fun _ => (1, Some (mkX509_ALGOR None (Some (mkASN1_TYPE 5 None)))))
                   (fun _ => 2) (fun _ _ => (2, Some [5; 0]))
                   two_units_cert (mkASN1_TYPE 5 None) None (-7) eq_refl _) _).
  - unfold INT_MAX. lia.
  - lia.
Defined.

Lemma public_key_parameter_negative_capacity_witness :
  fst (fst (CryptoNative_GetX509PublicKeyParameterBytes unit (fun _ => Some tt)
              (fun _ => (1, Some (mkX509_ALGOR None (Some (mkASN1_TYPE 5 None)))))
              (fun _ => -1) (fun _ _ => (-1, None)) (Some two_units_cert) None (-2))) = 1.
Proof.
  refine (proj1 (proj2 (public_key_parameter_negative_capacity unit (fun _ => Some tt)
                   (fun _ => (1, Some (mkX509_ALGOR None (Some (mkASN1_TYPE 5 None)))))
                   (fun _ => -1) (fun _ _ => (-1, None))
                   two_units_cert (mkASN1_TYPE 5 None) None (-2) eq_refl _ _)) eq_refl).
  - unfold INT_MIN. lia.
  - lia.
Defined.

(** ** Friendly names *)

(** One path of the lookup that does not return 1. *)
Ltac lookup_case :=
  split; [lia|];
  split; [split; [first [discriminate|intros _; first [now left|now right]]
                 |first [reflexivity|intros [?|?]; discriminate]]|];
  split; [reflexivity|];
  split; [discriminate|];
  split; [first [discriminate
                |intros ? [= <-] ? ?; first [lia|congruence|split; reflexivity]]|];
  split; reflexivity.

(** The friendly-name lookup.  The code is -2, -1, 0 or 1; the caller's
    variable is written only with code 1, and then with the long name of a
    NID other than [NID_undef]; a text that does not parse as dotted
    decimal is answered 0 without the object table being consulted,
    whatever the table would say; the temporary object is freed exactly
    once whenever it was created, and nothing is freed otherwise; and the
    error queue is cleared first on every call, invalid arguments
    included. *)
Theorem friendly_name_lookup
    (a2d_ASN1_OBJECT : list uchar -> Z)
    (OBJ_txt2obj : list uchar -> Z -> option ASN1_OBJECT)
    (OBJ_nid2ln : Z -> option (list uchar))
    (oidValue : option (list uchar)) (friendlyName : option (option (list uchar))) :
  let '(code, name, t) :=
    CryptoNative_LookupFriendlyNameByOid a2d_ASN1_OBJECT OBJ_txt2obj OBJ_nid2ln
      oidValue friendlyName in
  (code = -2 \/ code = -1 \/ code = 0 \/ code = 1)
  /\ (code = -2 <-> oidValue = None \/ friendlyName = None)
  /\ (code <> 1 -> name = friendlyName)
  /\ (code = 1 ->
      exists text oid ln,
        oidValue = Some text /\ OBJ_txt2obj text 1 = Some oid
        /\ OBJ_obj2nid oid <> NID_undef /\ OBJ_nid2ln (OBJ_obj2nid oid) = Some ln
        /\ name = Some (Some ln))
  /\ (forall text, oidValue = Some text -> a2d_ASN1_OBJECT text <= 0 ->
      friendlyName <> None -> code = 0 /\ t = [ERR_clear_error_called])
  /\ freed_objects t
     = match oidValue, friendlyName with
       | Some text, Some _ =>
           if 0 <? a2d_ASN1_OBJECT text
           then match OBJ_txt2obj text 1 with Some oid => [oid] | None => [] end
           else []
       | _, _ => []
       end
  /\ head t = Some ERR_clear_error_called.
Proof.
  unfold CryptoNative_LookupFriendlyNameByOid.
  destruct oidValue as [text|], friendlyName as [slot|]; [|lookup_case..].
  destruct (Z.leb_spec (a2d_ASN1_OBJECT text) 0) as [Hpos|Hpos].
  { replace (0 <? a2d_ASN1_OBJECT text) with false by (symmetry; lia). lookup_case. }
  replace (0 <? a2d_ASN1_OBJECT text) with true by (symmetry; lia).
  destruct (OBJ_txt2obj text 1) as [oid|] eqn:Hobj; [|lookup_case].
  destruct (Z.eqb_spec (OBJ_obj2nid oid) NID_undef) as [Hundef|Hundef]; [lookup_case|].
  destruct (OBJ_nid2ln (OBJ_obj2nid oid)) as [ln|] eqn:Hln; [|lookup_case].
  split; [lia|]. split; [split; [discriminate|intros [?|?]; discriminate]|].
  split; [congruence|]. split; [|split; [|split; reflexivity]].
  - intros _. exists text, oid, ln. repeat split; assumption.
  - intros ? [= <-] ? _. lia.
Qed.

Lemma friendly_name_lookup_witness :
  CryptoNative_LookupFriendlyNameByOid (fun _ => 0)
    (fun _ _ => Some (mkASN1_OBJECT 64 [1; 3; 14; 3; 2; 26]%N))
    (fun _ => Some (bytes_of_string "sha1")) (Some (bytes_of_string "sha1")) (Some None)
  = (0, Some None, [ERR_clear_error_called]).
Proof.
  pose proof (friendly_name_lookup (fun _ => 0)
                (fun _ _ => Some (mkASN1_OBJECT 64 [1; 3; 14; 3; 2; 26]%N))
                (fun _ => Some (bytes_of_string "sha1"))
                (Some (bytes_of_string "sha1")) (Some None)) as H.
  destruct (CryptoNative_LookupFriendlyNameByOid _ _ _ _ _) as [[code name] t].
  destruct H as (_ & _ & Hname & _ & Hparse & _).
  destruct (Hparse _ eq_refl) as [-> ->]; [lia|discriminate|].
  now rewrite Hname by discriminate.
Defined.

(** ** The ex-data callbacks *)

(** A cached OCSP response belongs to one certificate.  Duplicating the
    ex-data of a certificate always succeeds and leaves the slot of the
    OCSP index null in the copy, and every other slot as it was; so when
    the original and the copy are both freed, the frees of the two are
    those of the original alone, at most one response. *)
Theorem ocsp_response_not_shared (OCSP_RESPONSE : Type) (g : globals)
    (slot : option OCSP_RESPONSE) (idx : Z) :
  let '(code, from_d) := ExDataDupOcspResponse OCSP_RESPONSE g (Some slot) idx in
  code = 1
  /\ from_d = Some (if idx =? g_x509_ocsp_index g then None else slot)
  /\ ExDataFreeOcspResponse OCSP_RESPONSE g slot idx
     ++ ExDataFreeOcspResponse OCSP_RESPONSE g (default None from_d) idx
     = ExDataFreeOcspResponse OCSP_RESPONSE g slot idx
  /\ (length (ExDataFreeOcspResponse OCSP_RESPONSE g slot idx) <= 1)%nat
  /\ fst (ExDataDupOcspResponse OCSP_RESPONSE g None idx) = 1.
Proof.
  unfold ExDataDupOcspResponse, ExDataFreeOcspResponse.
  destruct (idx =? g_x509_ocsp_index g) eqn:Hidx; cbn [default];
    destruct slot as [response|]; rewrite ?Hidx, ?app_nil_r; cbn [length];
    repeat split; lia.
Qed.

(** ** The entry point *)

Lemma successive_calls_initialized legacy envs p :
  g_initializeShim p = true ->
  successive_calls legacy envs p = (replicate (length envs) (g_initStatus p), p, []).
Proof.
  intros Hdone. induction envs as [|env rest IH]; [reflexivity|].
  cbn [successive_calls length replicate].
  unfold CryptoNative_EnsureOpenSslInitialized. now rewrite Hdone, IH.
Qed.

(** Calls of the entry point one after the other.  The first call on a
    fresh once-control runs the initialisation core; every later call
    returns the status of that run, makes no library call and changes
    nothing, whatever the process would then answer: a failed
    initialisation is not tried again.  With a library that is not
    OpenSSL 1.0 the status is 0. *)
Theorem initialization_runs_once (legacy : bool) (env : init_env) (envs : list init_env)
    (p : process) :
  g_initializeShim p = false ->
  let '(ret, g', t) := EnsureOpenSslInitializedCore legacy env (process_globals p) in
  successive_calls legacy (env :: envs) p
  = (replicate (S (length envs)) ret, mkprocess true ret g', t)
  /\ (legacy = false -> ret = 0).
Proof.
  intros Hfresh. cbn [successive_calls].
  unfold CryptoNative_EnsureOpenSslInitialized. rewrite Hfresh.
  destruct (EnsureOpenSslInitializedCore legacy env (process_globals p))
    as [[ret g'] t] eqn:Hcore.
  rewrite successive_calls_initialized by reflexivity.
  cbn [g_initStatus replicate]. rewrite app_nil_r. split; [reflexivity|].
  intros ->. unfold EnsureOpenSslInitializedCore, EnsureOpenSsl11Initialized in Hcore.
  congruence.
Qed.

Lemma initialization_runs_once_witness :
  fst (fst (successive_calls true [seed_fails; healthy_env; healthy_env] loaded_process))
  = [4; 4; 4].
Proof.
  pose proof (initialization_runs_once true seed_fails [healthy_env; healthy_env]
                loaded_process eq_refl) as H.
  vm_compute EnsureOpenSslInitializedCore in H. cbv beta iota in H.
  destruct H as [-> _]. reflexivity.
Defined.

(** ** The Simple mode beyond the distinguished name, and invalid queries *)

(** When the Simple scan of the distinguished name answers nothing, the
    resolver answers with the first e-mail alternative name and consults
    nothing else; a Simple answer is never rendered raw.  A query for a
    [NULL] certificate or with a mode outside 0..5 clears the error queue,
    makes no other call and answers [NULL]. *)
Theorem resolver_simple_fallthrough (localOid : list uchar) (x509 : X509)
    (nameType forIssuer : Z) :
  result (CryptoNative_GetX509NameInfo localOid (Some x509) NAME_TYPE_SIMPLE forIssuer)
  = or_else (utf8_bio <$> (chosen_name x509 forIssuer ≫= amended_simple_answer))
      (utf8_bio <$> first_alternative d_rfc822Name (alt_names_of x509 forIssuer))
  /\ (nameType < NAME_TYPE_SIMPLE \/ NAME_TYPE_URL < nameType ->
      CryptoNative_GetX509NameInfo localOid (Some x509) nameType forIssuer
      = (None, [ERR_clear_error]))
  /\ CryptoNative_GetX509NameInfo localOid None nameType forIssuer
     = (None, [ERR_clear_error]).
Proof.
  split; [|split; [|reflexivity]].
  - rewrite GetX509NameInfo_result by reflexivity.
    unfold simple_part, alternative_part, legacy_part, first_alternative.
    cbn [Z.eqb NAME_TYPE_DNS NAME_TYPE_EMAIL NAME_TYPE_SIMPLE Pos.eqb orb fmap option_fmap
           option_map or_else].
    destruct (alt_names_of x509 forIssuer) as [names|]; cbn [mbind option_bind].
    + rewrite (omap_ext_pointwise (alt_name_pick localOid 0) d_rfc822Name)
        by (intros g; apply (alt_name_pick_by_mode localOid g)).
      destruct (head (omap d_rfc822Name names)); reflexivity.
    + reflexivity.
  - intros Hmode. unfold CryptoNative_GetX509NameInfo.
    replace ((nameType <? NAME_TYPE_SIMPLE) || (NAME_TYPE_URL <? nameType)) with true;
      [reflexivity|].
    symmetry. apply orb_true_iff. lia.
Qed.

Lemma resolver_simple_fallthrough_witness :
  CryptoNative_GetX509NameInfo [] (Some two_units_cert) 6 0 = (None, [ERR_clear_error]).
Proof.
  refine (proj1 (proj2 (resolver_simple_fallthrough [] two_units_cert 6 0)) _).
  right. unfold NAME_TYPE_URL. lia.
Defined.
